(** * Incus profile and storage-volume reconcilers: a shallow embedding

    The two Ansible modules [incus_profile.py] and [incus_storage_volume.py]
    reconcile a declared state against the [incus] command-line tool.  They are
    embedded here as functions in a small monad that threads the history of
    external commands and ends in one of the ways a module run can end:
    [exit_json], [fail_json], or an uncaught Python exception.

    Modelling choices
    - A [dict]-typed module parameter and a YAML document that is only read
      are values of [pyval].  Dictionaries are association lists in insertion
      order, because the volume module turns the items of [config] into
      command arguments in that order.  Keys are strings.  Floating-point
      scalars are left out.
    - The profile module assigns into the document it has decoded, in place,
      and a YAML alias makes the decoder bind one object in several places.
      The documents of the profile module are therefore values of [doc]: trees
      in which the bindings of one shared object carry the same mark, and an
      assignment to a marked dictionary changes all of its bindings.  A
      document that contains itself (an alias to an enclosing node) has no
      reading as a finite tree and is left out.
    - [str]-typed module parameters are [option string] ([None] when absent);
      parameters with [choices] are enumerations, [bool] parameters are [bool].
    - Operations on an object whose type is not known statically ([in],
      indexing, [.get]) return the exception Python raises on the wrong type.
    - The external collaborators are parameters: the command executor
      ([gateway], a function of the commands already issued and the command
      to run), the YAML codec ([yaml_safe_load], [yaml_dump]), the file system
      ([read_file]) and Python's [repr] of containers ([py_repr]).  A process
      always starts and its output always decodes as UTF-8; the [yaml] module
      can be imported. *)

From stdpp Require Import base list strings pretty.
From Stdlib Require Import ZArith.

Set Warnings "-register-all".

Local Open Scope string_scope.
Local Open Scope list_scope.
Local Open Scope Z_scope.

(** ** Python values *)

Inductive pyval : Type :=
| PNone
| PBool (b : bool)
| PInt (z : Z)
| PStr (s : string)
| PList (l : list pyval)
| PDict (d : list (string * pyval)).

Inductive exn : Type :=
| TypeError
| AttributeError
| KeyError
| YAMLError (msg : string).

(** The ways a piece of module code can end.  [ExitJson] and [FailJson] are the
    two terminating calls of [AnsibleModule]; [Raise] is an uncaught exception. *)
Inductive outcome (A : Type) : Type :=
| Ret (a : A)
| ExitJson (changed : bool) (msg : string)
| FailJson (msg : string) (io : option (string * string))
| Raise (e : exn).

Arguments Ret {A} a.
Arguments ExitJson {A} changed msg.
Arguments FailJson {A} msg io.
Arguments Raise {A} e.

Definition outcome_bind {A B : Type} (m : outcome A) (f : A → outcome B) : outcome B :=
  match m with
  | Ret a => f a
  | ExitJson c s => ExitJson c s
  | FailJson s io => FailJson s io
  | Raise e => Raise e
  end.

Declare Scope py_scope.
Notation "x ⇐ y ; z" := (outcome_bind y (λ x, z))
  (at level 20, y at level 100, z at level 200, only parsing) : py_scope.
Local Open Scope py_scope.

(** Truth value of an object, as [if x:] and [not x] test it. *)
Definition truthy (v : pyval) : bool :=
  match v with
  | PNone => false
  | PBool b => b
  | PInt z => negb (z =? 0)
  | PStr s => negb (String.eqb s "")
  | PList l => match l with [] => false | _ => true end
  | PDict d => match d with [] => false | _ => true end
  end.

(** Truth value of a [str]-or-[None] parameter. *)
Definition str_truthy (o : option string) : bool :=
  match o with
  | Some s => negb (String.eqb s "")
  | None => false
  end.

(** Truth value of a [dict]-or-[None] parameter. *)
Definition items_truthy (o : option (list (string * pyval))) : bool :=
  match o with
  | Some (_ :: _) => true
  | _ => false
  end.

Definition is_none (v : pyval) : bool :=
  match v with PNone => true | _ => false end.

(** ["{}".format(x)] for a [str]-or-[None] value. *)
Definition fmt_opt (o : option string) : string :=
  match o with Some s => s | None => "None" end.

(** [needle in hay] for two strings. *)
Fixpoint substring_of (needle hay : string) : bool :=
  String.prefix needle hay ||
  match hay with
  | EmptyString => false
  | String _ rest => substring_of needle rest
  end.

(** *** Dictionaries

    The entries of a dictionary, in insertion order.  The values are of type
    [A]: [pyval] for a plain value, [doc] for a document with shared
    objects. *)

Fixpoint dict_get {A : Type} (k : string) (d : list (string * A)) : option A :=
  match d with
  | [] => None
  | (k', v) :: d' => if String.eqb k k' then Some v else dict_get k d'
  end.

(** [d[k] = v]: an existing key keeps its position, a new key goes last. *)
Fixpoint dict_set {A : Type} (k : string) (v : A) (d : list (string * A))
  : list (string * A) :=
  match d with
  | [] => [(k, v)]
  | (k', v') :: d' =>
      if String.eqb k k' then (k, v) :: d' else (k', v') :: dict_set k v d'
  end.

(** [del d[k]] for a key that is present. *)
Fixpoint dict_del {A : Type} (k : string) (d : list (string * A)) : list (string * A) :=
  match d with
  | [] => []
  | (k', v') :: d' =>
      if String.eqb k k' then dict_del k d' else (k', v') :: dict_del k d'
  end.

Definition dict_has {A : Type} (k : string) (d : list (string * A)) : bool :=
  match dict_get k d with Some _ => true | None => false end.

(** *** Equality [==]

    [bool] is a subclass of [int], so [True == 1]; a dictionary equals another
    one with the same keys and equal values, whatever the order. *)
Definition num_of (v : pyval) : option Z :=
  match v with
  | PBool b => Some (if b then 1 else 0)
  | PInt z => Some z
  | _ => None
  end.

Fixpoint py_eq (a b : pyval) {struct a} : bool :=
  match a with
  | PNone => is_none b
  | PBool _ | PInt _ =>
      match num_of a, num_of b with
      | Some x, Some y => x =? y
      | _, _ => false
      end
  | PStr s => match b with PStr t => String.eqb s t | _ => false end
  | PList l =>
      match b with
      | PList l' =>
          (fix go (xs ys : list pyval) {struct xs} : bool :=
             match xs, ys with
             | [], [] => true
             | x :: xs', y :: ys' => py_eq x y && go xs' ys'
             | _, _ => false
             end) l l'
      | _ => false
      end
  | PDict d =>
      match b with
      | PDict d' =>
          Nat.eqb (length d) (length d') &&
          (fix go (xs : list (string * pyval)) {struct xs} : bool :=
             match xs with
             | [] => true
             | (k, v) :: xs' =>
                 match dict_get k d' with
                 | Some v' => py_eq v v' && go xs'
                 | None => false
                 end
             end) d
      | _ => false
      end
  end.

(** *** Operations on an object of unknown type

    Each returns the exception Python raises when the object does not support
    the operation. *)

(** [k in c] for a string [k]. *)
Definition py_contains (k : string) (c : pyval) : outcome bool :=
  match c with
  | PDict d => Ret (dict_has k d)
  | PList l => Ret (existsb (py_eq (PStr k)) l)
  | PStr s => Ret (substring_of k s)
  | _ => Raise TypeError
  end.

(** [c.get(k, dflt)]: only dictionaries have the method. *)
Definition py_get (c : pyval) (k : string) (dflt : pyval) : outcome pyval :=
  match c with
  | PDict d => Ret (default dflt (dict_get k d))
  | _ => Raise AttributeError
  end.

(** ** Documents with shared objects

    [yaml.safe_load] builds one object for a node that carries an anchor and
    binds that object wherever an alias names it; [copy.deepcopy] keeps such
    sharing inside the copy.  The profile module assigns into the decoded
    document in place, so an assignment made through one binding of a shared
    object shows through every binding of it.  A document is therefore a tree
    whose lists and dictionaries carry an optional mark: the nodes with one
    mark are the bindings of one object, and a node without a mark is an
    object bound at that place only.  Scalars are immutable and need no mark. *)
Inductive doc : Type :=
| DNone
| DBool (b : bool)
| DInt (z : Z)
| DStr (s : string)
| DList (mark : option nat) (l : list doc)
| DDict (mark : option nat) (d : list (string * doc)).

(** The value of a document: what reading it gives, whatever is shared. *)
Fixpoint value_of (t : doc) : pyval :=
  match t with
  | DNone => PNone
  | DBool b => PBool b
  | DInt z => PInt z
  | DStr s => PStr s
  | DList _ l => PList (value_of <$> l)
  | DDict _ d => PDict ((λ kv, (kv.1, value_of kv.2)) <$> d)
  end.

(** A value none of whose parts is shared: a module parameter, a literal. *)
Fixpoint doc_of (v : pyval) : doc :=
  match v with
  | PNone => DNone
  | PBool b => DBool b
  | PInt z => DInt z
  | PStr s => DStr s
  | PList l => DList None (doc_of <$> l)
  | PDict d => DDict None ((λ kv, (kv.1, doc_of kv.2)) <$> d)
  end.

(** [c[k]] for a string [k], on a document. *)
Definition doc_getitem (c : doc) (k : string) : outcome doc :=
  match c with
  | DDict _ d => match dict_get k d with Some v => Ret v | None => Raise KeyError end
  | _ => Raise TypeError
  end.

(** [c[k] = v] for a string [k], where [c] is the document itself. *)
Definition doc_setitem (c : doc) (k : string) (v : doc) : outcome doc :=
  match c with
  | DDict m d => Ret (DDict m (dict_set k v d))
  | _ => Raise TypeError
  end.

(** The object marked [i] gets the entries [f] makes of its own: every
    binding of it in the document [t] changes. *)
Fixpoint assign (i : nat) (f : list (string * doc) → list (string * doc)) (t : doc)
  : doc :=
  match t with
  | DList m l => DList m (assign i f <$> l)
  | DDict m d =>
      if bool_decide (m = Some i) then DDict m (f d)
      else DDict m ((λ kv, (kv.1, assign i f kv.2)) <$> d)
  | _ => t
  end.

(** [desired[field][k] = v] and [del desired[field][k]]: the dictionary bound
    under [field] is changed in place by [f].  When that dictionary is a
    shared object, the change reaches every binding of it in [desired]. *)
Definition modify_field (desired : doc) (field : string)
    (f : list (string * doc) → list (string * doc)) : outcome doc :=
  c ⇐ doc_getitem desired field;
  match c with
  | DDict None d => doc_setitem desired field (DDict None (f d))
  | DDict (Some i) _ => Ret (assign i f desired)
  | _ => Raise TypeError
  end.

(** ** External commands *)

(** One spawned process: the argument vector and the text fed to its standard
    input, if any. *)
Record call : Type := Call { cmd : list string; stdin : option string }.

(** Exit status, standard output, standard error. *)
Record reply : Type := Reply { rc : Z; out : string; err : string }.

(** Result of decoding a YAML text. *)
Inductive decoded : Type :=
| Decoded (v : pyval)
| DecodeError (msg : string).

(** Result of decoding a YAML text, sharing kept. *)
Inductive loaded : Type :=
| Loaded (v : doc)
| LoadError (msg : string).

(** Result of opening and reading a file. *)
Inductive file_status : Type :=
| Missing
| Unreadable (msg : string)
| Content (text : string).

(** A computation that may run external commands: it maps the commands issued
    so far to the commands issued when it ends and the way it ended. *)
Definition M (A : Type) : Type := list call → list call * outcome A.

Definition M_ret {A : Type} (a : A) : M A := λ h, (h, Ret a).

Definition M_bind {A B : Type} (m : M A) (f : A → M B) : M B :=
  λ h,
    match m h with
    | (h', Ret a) => f a h'
    | (h', ExitJson c s) => (h', ExitJson c s)
    | (h', FailJson s io) => (h', FailJson s io)
    | (h', Raise e) => (h', Raise e)
    end.

Notation "x ← y ; z" := (M_bind y (λ x, z))
  (at level 20, y at level 100, z at level 200, only parsing) : py_scope.
Notation "y ;; z" := (M_bind y (λ _, z))
  (at level 100, z at level 200, only parsing, right associativity) : py_scope.

(** A command-free computation seen as one that may run commands. *)
Definition lift {A : Type} (o : outcome A) : M A := λ h, (h, o).

(** [module.exit_json(changed=..., msg=...)] *)
Definition exit_json {A : Type} (changed : bool) (msg : string) : M A :=
  lift (ExitJson changed msg).

(** [module.fail_json(msg=...)], with [stdout=] and [stderr=] when given. *)
Definition fail_json {A : Type} (msg : string) (io : option (string * string)) : M A :=
  lift (FailJson msg io).

(** [if c: body], where the body falls through to the next statement. *)
Definition when (c : bool) (body : M unit) : M unit :=
  if c then body else M_ret ().

(** Spawning a process whose argument vector holds [None] raises [TypeError]
    before anything runs; otherwise the process runs and is recorded. *)
Definition spawn (gateway : list call → call → reply)
    (argv : list (option string)) (input : option string) : M reply :=
  match mapM id argv with
  | Some c => λ h, (h ++ [Call c input], Ret (gateway h (Call c input)))
  | None => lift (Raise TypeError)
  end.

(** The sub-command of an argument vector: what follows [incus] and the
    optional [--project <name>]. *)
Definition subcommand (c : call) : list string :=
  match cmd c with
  | prog :: rest =>
      if String.eqb prog "incus" then
        match rest with
        | flag :: _ :: rest' => if String.eqb flag "--project" then rest' else rest
        | _ => rest
        end
      else cmd c
  | [] => []
  end.

(** The read-only queries of the two modules. *)
Definition is_query (c : call) : bool :=
  match subcommand c with
  | "profile" :: "show" :: _ => true
  | "storage" :: "volume" :: "show" :: _ => true
  | "config" :: "show" :: _ => true
  | "config" :: "device" :: "list" :: _ => true
  | _ => false
  end.

(** The commands that change the external system. *)
Definition is_mutating (c : call) : bool :=
  match subcommand c with
  | "profile" :: verb :: _ =>
      bool_decide (verb ∈ ["create"; "edit"; "set"; "delete"; "rename"])
  | "storage" :: "volume" :: "snapshot" :: verb :: _ =>
      bool_decide (verb ∈ ["create"; "delete"; "restore"])
  | "storage" :: "volume" :: verb :: _ =>
      bool_decide (verb ∈ ["create"; "set"; "delete"; "export"; "import";
                           "copy"; "move"; "attach"])
  | _ => false
  end.

Definition is_rename (c : call) : bool :=
  match subcommand c with
  | "profile" :: "rename" :: _ => true
  | _ => false
  end.

Definition is_snapshot_create (c : call) : bool :=
  match subcommand c with
  | "storage" :: "volume" :: "snapshot" :: "create" :: _ => true
  | _ => false
  end.

(** The commands that act on a snapshot of a volume. *)
Definition is_snapshot_command (c : call) : bool :=
  match subcommand c with
  | "storage" :: "volume" :: "snapshot" :: _ => true
  | _ => false
  end.

(** [emits P R m]: whatever was issued before, [m] only adds commands that
    satisfy [P], and a value it returns satisfies [R]. *)
Definition emits {A : Type} (P : call → Prop) (R : A → Prop) (m : M A) : Prop :=
  ∀ h, ∃ new, (m h).1 = h ++ new ∧ Forall P new ∧ ∀ a, (m h).2 = Ret a → R a.

(** The commands a dry run may issue: read-only queries, none of which is a
    mutating command. *)
Definition harmless (c : call) : Prop := is_query c = true ∧ is_mutating c = false.

(** The commands of a run that is about a snapshot: read-only queries and
    commands on snapshots. *)
Definition snapshot_only (c : call) : Prop :=
  is_query c = true ∨ is_snapshot_command c = true.

(** A computation that never ends by [exit_json]. *)
Definition never_exits {A : Type} (m : M A) : Prop :=
  ∀ h changed msg, (m h).2 ≠ ExitJson changed msg.

(** A run that ended: by [exit_json], by [fail_json] or by an exception. *)
Definition ended {A : Type} (o : outcome A) : Prop :=
  match o with Ret _ => False | _ => True end.

(** [str(v)].  Python's [repr] of a list or dictionary is a parameter. *)
Definition py_str (py_repr : pyval → string) (v : pyval) : string :=
  match v with
  | PNone => "None"
  | PBool true => "True"
  | PBool false => "False"
  | PInt z => pretty z
  | PStr s => s
  | PList _ | PDict _ => py_repr v
  end.

(** ["{}:{}".format(remote, x)] when a remote other than [local] is set. *)
Definition qualify (remote : option string) (x : string) : string :=
  if str_truthy remote && negb (String.eqb (fmt_opt remote) "local")
  then fmt_opt remote +:+ ":" +:+ x
  else x.

(** ** The profile module, [incus_profile.py] *)

Module IncusProfile.

Inductive state_choice : Type := Present | Absent.

(** [module.params] and [module.check_mode]. *)
Record params : Type := {
  name : string;
  source : option string;
  description : option string;
  config : option (list (string * pyval));
  devices : option (list (string * pyval));
  state : state_choice;
  rename_from : option string;
  remote : option string;
  project : option string;
  check_mode : bool
}.

Section Model.

Context (gateway : list call → call → reply).
Context (yaml_safe_load : string → loaded).
Context (yaml_dump : doc → string).
Context (read_file : string → file_status).
Context (py_repr : pyval → string).

Variable p : params.

(** [load_source]: the declaration file decoded, [{}] when there is none or
    when it decodes to a false value. *)
Definition load_source : outcome doc :=
  if negb (str_truthy (source p)) then Ret (DDict None [])
  else
    let path := fmt_opt (source p) in
    match read_file path with
    | Missing => FailJson ("Source file '" +:+ path +:+ "' not found") None
    | Unreadable e =>
        FailJson ("Failed to read source file '" +:+ path +:+ "': " +:+ e) None
    | Content text =>
        match yaml_safe_load text with
        | Loaded v => Ret (if truthy (value_of v) then v else DDict None [])
        | LoadError e =>
            FailJson ("Failed to read source file '" +:+ path +:+ "': " +:+ e) None
        end
    end.

(** The base of the desired state: the declaration file, else a deep copy of
    the current profile, else an empty skeleton.  The deep copy shares
    nothing with the current profile and keeps the sharing within it, so it
    is the same document; the current profile is not assigned to later. *)
Definition base_state (current_profile : doc) : outcome doc :=
  desired ⇐ load_source;
  if negb (str_truthy (source p)) && truthy (value_of current_profile) then
    Ret current_profile
  else if negb (str_truthy (source p)) && negb (truthy (value_of current_profile)) then
    Ret (DDict None [("config", DDict None []); ("devices", DDict None []);
                     ("description", DStr "")])
  else Ret desired.

(** [if key not in desired or desired[key] is None: desired[key] = {}] *)
Definition ensure_dict (key : string) (desired : doc) : outcome doc :=
  present ⇐ py_contains key (value_of desired);
  if negb present then doc_setitem desired key (DDict None [])
  else
    c ⇐ doc_getitem desired key;
    if is_none (value_of c) then doc_setitem desired key (DDict None [])
    else Ret desired.

(** One round of the loop over [self.config.items()]: the dictionary bound
    under [config] is changed in place. *)
Definition merge_config_item (desired : doc) (kv : string * pyval) : outcome doc :=
  let (k, v) := kv in
  if is_none v then
    c ⇐ doc_getitem desired "config";
    present ⇐ py_contains k (value_of c);
    if present then modify_field desired "config" (dict_del k)
    else Ret desired
  else modify_field desired "config" (dict_set k (DStr (py_str py_repr v))).

(** One round of the loop over [self.devices.items()]: the dictionary bound
    under [devices] is changed in place. *)
Definition merge_device_item (desired : doc) (kv : string * pyval) : outcome doc :=
  let (k, v) := kv in
  modify_field desired "devices" (dict_set k (doc_of v)).

(** A [for] loop whose body updates [desired]. *)
Fixpoint for_items {A : Type} (body : doc → A → outcome doc)
    (items : list A) (desired : doc) : outcome doc :=
  match items with
  | [] => Ret desired
  | x :: rest => desired' ⇐ body desired x; for_items body rest desired'
  end.

Definition merge_description (desired : doc) : outcome doc :=
  match description p with
  | Some s => doc_setitem desired "description" (DStr s)
  | None => Ret desired
  end.

Definition merge_config (desired : doc) : outcome doc :=
  match config p with
  | Some items =>
      desired' ⇐ ensure_dict "config" desired;
      for_items merge_config_item items desired'
  | None => Ret desired
  end.

Definition merge_devices (desired : doc) : outcome doc :=
  match devices p with
  | Some items =>
      desired' ⇐ ensure_dict "devices" desired;
      for_items merge_device_item items desired'
  | None => Ret desired
  end.

(** [get_desired_state(current_profile)] *)
Definition get_desired_state (current_profile : doc) : outcome doc :=
  desired ⇐ base_state current_profile;
  desired ⇐ merge_description desired;
  desired ⇐ merge_config desired;
  merge_devices desired.

(** The argument vector of a command whose arguments are all strings. *)
Definition incus_cmd (args : list string) : list string :=
  "incus" :: (if str_truthy (project p) then ["--project"; fmt_opt (project p)] else [])
    ++ args.

(** [run_incus(args)]; the [check_rc] flag changes nothing in the source. *)
Definition run_incus (args : list string) : M reply :=
  spawn gateway
    ([Some "incus"]
       ++ (if str_truthy (project p) then [Some "--project"; project p] else [])
       ++ (Some <$> args))
    None.

(** [run_incus_input(args, input_data)] *)
Definition run_incus_input (args : list string) (input_data : string) : M reply :=
  spawn gateway
    ([Some "incus"]
       ++ (if str_truthy (project p) then [Some "--project"; project p] else [])
       ++ (Some <$> args))
    (Some input_data).

Definition target : string := qualify (remote p) (name p).

(** [get_profile]: the decoded profile, [None] when the query fails or its
    output does not decode. *)
Definition get_profile : M doc :=
  r ← run_incus ["profile"; "show"; target];
  if rc r =? 0 then
    match yaml_safe_load (out r) with
    | Loaded v => M_ret v
    | LoadError _ => M_ret DNone
    end
  else M_ret DNone.

(** [update(new_create)] *)
Definition update (new_create : bool) : M unit :=
  current ← get_profile;
  when (negb (truthy (value_of current)))
    (fail_json "Profile not found for update" None);;
  desired ← lift (get_desired_state current);
  cur_description ← lift (py_get (value_of current) "description" PNone);
  des_description ← lift (py_get (value_of desired) "description" PNone);
  cur_config ← lift (py_get (value_of current) "config" PNone);
  des_config ← lift (py_get (value_of desired) "config" PNone);
  cur_devices ← lift (py_get (value_of current) "devices" PNone);
  des_devices ← lift (py_get (value_of desired) "devices" PNone);
  let updated :=
    negb (py_eq cur_description des_description)
    || negb (py_eq cur_config des_config)
    || negb (py_eq cur_devices des_devices) in
  when (negb updated && negb new_create)
    (exit_json false "Profile matches configuration");;
  when (check_mode p)
    (exit_json true "Profile would be updated");;
  r ← run_incus_input ["profile"; "edit"; target] (yaml_dump desired);
  when (negb (rc r =? 0))
    (fail_json ("Failed to update profile: " +:+ err r) (Some (out r, err r)));;
  exit_json true "Profile updated".

(** [create] *)
Definition create : M unit :=
  r ← run_incus ["profile"; "create"; target];
  when (negb (rc r =? 0))
    (fail_json ("Failed to create profile: " +:+ err r) (Some (out r, err r)));;
  update true.

(** [delete] *)
Definition delete : M unit :=
  when (check_mode p)
    (exit_json true "Profile would be deleted");;
  r ← run_incus ["profile"; "delete"; target];
  when (negb (rc r =? 0))
    (fail_json ("Failed to delete profile: " +:+ err r) (Some (out r, err r)));;
  exit_json true "Profile deleted".

(** [run] *)
Definition run : M unit :=
  profile ← get_profile;
  match state p with
  | Present =>
      if negb (truthy (value_of profile)) then
        when (check_mode p)
          (exit_json true "Profile would be created");;
        create
      else update false
  | Absent =>
      if truthy (value_of profile) then delete
      else exit_json false "Profile not found"
  end.

End Model.

Definition with_rename_from (r : option string) (p : params) : params :=
  {| name := name p; source := source p; description := description p;
     config := config p; devices := devices p; state := state p;
     rename_from := r; remote := remote p; project := project p;
     check_mode := check_mode p |}.

Definition with_check_mode (dry : bool) (p : params) : params :=
  {| name := name p; source := source p; description := description p;
     config := config p; devices := devices p; state := state p;
     rename_from := rename_from p; remote := remote p; project := project p;
     check_mode := dry |}.

End IncusProfile.

(** ** The storage-volume module, [incus_storage_volume.py] *)

Module IncusStorageVolume.

Inductive type_choice : Type := Filesystem | Block.
Inductive content_choice : Type := ContentFilesystem | ContentBlock | ContentIso.
Inductive state_choice : Type :=
| Present | Absent | Restored | Exported | Imported | Copied.

(** [module.params] and [module.check_mode]. *)
Record params : Type := {
  pool : string;
  name : option string;
  type : type_choice;
  config : option (list (string * pyval));
  description : option string;
  state : state_choice;
  content_type : option content_choice;
  remote : option string;
  project : option string;
  snapshot : option string;
  export_to : option string;
  import_from : option string;
  target_pool : option string;
  target_volume : option string;
  move_op : bool;
  target : option string;
  attach_to : option string;
  attach_path : option string;
  attach_device_param : option string;
  check_mode : bool
}.

Definition content_name (c : content_choice) : string :=
  match c with
  | ContentFilesystem => "filesystem"
  | ContentBlock => "block"
  | ContentIso => "iso"
  end.

Definition is_iso (c : option content_choice) : bool :=
  match c with Some ContentIso => true | _ => false end.

Definition is_filesystem (t : type_choice) : bool :=
  match t with Filesystem => true | Block => false end.

Definition opt_eqb (a b : option string) : bool :=
  match a, b with
  | Some x, Some y => String.eqb x y
  | None, None => true
  | _, _ => false
  end.

(** [" ".join(args)]: joining a list that holds [None] raises [TypeError]. *)
Definition join_args (args : list (option string)) : outcome string :=
  match mapM id args with
  | Some l => Ret (String.concat " " l)
  | None => Raise TypeError
  end.

(** [k in c] where [k] is a string or [None]. *)
Definition py_contains_opt (k : option string) (c : pyval) : outcome bool :=
  match k with
  | Some s => py_contains s c
  | None =>
      match c with
      | PDict _ => Ret false
      | PList l => Ret (existsb (py_eq PNone) l)
      | _ => Raise TypeError
      end
  end.

Section Model.

Context (gateway : list call → call → reply).
Context (yaml_safe_load : string → decoded).
Context (py_repr : pyval → string).

Variable p : params.

(** [self.attach_device = module.params['attach_device'] or self.name] *)
Definition attach_device : option string :=
  if str_truthy (attach_device_param p) then attach_device_param p else name p.

(** The argument vector of a command whose arguments are all strings. *)
Definition incus_cmd (args : list string) : list string :=
  "incus" :: (if str_truthy (project p) then ["--project"; fmt_opt (project p)] else [])
    ++ args.

(** [run_incus(args)] *)
Definition run_incus (args : list (option string)) : M reply :=
  spawn gateway
    ([Some "incus"]
       ++ (if str_truthy (project p) then [Some "--project"; project p] else [])
       ++ args)
    None.

(** The pool, prefixed with the remote when one other than [local] is set. *)
Definition qualified_pool : string := qualify (remote p) (pool p).

(** [get_volume_info]: only [ImportError] is caught around the decoding, so a
    decoding error leaves the function as an exception. *)
Definition get_volume_info : M pyval :=
  r ← run_incus [Some "storage"; Some "volume"; Some "show";
                 Some qualified_pool; name p];
  if rc r =? 0 then
    match yaml_safe_load (out r) with
    | Decoded v => M_ret v
    | DecodeError msg => lift (Raise (YAMLError msg))
    end
  else M_ret PNone.

(** [snapshot_exists] *)
Definition snapshot_exists : M bool :=
  let target_snap := fmt_opt (name p) +:+ "/" +:+ fmt_opt (snapshot p) in
  r ← run_incus [Some "storage"; Some "volume"; Some "show";
                 Some qualified_pool; Some target_snap];
  M_ret (rc r =? 0).

(** The argument list [attach_volume] builds. *)
Definition has_path : bool :=
  str_truthy (attach_path p) && is_filesystem (type p) && negb (is_iso (content_type p)).

Definition use_default_device_name : bool := opt_eqb attach_device (name p).

Definition attach_cmd_args : list (option string) :=
  [Some "storage"; Some "volume"; Some "attach"; Some qualified_pool; name p; attach_to p]
    ++ (if negb use_default_device_name || has_path then [attach_device] else [])
    ++ (if has_path then [attach_path p] else []).

(** [attach_volume]: under check mode it returns to its caller. *)
Definition attach_volume : M unit :=
  if check_mode p then M_ret ()
  else
    r ← run_incus attach_cmd_args;
    when (negb (rc r =? 0))
      (joined ← lift (join_args attach_cmd_args);
       fail_json ("Failed to attach volume: " +:+ err r +:+ " CMD: " +:+ joined)
         (Some (out r, err r))).

(** [check_if_attached]: the first query's output is parsed and thrown away;
    the second one decides. *)
Definition check_if_attached : M bool :=
  let instance :=
    if str_truthy (remote p) && negb (String.eqb (fmt_opt (remote p)) "local")
    then Some (fmt_opt (remote p) +:+ ":" +:+ fmt_opt (attach_to p))
    else attach_to p in
  _ ← run_incus [Some "config"; Some "device"; Some "list"; instance; Some "--format=json"];
  r ← run_incus [Some "config"; Some "show"; instance];
  if rc r =? 0 then
    match yaml_safe_load (out r) with
    | Decoded data =>
        devs ← lift (py_get data "devices" (PDict []));
        lift (py_contains_opt attach_device devs)
    | DecodeError msg => lift (Raise (YAMLError msg))
    end
  else M_ret false.

(** The argument list of the volume creation command. *)
Definition create_cmd_args : list (option string) :=
  [Some "storage"; Some "volume"; Some "create"; Some qualified_pool; name p]
    ++ (if str_truthy (description p) then [Some "--description"; description p] else [])
    ++ (match content_type p with
        | Some c => [Some ("--type=" +:+ content_name c)]
        | None => if is_filesystem (type p) then [] else [Some "--type=block"]
        end)
    ++ (if str_truthy (target p) then [Some ("--target=" +:+ fmt_opt (target p))] else [])
    ++ (if items_truthy (config p)
        then (λ kv, Some (kv.1 +:+ "=" +:+ py_str py_repr kv.2)) <$> default [] (config p)
        else []).

(** [create]: a snapshot when a snapshot name is given, else the volume. *)
Definition create : M unit :=
  when (str_truthy (snapshot p))
    (exists_ ← snapshot_exists;
     when exists_ (exit_json false "Snapshot already exists");;
     when (check_mode p) (exit_json true "Snapshot would be created");;
     r ← run_incus [Some "storage"; Some "volume"; Some "snapshot"; Some "create";
                    Some qualified_pool; name p; snapshot p];
     when (negb (rc r =? 0))
       (fail_json ("Failed to create snapshot: " +:+ err r) (Some (out r, err r)));;
     exit_json true "Snapshot created");;
  when (check_mode p) (exit_json true "Storage volume would be created");;
  r ← run_incus create_cmd_args;
  when (negb (rc r =? 0))
    (fail_json ("Failed to create storage volume: " +:+ err r) (Some (out r, err r)));;
  when (str_truthy (attach_to p)) attach_volume;;
  exit_json true "Storage volume created".

(** One round of the loop over [self.config.items()] in [update]; the loop
    carries [changed] and [msgs]. *)
Definition update_item (current_config : pyval) (acc : bool * list string)
    (kv : string * pyval) : M (bool * list string) :=
  let (k, v) := kv in
  curr_val ← lift (py_get current_config k (PStr ""));
  if negb (String.eqb (py_str py_repr curr_val) (py_str py_repr v)) then
    when (negb (check_mode p))
      (r ← run_incus [Some "storage"; Some "volume"; Some "set"; Some qualified_pool;
                      name p; Some (k +:+ "=" +:+ py_str py_repr v)];
       when (negb (rc r =? 0))
         (fail_json ("Failed to set volume config '" +:+ k +:+ "': " +:+ err r) None));;
    M_ret (true, acc.2 ++ ["Updated config '" +:+ k +:+ "'"])
  else M_ret acc.

Fixpoint update_loop (current_config : pyval) (items : list (string * pyval))
    (acc : bool * list string) : M (bool * list string) :=
  match items with
  | [] => M_ret acc
  | kv :: rest =>
      acc' ← update_item current_config acc kv;
      update_loop current_config rest acc'
  end.

(** [update(current_info)] *)
Definition update (current_info : pyval) : M unit :=
  acc ← (if items_truthy (config p) then
           current_config ← lift (py_get current_info "config" (PDict []));
           update_loop current_config (default [] (config p)) (false, [])
         else M_ret (false, []));
  acc ← (if str_truthy (attach_to p) then
           is_attached ← check_if_attached;
           if negb is_attached then
             attach_volume;;
             M_ret (true, acc.2 ++ ["Attached to instance '" +:+ fmt_opt (attach_to p) +:+ "'"])
           else M_ret acc
         else M_ret acc);
  if acc.1 then exit_json true (String.concat ", " acc.2)
  else exit_json false "Storage volume matches configuration".

(** [delete]: the snapshot when a snapshot name is given, else the volume. *)
Definition delete : M unit :=
  when (str_truthy (snapshot p))
    (exists_ ← snapshot_exists;
     when (negb exists_) (exit_json false "Snapshot not found");;
     when (check_mode p) (exit_json true "Snapshot would be deleted");;
     r ← run_incus [Some "storage"; Some "volume"; Some "snapshot"; Some "delete";
                    Some qualified_pool; name p; snapshot p];
     when (negb (rc r =? 0))
       (fail_json ("Failed to delete snapshot: " +:+ err r) (Some (out r, err r)));;
     exit_json true "Snapshot deleted");;
  when (check_mode p) (exit_json true "Storage volume would be deleted");;
  r ← run_incus [Some "storage"; Some "volume"; Some "delete"; Some qualified_pool; name p];
  when (negb (rc r =? 0))
    (fail_json ("Failed to delete storage volume: " +:+ err r) (Some (out r, err r)));;
  exit_json true "Storage volume deleted".

(** [restore] *)
Definition restore : M unit :=
  when (negb (str_truthy (snapshot p)))
    (fail_json "'snapshot' is required for state=restored" None);;
  exists_ ← snapshot_exists;
  when (negb exists_) (fail_json "Snapshot not found" None);;
  when (check_mode p) (exit_json true "Snapshot would be restored");;
  r ← run_incus [Some "storage"; Some "volume"; Some "snapshot"; Some "restore";
                 Some qualified_pool; name p; snapshot p];
  when (negb (rc r =? 0))
    (fail_json ("Failed to restore snapshot: " +:+ err r) (Some (out r, err r)));;
  exit_json true "Snapshot restored".

(** [export_volume] *)
Definition export_volume : M unit :=
  when (negb (str_truthy (export_to p)))
    (fail_json "'export_to' is required for state=exported" None);;
  when (check_mode p) (exit_json true "Volume would be exported");;
  r ← run_incus [Some "storage"; Some "volume"; Some "export"; Some qualified_pool;
                 name p; export_to p];
  when (negb (rc r =? 0))
    (fail_json ("Failed to export volume: " +:+ err r) (Some (out r, err r)));;
  exit_json true "Volume exported".

(** [import_volume] *)
Definition import_volume : M unit :=
  when (negb (str_truthy (import_from p)))
    (fail_json "'import_from' is required for state=imported" None);;
  when (check_mode p) (exit_json true "Volume would be imported");;
  r ← run_incus
        ([Some "storage"; Some "volume"; Some "import"; Some qualified_pool; import_from p]
           ++ (if str_truthy (name p) then [name p] else [])
           ++ (match content_type p with
               | Some c => [Some ("--type=" +:+ content_name c)]
               | None => []
               end));
  when (negb (rc r =? 0))
    (fail_json ("Failed to import volume: " +:+ err r) (Some (out r, err r)));;
  when (str_truthy (attach_to p)) attach_volume;;
  exit_json true "Volume imported".

(** [copy_move] *)
Definition copy_move : M unit :=
  when (negb (str_truthy (target_pool p)))
    (fail_json "'target_pool' is required for state=copied (can be same as source)" None);;
  when (negb (str_truthy (target_volume p)))
    (fail_json "'target_volume' is required for state=copied" None);;
  let op := if move_op p then "move" else "copy" in
  let source := qualify (remote p) (pool p +:+ "/" +:+ fmt_opt (name p)) in
  let dest :=
    qualify (remote p) (fmt_opt (target_pool p) +:+ "/" +:+ fmt_opt (target_volume p)) in
  when (check_mode p) (exit_json true ("Volume would be " +:+ op +:+ "d"));;
  r ← run_incus
        ([Some "storage"; Some "volume"; Some op; Some source; Some dest]
           ++ (if str_truthy (target p)
               then [Some ("--target=" +:+ fmt_opt (target p))] else []));
  when (negb (rc r =? 0))
    (fail_json ("Failed to " +:+ op +:+ " volume: " +:+ err r) (Some (out r, err r)));;
  exit_json true ("Volume " +:+ op +:+ "d").

Definition is_imported (s : state_choice) : bool :=
  match s with Imported => true | _ => false end.

(** [run]: the dispatcher.  An import does not look at the current state;
    every other mode reads it first. *)
Definition run : M unit :=
  if is_imported (state p) then import_volume
  else
    current_info ← get_volume_info;
    match state p with
    | Present =>
        if negb (truthy current_info) && negb (str_truthy (snapshot p)) then create
        else if truthy current_info && str_truthy (snapshot p) then create
        else if truthy current_info && negb (str_truthy (snapshot p)) then
          update current_info
        else fail_json ("Volume '" +:+ fmt_opt (name p) +:+ "' does not exist") None
    | Absent =>
        if truthy current_info then delete
        else exit_json false "Volume/Snapshot not found"
    | Restored => restore
    | Exported => export_volume
    | Copied =>
        when (negb (truthy current_info))
          (fail_json ("Source volume '" +:+ fmt_opt (name p) +:+ "' not found") None);;
        copy_move
    | Imported => M_ret ()
    end.

End Model.


Definition with_check_mode (dry : bool) (p : params) : params :=
  {| pool := pool p; name := name p; type := type p; config := config p;
     description := description p; state := state p; content_type := content_type p;
     remote := remote p; project := project p; snapshot := snapshot p;
     export_to := export_to p; import_from := import_from p;
     target_pool := target_pool p; target_volume := target_volume p;
     move_op := move_op p; target := target p; attach_to := attach_to p;
     attach_path := attach_path p; attach_device_param := attach_device_param p;
     check_mode := dry |}.

End IncusStorageVolume.

(** ** Reference functions used in the statements *)

(** A field of a document that is absent or null counts as an empty
    dictionary; a field holding anything but a dictionary has no such reading. *)
Definition field_dict (key : string) (d : list (string * doc))
  : option (list (string * doc)) :=
  match dict_get key d with
  | None | Some DNone => Some []
  | Some (DDict _ c) => Some c
  | Some _ => None
  end.

(** The mark of the dictionary bound under a field, when it is a shared
    object. *)
Definition field_mark (key : string) (d : list (string * doc)) : option nat :=
  match dict_get key d with
  | Some (DDict m _) => m
  | _ => None
  end.

(** The object marked [i] is bound somewhere in the document [t]. *)
Fixpoint mentions (i : nat) (t : doc) : bool :=
  match t with
  | DList m l => bool_decide (m = Some i) || existsb (mentions i) l
  | DDict m d => bool_decide (m = Some i) || existsb (λ kv, mentions i kv.2) d
  | _ => false
  end.

(** A document as a decoder builds it from a finite text: no shared object is
    bound inside itself. *)
Fixpoint proper (t : doc) : bool :=
  match t with
  | DList m l =>
      match m with Some i => negb (existsb (mentions i) l) | None => true end
      && forallb proper l
  | DDict m d =>
      match m with
      | Some i => negb (existsb (λ kv, mentions i kv.2) d)
      | None => true
      end
      && forallb (λ kv, proper kv.2) d
  | _ => true
  end.

(** [T] changes a document only inside the object marked [mc]: it leaves
    alone a document in which that object is not bound, and it keeps the kind
    and the mark of the document it is applied to. *)
Definition within (mc : option nat) (T : doc → doc) : Prop :=
  (∀ x, (∀ i, mc = Some i → mentions i x = false) → T x = x) ∧
  (∀ x, match x with
        | DDict m _ => ∃ d', T x = DDict m d'
        | DList m _ => ∃ l', T x = DList m l'
        | _ => T x = x
        end).

(** The mark of the object the merge of [field] assigns to: the dictionary
    bound under the field, when the matching parameter is given. *)
Definition written_mark {A : Type} (param : option A) (field : string)
    (d : list (string * doc)) : option nat :=
  match param with
  | Some _ => field_mark field d
  | None => None
  end.

(** The loop over [self.config.items()] seen as a function on the entries of
    the configuration dictionary. *)
Definition patch_config (py_repr : pyval → string)
    (items : list (string * pyval)) (c : list (string * doc)) : list (string * doc) :=
  fold_left
    (λ c kv, if is_none kv.2 then dict_del kv.1 c
             else dict_set kv.1 (DStr (py_str py_repr kv.2)) c)
    items c.

(** The loop over [self.devices.items()] seen as a function on the entries of
    the devices dictionary. *)
Definition patch_devices (items : list (string * pyval)) (ds : list (string * doc))
  : list (string * doc) :=
  fold_left (λ ds kv, dict_set kv.1 (doc_of kv.2) ds) items ds.

(** The test [update] applies to one item of the [config] parameter against
    the current configuration [c]. *)
Definition differs (py_repr : pyval → string) (c : list (string * pyval))
    (kv : string * pyval) : bool :=
  negb (String.eqb (py_str py_repr (default (PStr "") (dict_get kv.1 c)))
                   (py_str py_repr kv.2)).

(** A value as a decoder or the argument parser builds it: no dictionary in
    it has two entries under one key. *)
Fixpoint well_formed (v : pyval) : Prop :=
  match v with
  | PList l =>
      (fix all (l : list pyval) : Prop :=
         match l with
         | [] => True
         | x :: l' => well_formed x ∧ all l'
         end) l
  | PDict d =>
      NoDup d.*1 ∧
      (fix all (d : list (string * pyval)) : Prop :=
         match d with
         | [] => True
         | (_, x) :: d' => well_formed x ∧ all d'
         end) d
  | _ => True
  end.

(** ** Test doubles

    Concrete collaborators and parameters on which the theorems below are
    instantiated. *)

Definition no_file : string → file_status := λ _, Missing.

Definition plain_repr : pyval → string := λ _, "<container>".

(** A decoder that knows the empty text and one document, and rejects every
    other text. *)
Definition toy_safe_load : string → decoded :=
  λ text,
    if String.eqb text "" then Decoded PNone
    else if String.eqb text "{config: {}, description: old}" then
      Decoded (PDict [("config", PDict []); ("description", PStr "old")])
    else DecodeError "could not parse".

(** A decoder of documents from a decoder of values: nothing is shared in
    what it returns. *)
Definition load_unshared (f : string → decoded) : string → loaded :=
  λ text,
    match f text with
    | Decoded v => Loaded (doc_of v)
    | DecodeError e => LoadError e
    end.

Definition toy_dump : doc → string := λ _, "<yaml>".

(** A gateway on which every command fails. *)
Definition gateway_down : list call → call → reply :=
  λ _ _, Reply 1 "" "Error: not found".

(** A gateway on which every command succeeds and prints a fixed text. *)
Definition gateway_prints (text : string) : list call → call → reply :=
  λ _ _, Reply 0 text "".

Definition merge_current : doc :=
  DDict None [("config", DDict None [("a", DStr "1"); ("b", DStr "2")]);
              ("description", DStr "");
              ("devices", DDict None [])].

Definition merge_params : IncusProfile.params :=
  {| IncusProfile.name := "web";
     IncusProfile.source := None;
     IncusProfile.description := None;
     IncusProfile.config := Some [("b", PNone); ("c", PStr "3")];
     IncusProfile.devices := None;
     IncusProfile.state := IncusProfile.Present;
     IncusProfile.rename_from := None;
     IncusProfile.remote := Some "local";
     IncusProfile.project := Some "default";
     IncusProfile.check_mode := false |}.

Definition eth0_current : doc :=
  DDict None
    [("config", DDict None []);
     ("description", DStr "");
     ("devices",
      DDict None [("eth0", DDict None [("type", DStr "nic"); ("network", DStr "x");
                                       ("mtu", DStr "1500")])])].

Definition eth0_params : IncusProfile.params :=
  {| IncusProfile.name := "web";
     IncusProfile.source := None;
     IncusProfile.description := None;
     IncusProfile.config := None;
     IncusProfile.devices :=
       Some [("eth0", PDict [("type", PStr "nic"); ("network", PStr "y")])];
     IncusProfile.state := IncusProfile.Present;
     IncusProfile.rename_from := None;
     IncusProfile.remote := Some "local";
     IncusProfile.project := Some "default";
     IncusProfile.check_mode := false |}.

Definition volume_params (st : IncusStorageVolume.state_choice)
    (snap : option string) (dry : bool) : IncusStorageVolume.params :=
  {| IncusStorageVolume.pool := "default";
     IncusStorageVolume.name := Some "data";
     IncusStorageVolume.type := IncusStorageVolume.Filesystem;
     IncusStorageVolume.config := None;
     IncusStorageVolume.description := None;
     IncusStorageVolume.state := st;
     IncusStorageVolume.content_type := None;
     IncusStorageVolume.remote := Some "local";
     IncusStorageVolume.project := Some "default";
     IncusStorageVolume.snapshot := snap;
     IncusStorageVolume.export_to := None;
     IncusStorageVolume.import_from := None;
     IncusStorageVolume.target_pool := None;
     IncusStorageVolume.target_volume := None;
     IncusStorageVolume.move_op := false;
     IncusStorageVolume.target := None;
     IncusStorageVolume.attach_to := None;
     IncusStorageVolume.attach_path := None;
     IncusStorageVolume.attach_device_param := None;
     IncusStorageVolume.check_mode := dry |}.

(** Attaching the volume [data] to the instance [web] at [/mnt/data]. *)
Definition attach_params : IncusStorageVolume.params :=
  {| IncusStorageVolume.pool := "default";
     IncusStorageVolume.name := Some "data";
     IncusStorageVolume.type := IncusStorageVolume.Filesystem;
     IncusStorageVolume.config := None;
     IncusStorageVolume.description := None;
     IncusStorageVolume.state := IncusStorageVolume.Present;
     IncusStorageVolume.content_type := None;
     IncusStorageVolume.remote := Some "local";
     IncusStorageVolume.project := Some "default";
     IncusStorageVolume.snapshot := None;
     IncusStorageVolume.export_to := None;
     IncusStorageVolume.import_from := None;
     IncusStorageVolume.target_pool := None;
     IncusStorageVolume.target_volume := None;
     IncusStorageVolume.move_op := false;
     IncusStorageVolume.target := None;
     IncusStorageVolume.attach_to := Some "web";
     IncusStorageVolume.attach_path := Some "/mnt/data";
     IncusStorageVolume.attach_device_param := None;
     IncusStorageVolume.check_mode := false |}.

(** Parameters that set two configuration keys of the volume [data]. *)
Definition sized_params : IncusStorageVolume.params :=
  {| IncusStorageVolume.pool := "default";
     IncusStorageVolume.name := Some "data";
     IncusStorageVolume.type := IncusStorageVolume.Filesystem;
     IncusStorageVolume.config := Some [("size", PStr "10GiB"); ("snapshots.expiry", PInt 7)];
     IncusStorageVolume.description := None;
     IncusStorageVolume.state := IncusStorageVolume.Present;
     IncusStorageVolume.content_type := None;
     IncusStorageVolume.remote := Some "local";
     IncusStorageVolume.project := Some "default";
     IncusStorageVolume.snapshot := None;
     IncusStorageVolume.export_to := None;
     IncusStorageVolume.import_from := None;
     IncusStorageVolume.target_pool := None;
     IncusStorageVolume.target_volume := None;
     IncusStorageVolume.move_op := false;
     IncusStorageVolume.target := None;
     IncusStorageVolume.attach_to := None;
     IncusStorageVolume.attach_path := None;
     IncusStorageVolume.attach_device_param := None;
     IncusStorageVolume.check_mode := false |}.


(** A gateway that holds the volume [data], without snapshots, and refuses
    every other command. *)
Definition gateway_one_volume : list call → call → reply :=
  λ _ c,
    match subcommand c with
    | ["storage"; "volume"; "show"; _; n] =>
        if String.eqb n "data" then Reply 0 "{config: {}, description: old}" ""
        else Reply 1 "" "Error: not found"
    | _ => Reply 1 "" "Error: not found"
    end.

Definition dry_profile_params : IncusProfile.params :=
  {| IncusProfile.name := "web";
     IncusProfile.source := None;
     IncusProfile.description := Some "Web servers";
     IncusProfile.config := Some [("limits.cpu", PInt 2)];
     IncusProfile.devices := None;
     IncusProfile.state := IncusProfile.Present;
     IncusProfile.rename_from := None;
     IncusProfile.remote := Some "local";
     IncusProfile.project := Some "default";
     IncusProfile.check_mode := true |}.

(** The query for the volume [data] of the pool [default], and the one for
    its snapshot [s1]. *)
Definition show_data : call :=
  Call ["incus"; "--project"; "default"; "storage"; "volume"; "show"; "default"; "data"]
       None.

Definition show_data_s1 : call :=
  Call ["incus"; "--project"; "default"; "storage"; "volume"; "show"; "default"; "data/s1"]
       None.

(** A profile invocation that supplies the description only. *)
Definition described_profile_params : IncusProfile.params :=
  {| IncusProfile.name := "web";
     IncusProfile.source := None;
     IncusProfile.description := Some "old";
     IncusProfile.config := None;
     IncusProfile.devices := None;
     IncusProfile.state := IncusProfile.Present;
     IncusProfile.rename_from := None;
     IncusProfile.remote := Some "local";
     IncusProfile.project := Some "default";
     IncusProfile.check_mode := false |}.

(** A profile invocation that names a declaration file. *)
Definition sourced_profile_params : IncusProfile.params :=
  {| IncusProfile.name := "web";
     IncusProfile.source := Some "/etc/incus/web.yaml";
     IncusProfile.description := None;
     IncusProfile.config := None;
     IncusProfile.devices := None;
     IncusProfile.state := IncusProfile.Present;
     IncusProfile.rename_from := None;
     IncusProfile.remote := Some "local";
     IncusProfile.project := Some "default";
     IncusProfile.check_mode := false |}.

(** The document the gateway prints for the profile [web] and for the volume
    [data] in these runs, decoded. *)
Definition old_document : list (string * pyval) :=
  [("config", PDict []); ("description", PStr "old")].

(** The same document as the profile reader decodes it, nothing shared. *)
Definition old_profile : doc :=
  DDict None [("config", DDict None []); ("description", DStr "old")].

(** A volume invocation with the transfer parameters set: export path, import
    path, copy target. *)
Definition transfer_params (st : IncusStorageVolume.state_choice)
    (nm attach : option string) : IncusStorageVolume.params :=
  {| IncusStorageVolume.pool := "default";
     IncusStorageVolume.name := nm;
     IncusStorageVolume.type := IncusStorageVolume.Filesystem;
     IncusStorageVolume.config := None;
     IncusStorageVolume.description := None;
     IncusStorageVolume.state := st;
     IncusStorageVolume.content_type := None;
     IncusStorageVolume.remote := Some "local";
     IncusStorageVolume.project := Some "default";
     IncusStorageVolume.snapshot := None;
     IncusStorageVolume.export_to := Some "/tmp/data.tar";
     IncusStorageVolume.import_from := Some "/tmp/data.tar";
     IncusStorageVolume.target_pool := Some "fast";
     IncusStorageVolume.target_volume := Some "data2";
     IncusStorageVolume.move_op := false;
     IncusStorageVolume.target := None;
     IncusStorageVolume.attach_to := attach;
     IncusStorageVolume.attach_path := None;
     IncusStorageVolume.attach_device_param := None;
     IncusStorageVolume.check_mode := false |}.

(** The configuration of an instance that has a device named [data], as text
    and decoded. *)
Definition instance_text : string := "{devices: {data: {type: disk}}}".

Definition instance_safe_load : string → decoded :=
  λ text,
    if String.eqb text instance_text then
      Decoded (PDict [("devices", PDict [("data", PDict [("type", PStr "disk")])])])
    else DecodeError "could not parse".

(** A declaration file that repeats the document [old_document] and adds a
    [name] field, with a file system that holds it under every path and a
    decoder that knows both texts. *)
Definition named_text : string := "{config: {}, description: old, name: other}".

Definition file_with (text : string) : string → file_status := λ _, Content text.

Definition named_safe_load : string → decoded :=
  λ text,
    if String.eqb text "{config: {}, description: old}" then Decoded (PDict old_document)
    else if String.eqb text named_text then
      Decoded (PDict (old_document ++ [("name", PStr "other")]))
    else DecodeError "could not parse".

(** Removing the profile [web]. *)
Definition absent_profile_params : IncusProfile.params :=
  {| IncusProfile.name := "web";
     IncusProfile.source := None;
     IncusProfile.description := None;
     IncusProfile.config := None;
     IncusProfile.devices := None;
     IncusProfile.state := IncusProfile.Absent;
     IncusProfile.rename_from := None;
     IncusProfile.remote := Some "local";
     IncusProfile.project := Some "default";
     IncusProfile.check_mode := false |}.

(** A declaration file in which [devices] is an alias of the [config]
    mapping: the decoder binds one object under both fields. *)
Definition alias_text : string := "{config: &c {a: '1', b: '2'}, devices: *c}".

Definition alias_load : string → loaded :=
  λ text,
    if String.eqb text alias_text then
      Loaded (DDict None
                [("config", DDict (Some 1%nat) [("a", DStr "1"); ("b", DStr "2")]);
                 ("devices", DDict (Some 1%nat) [("a", DStr "1"); ("b", DStr "2")])])
    else LoadError "could not parse".

(** The config parameter of the merge example together with a device named
    [b], on that declaration file. *)
Definition alias_params : IncusProfile.params :=
  {| IncusProfile.name := "web";
     IncusProfile.source := Some "/etc/incus/web.yaml";
     IncusProfile.description := None;
     IncusProfile.config := Some [("b", PNone); ("c", PStr "3")];
     IncusProfile.devices := Some [("b", PDict [("type", PStr "nic")])];
     IncusProfile.state := IncusProfile.Present;
     IncusProfile.rename_from := None;
     IncusProfile.remote := Some "local";
     IncusProfile.project := Some "default";
     IncusProfile.check_mode := false |}.

(** The same declaration file with the config parameter alone. *)
Definition alias_config_params : IncusProfile.params :=
  {| IncusProfile.name := "web";
     IncusProfile.source := Some "/etc/incus/web.yaml";
     IncusProfile.description := None;
     IncusProfile.config := Some [("b", PNone); ("c", PStr "3")];
     IncusProfile.devices := None;
     IncusProfile.state := IncusProfile.Present;
     IncusProfile.rename_from := None;
     IncusProfile.remote := Some "local";
     IncusProfile.project := Some "default";
     IncusProfile.check_mode := false |}.

(** A profile in which [devices] and [config] are one dictionary, and
    parameters that remove the key [b] from the configuration and supply the
    devices [b] and [n]. *)
Definition aliased_current : doc :=
  DDict None [("config", DDict (Some 1%nat) [("b", DStr "2")]);
              ("devices", DDict (Some 1%nat) [("b", DStr "2")])].

Definition reorder_params : IncusProfile.params :=
  {| IncusProfile.name := "web";
     IncusProfile.source := None;
     IncusProfile.description := None;
     IncusProfile.config := Some [("b", PNone)];
     IncusProfile.devices :=
       Some [("b", PDict [("type", PStr "nic")]); ("n", PDict [("type", PStr "disk")])];
     IncusProfile.state := IncusProfile.Present;
     IncusProfile.rename_from := None;
     IncusProfile.remote := Some "local";
     IncusProfile.project := Some "default";
     IncusProfile.check_mode := false |}.

(** ** Dictionaries *)

Section DictFacts.

Context {A : Type}.

Implicit Types (k : string) (v : A) (d : list (string * A)).

Lemma dict_get_set_eq k v d : dict_get k (dict_set k v d) = Some v.
Proof.
  induction d as [|[k' v'] d IH]; simpl.
  - by rewrite String.eqb_refl.
  - destruct (String.eqb k k') eqn:E; simpl; rewrite ?E, ?String.eqb_refl; auto.
Qed.

Lemma dict_get_set_ne k k' v d :
  k ≠ k' → dict_get k' (dict_set k v d) = dict_get k' d.
Proof.
  intros Hne. induction d as [|[k0 v0] d IH]; simpl.
  - apply not_eq_sym, String.eqb_neq in Hne. by rewrite Hne.
  - destruct (String.eqb k k0) eqn:E; simpl.
    + apply String.eqb_eq in E. subst k0.
      apply not_eq_sym, String.eqb_neq in Hne. by rewrite Hne.
    + by rewrite IH.
Qed.

Lemma dict_get_del_eq k d : dict_get k (dict_del k d) = None.
Proof.
  induction d as [|[k' v'] d IH]; simpl; [done|].
  destruct (String.eqb k k') eqn:E; simpl; rewrite ?E; auto.
Qed.

Lemma dict_get_del_ne k k' d :
  k ≠ k' → dict_get k' (dict_del k d) = dict_get k' d.
Proof.
  intros Hne. induction d as [|[k0 v0] d IH]; simpl; [done|].
  destruct (String.eqb k k0) eqn:E; simpl.
  - apply String.eqb_eq in E. subst k0.
    apply not_eq_sym, String.eqb_neq in Hne. by rewrite Hne.
  - by rewrite IH.
Qed.

Lemma dict_del_absent k d : dict_has k d = false → dict_del k d = d.
Proof.
  unfold dict_has. induction d as [|[k' v'] d IH]; simpl; [done|].
  destruct (String.eqb k k') eqn:E; [done|].
  intros H. by rewrite IH.
Qed.

Lemma dict_get_absent k d : k ∉ d.*1 → dict_get k d = None.
Proof.
  induction d as [|[k' v'] d IH]; simpl; [done|].
  intros Hnot. apply not_elem_of_cons in Hnot as [Hne Hnot].
  apply String.eqb_neq in Hne. rewrite Hne. auto.
Qed.

End DictFacts.

(** ** Documents *)

Section DocFacts.

Implicit Types (t x : doc) (d c : list (string * doc)) (i : nat).

Lemma dict_get_fmap {A B : Type} (g : A → B) k (e : list (string * A)) :
  dict_get k ((λ kv, (kv.1, g kv.2)) <$> e) = g <$> dict_get k e.
Proof.
  induction e as [|[k' v] e IH]; simpl; [done|].
  by destruct (String.eqb k k').
Qed.

Lemma dict_has_fmap {A B : Type} (g : A → B) k (e : list (string * A)) :
  dict_has k ((λ kv, (kv.1, g kv.2)) <$> e) = dict_has k e.
Proof. unfold dict_has. rewrite dict_get_fmap. by destruct (dict_get k e). Qed.


Lemma mentions_doc_of i : ∀ v, mentions i (doc_of v) = false.
Proof.
  fix IH 1. intros [| b | z | s | l | e]; simpl; try done.
  - revert l. fix IHl 1. intros [|x l]; [done|].
    simpl. rewrite IH. apply IHl.
  - revert e. fix IHe 1. intros [|[k x] e]; [done|].
    simpl. rewrite IH. apply IHe.
Qed.

(** Assigning to an object changes nothing where the object is not bound. *)
Lemma assign_clear i f : ∀ t, mentions i t = false → assign i f t = t.
Proof.
  fix IH 1. intros [| b | z | s | m l | m e]; simpl; try done.
  - intros [_ Hl]%orb_false_elim. f_equal.
    revert l Hl. fix IHl 1. intros [|x l] Hl; [done|].
    simpl in Hl. apply orb_false_elim in Hl as [Hx Hl].
    simpl. f_equal; [by apply IH|by apply IHl].
  - intros [Hm He]%orb_false_elim. rewrite Hm. f_equal.
    revert e He. fix IHe 1. intros [|[k x] e] He; [done|].
    simpl in He. apply orb_false_elim in He as [Hx He].
    simpl. f_equal; [f_equal; by apply IH|by apply IHe].
Qed.

(** Assigning to an object keeps the kind and the mark of every node. *)
Lemma assign_dict i f m d : ∃ d', assign i f (DDict m d) = DDict m d'.
Proof. simpl. destruct (bool_decide (m = Some i)); eauto. Qed.

Lemma mentions_entry i k d x :
  dict_get k d = Some x → existsb (λ kv, mentions i kv.2) d = false →
  mentions i x = false.
Proof.
  induction d as [|[k' v] d IH]; simpl; [done|].
  intros Hget [Hv Hd]%orb_false_elim.
  destruct (String.eqb k k'); [by injection Hget as <-|auto].
Qed.



(** In a proper document the document itself is bound nowhere inside it. *)
Lemma proper_root i d k x :
  proper (DDict (Some i) d) = true → dict_get k d = Some x → mentions i x = false.
Proof.
  simpl. intros [Hroot _]%andb_true_iff Hget.
  apply negb_true_iff in Hroot. by eapply mentions_entry.
Qed.

Lemma proper_root_mark m d k mc c :
  proper (DDict m d) = true → dict_get k d = Some (DDict mc c) →
  ∀ i, mc = Some i → m ≠ Some i.
Proof.
  intros Hp Hget i -> ->.
  pose proof (proper_root i d k _ Hp Hget) as H. simpl in H.
  by rewrite bool_decide_eq_true_2 in H.
Qed.

End DocFacts.

(** ** The desired-state builder of the profile module *)

Section PatchFacts.

Context (py_repr : pyval → string).

Lemma patch_config_lookup items : ∀ c k,
  NoDup items.*1 →
  dict_get k (patch_config py_repr items c) =
    match dict_get k items with
    | Some PNone => None
    | Some v => Some (DStr (py_str py_repr v))
    | None => dict_get k c
    end.
Proof.
  unfold patch_config.
  induction items as [|[k0 v0] items IH]; intros c k Hnd; simpl; [done|].
  apply NoDup_cons in Hnd as [Hfresh Hnd]. rewrite IH by done.
  destruct (String.eqb k k0) eqn:E.
  - apply String.eqb_eq in E. subst k0.
    rewrite (dict_get_absent k items) by done.
    destruct v0; simpl; by rewrite ?dict_get_del_eq, ?dict_get_set_eq.
  - apply String.eqb_neq, not_eq_sym in E.
    destruct (dict_get k items) as [[]|]; try done.
    destruct (is_none v0); by rewrite ?dict_get_del_ne, ?dict_get_set_ne.
Qed.

Lemma patch_devices_lookup items : ∀ ds k,
  NoDup items.*1 →
  dict_get k (patch_devices items ds) =
    match dict_get k items with
    | Some v => Some (doc_of v)
    | None => dict_get k ds
    end.
Proof.
  unfold patch_devices.
  induction items as [|[k0 v0] items IH]; intros ds k Hnd; simpl; [done|].
  apply NoDup_cons in Hnd as [Hfresh Hnd]. rewrite IH by done.
  destruct (String.eqb k k0) eqn:E.
  - apply String.eqb_eq in E. subst k0.
    by rewrite (dict_get_absent k items), dict_get_set_eq.
  - apply String.eqb_neq, not_eq_sym in E.
    destruct (dict_get k items); [done|]. by rewrite dict_get_set_ne.
Qed.


End PatchFacts.

Section Within.

Lemma within_id mc : within mc id.
Proof. split; [done|]. intros [| | | | m l | m d]; simpl; eauto. Qed.

Lemma within_assign i f : within (Some i) (assign i f).
Proof.
  split.
  - intros x Hx. apply assign_clear. by apply Hx.
  - intros [| | | | m l | m d]; simpl; eauto.
    destruct (bool_decide (m = Some i)); eauto.
Qed.

Lemma within_compose mc T1 T2 : within mc T1 → within mc T2 → within mc (T2 ∘ T1).
Proof.
  intros [Hc1 Hs1] [Hc2 Hs2]. split.
  - intros x Hx. simpl. by rewrite Hc1, Hc2.
  - intros x. pose proof (Hs1 x) as H1.
    destruct x as [| | | | m l | m d]; cbn [compose] in *.
    + rewrite H1. apply (Hs2 DNone).
    + rewrite H1. apply (Hs2 (DBool b)).
    + rewrite H1. apply (Hs2 (DInt z)).
    + rewrite H1. apply (Hs2 (DStr s)).
    + destruct H1 as [l' ->]. apply (Hs2 (DList m l')).
    + destruct H1 as [d' ->]. apply (Hs2 (DDict m d')).
Qed.

Lemma within_none T x : within None T → T x = x.
Proof. intros [Hc _]. by apply Hc. Qed.

Lemma within_dict mc T m d : within mc T → ∃ d', T (DDict m d) = DDict m d'.
Proof. intros [_ Hs]. apply (Hs (DDict m d)). Qed.

Lemma within_str mc T s : within mc T → T (DStr s) = DStr s.
Proof. intros [_ Hs]. apply (Hs (DStr s)). Qed.

(** A change inside an object keeps the mark of a field and whether the
    field reads as a dictionary. *)
Lemma within_field_mark mc T key d :
  within mc T → field_mark key ((λ kv, (kv.1, T kv.2)) <$> d) = field_mark key d.
Proof.
  intros [_ Hs]. unfold field_mark. rewrite dict_get_fmap.
  destruct (dict_get key d) as [x|]; simpl; [|done].
  pose proof (Hs x) as Hx.
  destruct x as [| | | | m l | m c]; try (by rewrite Hx).
  - by destruct Hx as [l' ->].
  - by destruct Hx as [d' ->].
Qed.

Lemma within_field_dict mc T key d :
  within mc T →
  is_Some (field_dict key d) → is_Some (field_dict key ((λ kv, (kv.1, T kv.2)) <$> d)).
Proof.
  intros [_ Hs]. unfold field_dict. rewrite dict_get_fmap.
  destruct (dict_get key d) as [x|]; simpl; [|done].
  pose proof (Hs x) as Hx.
  destruct x as [| | | | m l | m c]; try (by rewrite Hx).
  - by intros [? [=]].
  - by destruct Hx as [d' ->].
Qed.


End Within.

Section DesiredState.

Import IncusProfile.

Context (yaml_safe_load : string → loaded).
Context (read_file : string → file_status).
Context (py_repr : pyval → string).

Implicit Types (p : params) (d c : list (string * doc)) (m mc : option nat).

Lemma contains_dict key m d :
  py_contains key (value_of (DDict m d)) = Ret (dict_has key d).
Proof. simpl. by rewrite dict_has_fmap. Qed.

(** After [ensure_dict] the field holds a dictionary: the one it held, with
    its mark, or a new empty one; the other fields are as before. *)
Lemma ensure_dict_ok key m d c :
  field_dict key d = Some c →
  ∃ d', ensure_dict key (DDict m d) = Ret (DDict m d') ∧
        dict_get key d' = Some (DDict (field_mark key d) c) ∧
        ∀ k, k ≠ key → dict_get k d' = dict_get k d.
Proof.
  unfold ensure_dict. rewrite contains_dict.
  unfold field_dict, field_mark, dict_has. cbn [outcome_bind].
  destruct (dict_get key d) as [x|] eqn:E; cbn [negb].
  - unfold doc_getitem. rewrite E. cbn [outcome_bind].
    destruct x; simpl; intros [= <-]; eauto.
    eexists; split_and!; eauto using dict_get_set_eq.
    intros k Hk. by apply dict_get_set_ne.
  - intros [= <-]. simpl. eexists; split_and!; eauto using dict_get_set_eq.
    intros k Hk. by apply dict_get_set_ne.
Qed.

(** An assignment into the dictionary bound under a field: the field holds
    the changed dictionary, and every other field is as before up to the
    bindings of that dictionary in it. *)
Lemma modify_field_ok m d field mc c f :
  dict_get field d = Some (DDict mc c) →
  (∀ i, mc = Some i → m ≠ Some i) →
  ∃ d' T, modify_field (DDict m d) field f = Ret (DDict m d') ∧
          dict_get field d' = Some (DDict mc (f c)) ∧
          (∀ k, k ≠ field → dict_get k d' = T <$> dict_get k d) ∧
          within mc T.
Proof.
  intros Hget Hroot. unfold modify_field, doc_getitem. rewrite Hget.
  cbn [outcome_bind]. destruct mc as [i|].
  - exists ((λ kv, (kv.1, assign i f kv.2)) <$> d), (assign i f).
    split_and!.
    + simpl. rewrite bool_decide_eq_false_2; [done|]. by apply Hroot.
    + rewrite dict_get_fmap, Hget. simpl. by rewrite bool_decide_eq_true_2.
    + intros k _. apply dict_get_fmap.
    + apply within_assign.
  - exists (dict_set field (DDict None (f c)) d), id. split_and!.
    + done.
    + apply dict_get_set_eq.
    + intros k Hk. rewrite dict_get_set_ne by done. by destruct (dict_get k d).
    + apply within_id.
Qed.

Lemma merge_config_item_ok m d mc c k0 v0 :
  dict_get "config" d = Some (DDict mc c) →
  (∀ i, mc = Some i → m ≠ Some i) →
  ∃ d' T, merge_config_item py_repr (DDict m d) (k0, v0) = Ret (DDict m d') ∧
          dict_get "config" d' =
            Some (DDict mc (if is_none v0 then dict_del k0 c
                            else dict_set k0 (DStr (py_str py_repr v0)) c)) ∧
          (∀ k, k ≠ "config" → dict_get k d' = T <$> dict_get k d) ∧
          within mc T.
Proof.
  intros Hc Hroot. unfold merge_config_item.
  destruct (is_none v0).
  - unfold doc_getitem at 1. rewrite Hc. cbn [outcome_bind].
    rewrite contains_dict. cbn [outcome_bind].
    destruct (dict_has k0 c) eqn:Hhas.
    + by apply modify_field_ok.
    + rewrite dict_del_absent by done. exists d, id. split_and!; [done|done| |].
      * intros k _. by destruct (dict_get k d).
      * apply within_id.
  - by apply modify_field_ok.
Qed.

Lemma config_loop_ok m mc items : ∀ d c,
  dict_get "config" d = Some (DDict mc c) →
  (∀ i, mc = Some i → m ≠ Some i) →
  ∃ d' T, for_items (merge_config_item py_repr) items (DDict m d) = Ret (DDict m d') ∧
          dict_get "config" d' = Some (DDict mc (patch_config py_repr items c)) ∧
          (∀ k, k ≠ "config" → dict_get k d' = T <$> dict_get k d) ∧
          within mc T.
Proof.
  induction items as [|[k0 v0] items IH]; intros d c Hc Hroot.
  - exists d, id. split_and!; [done|done| |apply within_id].
    intros k _. by destruct (dict_get k d).
  - destruct (merge_config_item_ok m d mc c k0 v0 Hc Hroot)
      as (d1 & T1 & Hstep & Hc1 & Hrest1 & HT1).
    destruct (IH _ _ Hc1 Hroot) as (d' & T2 & Hloop & Hc' & Hrest' & HT2).
    exists d', (T2 ∘ T1). split_and!.
    + cbn [for_items]. rewrite Hstep. exact Hloop.
    + exact Hc'.
    + intros k Hk. rewrite Hrest', Hrest1 by done. by destruct (dict_get k d).
    + by apply within_compose.
Qed.

Lemma devices_loop_ok m mv items : ∀ d ds,
  dict_get "devices" d = Some (DDict mv ds) →
  (∀ i, mv = Some i → m ≠ Some i) →
  ∃ d' T, for_items merge_device_item items (DDict m d) = Ret (DDict m d') ∧
          dict_get "devices" d' = Some (DDict mv (patch_devices items ds)) ∧
          (∀ k, k ≠ "devices" → dict_get k d' = T <$> dict_get k d) ∧
          within mv T.
Proof.
  induction items as [|[k0 v0] items IH]; intros d ds Hds Hroot.
  - exists d, id. split_and!; [done|done| |apply within_id].
    intros k _. by destruct (dict_get k d).
  - destruct (modify_field_ok m d "devices" mv ds (dict_set k0 (doc_of v0)) Hds Hroot)
      as (d1 & T1 & Hstep & Hds1 & Hrest1 & HT1).
    destruct (IH _ _ Hds1 Hroot) as (d' & T2 & Hloop & Hds' & Hrest' & HT2).
    exists d', (T2 ∘ T1). split_and!.
    + cbn [for_items]. unfold merge_device_item at 1. rewrite Hstep. exact Hloop.
    + exact Hds'.
    + intros k Hk. rewrite Hrest', Hrest1 by done. by destruct (dict_get k d).
    + by apply within_compose.
Qed.

Lemma field_dict_ext key d d' :
  dict_get key d' = dict_get key d → field_dict key d' = field_dict key d.
Proof. unfold field_dict. by intros ->. Qed.

Lemma field_mark_ext key d d' :
  dict_get key d' = dict_get key d → field_mark key d' = field_mark key d.
Proof. unfold field_mark. by intros ->. Qed.

Lemma merge_description_ok p m d :
  ∃ d', merge_description p (DDict m d) = Ret (DDict m d') ∧
        dict_get "description" d' =
          match description p with
          | Some s => Some (DStr s)
          | None => dict_get "description" d
          end ∧
        ∀ k, k ≠ "description" → dict_get k d' = dict_get k d.
Proof.
  unfold merge_description. destruct (description p) as [s|]; simpl; [|eauto].
  eexists; split_and!; [done|apply dict_get_set_eq|].
  intros k Hk. by apply dict_get_set_ne.
Qed.

(** The merge of one field: the dictionary bound under it is patched, and
    every other field is as before up to the bindings of that dictionary. *)
Lemma merge_config_full p m d :
  config p = None ∨ is_Some (field_dict "config" d) →
  (∀ i, written_mark (config p) "config" d = Some i → m ≠ Some i) →
  ∃ d' T, merge_config py_repr p (DDict m d) = Ret (DDict m d') ∧
          (∀ k, k ≠ "config" → dict_get k d' = T <$> dict_get k d) ∧
          within (written_mark (config p) "config" d) T ∧
          match config p with
          | Some items =>
              ∃ c0, field_dict "config" d = Some c0 ∧
                    dict_get "config" d' =
                      Some (DDict (field_mark "config" d)
                              (patch_config py_repr items c0))
          | None => d' = d
          end.
Proof.
  unfold merge_config, written_mark. intros Hshape Hroot.
  destruct (config p) as [items|] eqn:Hcfg.
  - destruct Hshape as [|[c0 Hc0]]; [done|].
    destruct (ensure_dict_ok "config" m d c0 Hc0) as (d1 & -> & Hc1 & Hrest1).
    cbn [outcome_bind].
    destruct (config_loop_ok m _ items d1 c0 Hc1 Hroot)
      as (d' & T & -> & Hc' & Hrest' & HT).
    exists d', T. split_and!; [done| |done|by eauto].
    intros k Hk. rewrite Hrest' by done. by rewrite Hrest1.
  - exists d, id. split_and!; [done| |apply within_id|done].
    intros k _. by destruct (dict_get k d).
Qed.

Lemma merge_devices_full p m d :
  devices p = None ∨ is_Some (field_dict "devices" d) →
  (∀ i, written_mark (devices p) "devices" d = Some i → m ≠ Some i) →
  ∃ d' T, merge_devices p (DDict m d) = Ret (DDict m d') ∧
          (∀ k, k ≠ "devices" → dict_get k d' = T <$> dict_get k d) ∧
          within (written_mark (devices p) "devices" d) T ∧
          match devices p with
          | Some items =>
              ∃ ds0, field_dict "devices" d = Some ds0 ∧
                     dict_get "devices" d' =
                       Some (DDict (field_mark "devices" d) (patch_devices items ds0))
          | None => d' = d
          end.
Proof.
  unfold merge_devices, written_mark. intros Hshape Hroot.
  destruct (devices p) as [items|] eqn:Hdev.
  - destruct Hshape as [|[ds0 Hds0]]; [done|].
    destruct (ensure_dict_ok "devices" m d ds0 Hds0) as (d1 & -> & Hds1 & Hrest1).
    cbn [outcome_bind].
    destruct (devices_loop_ok m _ items d1 ds0 Hds1 Hroot)
      as (d' & T & -> & Hds' & Hrest' & HT).
    exists d', T. split_and!; [done| |done|by eauto].
    intros k Hk. rewrite Hrest' by done. by rewrite Hrest1.
  - exists d, id. split_and!; [done| |apply within_id|done].
    intros k _. by destruct (dict_get k d).
Qed.

Lemma proper_written_mark {A : Type} (param : option A) m d key :
  proper (DDict m d) = true → ∀ i, written_mark param key d = Some i → m ≠ Some i.
Proof.
  intros Hp i. unfold written_mark, field_mark. destruct param; [|done].
  destruct (dict_get key d) as [[| | | | |mc c]|] eqn:E; try done.
  intros ->. by eapply proper_root_mark.
Qed.

Lemma written_mark_ext {A : Type} (param : option A) key d d' :
  dict_get key d' = dict_get key d → written_mark param key d' = written_mark param key d.
Proof. unfold written_mark, field_mark. by intros ->. Qed.

Lemma option_fmap_fmap {X Y Z : Type} (g : X → Y) (g' : Y → Z) (o : option X) :
  g' <$> (g <$> o) = (g' ∘ g) <$> o.
Proof. by destruct o. Qed.

(** Every field of the desired state, on a base that is a dictionary whose
    [config] and [devices] fields have the shape the merges need and that is
    not itself one of the dictionaries the merges assign to. *)
Lemma get_desired_state_fields p current m base :
  base_state yaml_safe_load read_file p current = Ret (DDict m base) →
  (∀ i, written_mark (config p) "config" base = Some i → m ≠ Some i) →
  (∀ i, written_mark (devices p) "devices" base = Some i → m ≠ Some i) →
  config p = None ∨ is_Some (field_dict "config" base) →
  devices p = None ∨ is_Some (field_dict "devices" base) →
  ∃ desired Tc Tv,
    get_desired_state yaml_safe_load read_file py_repr p current
      = Ret (DDict m desired) ∧
    within (written_mark (config p) "config" base) Tc ∧
    within (written_mark (devices p) "devices" base) Tv ∧
    dict_get "description" desired =
      match description p with
      | Some s => Some (DStr s)
      | None => (Tv ∘ Tc) <$> dict_get "description" base
      end ∧
    match config p with
    | Some items =>
        ∃ c0, field_dict "config" base = Some c0 ∧
              dict_get "config" desired =
                Some (Tv (DDict (field_mark "config" base)
                            (patch_config py_repr items c0)))
    | None => dict_get "config" desired = Tv <$> dict_get "config" base
    end ∧
    match devices p with
    | Some items =>
        ∃ ds1, field_dict "devices" ((λ kv, (kv.1, Tc kv.2)) <$> base) = Some ds1 ∧
               dict_get "devices" desired =
                 Some (DDict (field_mark "devices" base) (patch_devices items ds1))
    | None => dict_get "devices" desired = Tc <$> dict_get "devices" base
    end ∧
    ∀ k, k ≠ "description" → k ≠ "config" → k ≠ "devices" →
         dict_get k desired = (Tv ∘ Tc) <$> dict_get k base.
Proof.
  intros Hbase Hrc Hrv Hcfg Hdev. unfold get_desired_state. rewrite Hbase.
  cbn [outcome_bind].
  destruct (merge_description_ok p m base) as (d1 & -> & Hdesc & H1).
  cbn [outcome_bind].
  assert (Hc1 : dict_get "config" d1 = dict_get "config" base) by (by apply H1).
  assert (Hv1 : dict_get "devices" d1 = dict_get "devices" base) by (by apply H1).
  destruct (merge_config_full p m d1) as (d2 & Tc & -> & H2 & HTc & Hc2).
  { by rewrite (field_dict_ext "config" base d1). }
  { by rewrite (written_mark_ext (config p) "config" base d1). }
  rewrite (written_mark_ext (config p) "config" base d1) in HTc by done.
  cbn [outcome_bind].
  assert (Hv2 : dict_get "devices" d2
                = dict_get "devices" ((λ kv, (kv.1, Tc kv.2)) <$> base)).
  { rewrite H2 by done. by rewrite Hv1, dict_get_fmap. }
  assert (Hm2 : written_mark (devices p) "devices" d2
                = written_mark (devices p) "devices" base).
  { rewrite (written_mark_ext _ _ _ _ Hv2). unfold written_mark.
    destruct (devices p); [|done]. by eapply within_field_mark. }
  destruct (merge_devices_full p m d2) as (d3 & Tv & -> & H3 & HTv & Hd3).
  { rewrite (field_dict_ext _ _ _ Hv2).
    destruct Hdev as [|Hdev]; [by left|right]. by eapply within_field_dict. }
  { by rewrite Hm2. }
  rewrite Hm2 in HTv.
  exists d3, Tc, Tv. split_and!; [done|done|done| | | |].
  - rewrite H3, H2 by done. rewrite Hdesc.
    destruct (description p) as [s|]; [|apply option_fmap_fmap].
    simpl. by rewrite (within_str _ _ _ HTc), (within_str _ _ _ HTv).
  - rewrite H3 by done. destruct (config p) as [items|].
    + destruct Hc2 as (c0 & Hc0 & Hget). exists c0.
      rewrite (field_dict_ext "config" base d1) in Hc0 by done.
      rewrite (field_mark_ext "config" base d1) in Hget by done.
      by rewrite Hget.
    + subst d2. by rewrite Hc1.
  - destruct (devices p) as [items|].
    + destruct Hd3 as (ds1 & Hds1 & Hget). exists ds1.
      rewrite (field_dict_ext _ _ _ Hv2) in Hds1.
      rewrite (field_mark_ext _ _ _ Hv2) in Hget.
      rewrite (within_field_mark _ _ _ _ HTc) in Hget. done.
    + subst d3. rewrite H2 by done. by rewrite Hv1.
  - intros k Hk1 Hk2 Hk3. rewrite H3, H2, H1 by done. apply option_fmap_fmap.
Qed.



End DesiredState.

(** The merge example: current [config] is [{a: 1, b: 2}], the parameter is
    [{b: None, c: 3}], and the desired [config] is [{a: 1, c: 3}]. *)
Example desired_config_merge_example :
  IncusProfile.get_desired_state (load_unshared toy_safe_load) no_file plain_repr
    merge_params merge_current
  = Ret (DDict None [("config", DDict None [("a", DStr "1"); ("c", DStr "3")]);
                     ("description", DStr "");
                     ("devices", DDict None [])]).
Proof. reflexivity. Qed.



(** The device example: the current [eth0] has three fields, the supplied one
    has two, and the desired [eth0] is the supplied one. *)
Example desired_devices_replace_example :
  IncusProfile.get_desired_state (load_unshared toy_safe_load) no_file plain_repr
    eth0_params eth0_current
  = Ret (DDict None
           [("config", DDict None []);
            ("description", DStr "");
            ("devices",
             DDict None [("eth0", DDict None [("type", DStr "nic");
                                              ("network", DStr "y")])])]).
Proof. reflexivity. Qed.


(** On the declaration file with the alias, the supplied device [b] is bound
    whole under [b] in the desired [devices], although [devices] and [config]
    are one dictionary. *)
Example aliased_devices_hold_the_supplied_device :
  ∃ desired ds,
    IncusProfile.get_desired_state alias_load (file_with alias_text) plain_repr
      alias_params DNone = Ret (DDict None desired) ∧
    dict_get "devices" desired = Some (DDict (Some 1%nat) ds) ∧
    dict_get "b" ds = Some (doc_of (PDict [("type", PStr "nic")])).
Proof. do 2 eexists. split_and!; reflexivity. Qed.

(** ** Reasoning about the commands a computation issues *)

Section Emits.

Context {A B : Type} (P : call → Prop).

Lemma emits_ret (R : A → Prop) (a : A) : R a → emits P R (M_ret a).
Proof.
  intros Ha h. exists []. simpl. rewrite app_nil_r.
  split_and!; [done|constructor|]. by intros a' [= <-].
Qed.

Lemma emits_lift (R : A → Prop) (o : outcome A) :
  (∀ a, o = Ret a → R a) → emits P R (lift o).
Proof.
  intros Ho h. exists []. simpl. rewrite app_nil_r. split_and!; [done|constructor|done].
Qed.

Lemma emits_exit (R : A → Prop) changed msg : emits P R (exit_json changed msg).
Proof. apply emits_lift. intros a [=]. Qed.

Lemma emits_fail (R : A → Prop) msg io : emits P R (fail_json msg io).
Proof. apply emits_lift. intros a [=]. Qed.

Lemma emits_bind (R : A → Prop) (R' : B → Prop) (m : M A) (f : A → M B) :
  emits P R m → (∀ a, R a → emits P R' (f a)) → emits P R' (M_bind m f).
Proof.
  intros Hm Hf h. destruct (Hm h) as (new & Hh & Hnew & Hret).
  unfold M_bind. destruct (m h) as [h1 o] eqn:Hmh. simpl in Hh, Hret. subst h1.
  destruct o as [a| | |]; try (exists new; split_and!; [done|done|intros ? [=]]).
  destruct (Hf a (Hret a eq_refl) (h ++ new)) as (new' & Hh' & Hnew' & Hret').
  exists (new ++ new'). rewrite Hh', app_assoc.
  split_and!; [done|by apply Forall_app|done].
Qed.

Lemma emits_weaken (R R' : A → Prop) (m : M A) :
  emits P R m → (∀ a, R a → R' a) → emits P R' m.
Proof.
  intros Hm HR h. destruct (Hm h) as (new & Hh & Hnew & Hret).
  exists new. split_and!; auto.
Qed.

Lemma emits_spawn gateway argv input :
  (∀ c, mapM id argv = Some c → P (Call c input)) →
  emits P (λ _, True) (spawn gateway argv input).
Proof.
  intros Hc h. unfold spawn. destruct (mapM id argv) as [c|]; simpl.
  - exists [Call c input]. split_and!; [done|auto|done].
  - exists []. rewrite app_nil_r. split_and!; [done|constructor|done].
Qed.

End Emits.

Lemma emits_when (P : call → Prop) (c : bool) (body : M unit) :
  emits P (λ _, True) body → emits P (λ _, True) (when c body).
Proof. destruct c; simpl; [done|]. intros _. by apply emits_ret. Qed.

Lemma mapM_id_Some {X : Type} (l : list X) : mapM id (Some <$> l) = Some l.
Proof.
  induction l as [|x l IH]; [done|].
  change (mapM id (Some <$> l) ≫= (λ k, Some (x :: k)) = Some (x :: l)).
  by rewrite IH.
Qed.

Lemma query_not_mutating c : is_query c = true → is_mutating c = false.
Proof.
  unfold is_query, is_mutating. destruct (subcommand c) as [|a l]; [done|].
  intros H.
  repeat match type of H with
         | context [String.eqb] => fail
         | (match ?x with _ => _ end) = true => destruct x; try discriminate H
         | (if ?x then _ else _) = true => destruct x; try discriminate H
         end; reflexivity.
Qed.

(** Steps of a proof that a computation only issues commands of one kind. *)
Ltac emits_step :=
  lazymatch goal with
  | |- emits _ _ (M_bind (exit_json _ _) _) =>
      apply emits_bind with (R := λ _, False); [apply emits_exit | intros ? []]
  | |- emits _ _ (M_bind (fail_json _ _) _) =>
      apply emits_bind with (R := λ _, False); [apply emits_fail | intros ? []]
  | |- emits _ _ (M_bind (when true ?b) _) => change (when true b) with b
  | |- emits _ _ (M_bind _ _) =>
      apply emits_bind with (R := λ _, True); [ | intros ? _ ]
  | |- emits _ _ (when _ _) => apply emits_when
  | |- emits _ _ (exit_json _ _) => apply emits_exit
  | |- emits _ _ (fail_json _ _) => apply emits_fail
  | |- emits _ _ (lift _) => apply emits_lift; first [done | by intros ? [=]]
  | |- emits _ _ (M_ret _) => apply emits_ret; done
  | |- emits _ _ (if ?c then _ else _) => destruct c eqn:?
  | |- emits _ _ (match ?x with _ => _ end) => destruct x eqn:?
  end.

(** ** Commands of the profile module *)

Section ProfileCommands.

Import IncusProfile.

Context (gateway : list call → call → reply).
Context (yaml_safe_load : string → loaded).
Context (yaml_dump : doc → string).
Context (read_file : string → file_status).
Context (py_repr : pyval → string).

Implicit Types (p : params) (h : list call).

Lemma run_incus_eq p args h :
  run_incus gateway p args h =
    (h ++ [Call (incus_cmd p args) None],
     Ret (gateway h (Call (incus_cmd p args) None))).
Proof.
  unfold run_incus, incus_cmd, spawn.
  destruct (project p) as [s|]; simpl.
  - destruct (negb (String.eqb s "")); simpl; by rewrite mapM_id_Some.
  - by rewrite mapM_id_Some.
Qed.

Lemma run_incus_input_eq p args input h :
  run_incus_input gateway p args input h =
    (h ++ [Call (incus_cmd p args) (Some input)],
     Ret (gateway h (Call (incus_cmd p args) (Some input)))).
Proof.
  unfold run_incus_input, incus_cmd, spawn.
  destruct (project p) as [s|]; simpl.
  - destruct (negb (String.eqb s "")); simpl; by rewrite mapM_id_Some.
  - by rewrite mapM_id_Some.
Qed.

(** What follows the program name and the project flag is the argument list,
    as long as that list does not itself start with the project flag. *)
Lemma subcommand_incus_cmd p a args input :
  String.eqb a "--project" = false →
  subcommand (Call (incus_cmd p (a :: args)) input) = a :: args.
Proof.
  intros Ha. unfold subcommand, incus_cmd. simpl.
  destruct (str_truthy (project p)); simpl; [done|].
  rewrite Ha. by destruct args.
Qed.

Lemma emits_run_incus (P : call → Prop) p args :
  P (Call (incus_cmd p args) None) → emits P (λ _, True) (run_incus gateway p args).
Proof.
  intros HP h. rewrite run_incus_eq. simpl. eexists; split_and!; [done|auto|done].
Qed.

Lemma emits_run_incus_input (P : call → Prop) p args input :
  P (Call (incus_cmd p args) (Some input)) →
  emits P (λ _, True) (run_incus_input gateway p args input).
Proof.
  intros HP h. rewrite run_incus_input_eq. simpl. eexists; split_and!; [done|auto|done].
Qed.

(** The state reader of the profile module always returns a value. *)
Lemma get_profile_returns p h :
  ∃ v, get_profile gateway yaml_safe_load p h =
         (h ++ [Call (incus_cmd p ["profile"; "show"; target p]) None], Ret v).
Proof.
  unfold get_profile, M_bind. rewrite run_incus_eq.
  destruct (rc _ =? 0); [|by eexists].
  destruct (yaml_safe_load _); by eexists.
Qed.

Section Kind.

(** A property of commands that depends on the sub-command only and holds of
    the four sub-commands the module uses. *)
Context (P : call → Prop).
Context (P_show : ∀ p input, P (Call (incus_cmd p ["profile"; "show"; target p]) input)).
Context (P_create : ∀ p input, P (Call (incus_cmd p ["profile"; "create"; target p]) input)).
Context (P_edit : ∀ p input, P (Call (incus_cmd p ["profile"; "edit"; target p]) input)).
Context (P_delete : ∀ p input, P (Call (incus_cmd p ["profile"; "delete"; target p]) input)).

Lemma emits_get_profile p :
  emits P (λ _, True) (get_profile gateway yaml_safe_load p).
Proof.
  unfold get_profile. emits_step; [by apply emits_run_incus|].
  repeat emits_step.
Qed.

Lemma emits_update p new_create :
  emits P (λ _, False)
    (update gateway yaml_safe_load yaml_dump read_file py_repr p new_create).
Proof.
  unfold update. emits_step; [apply emits_get_profile|].
  do 10 emits_step; try (repeat emits_step; fail).
  emits_step; [by apply emits_run_incus_input|].
  repeat emits_step.
Qed.

Lemma emits_create p :
  emits P (λ _, False)
    (create gateway yaml_safe_load yaml_dump read_file py_repr p).
Proof.
  unfold create. emits_step; [by apply emits_run_incus|].
  emits_step; [repeat emits_step|]. apply emits_update.
Qed.

Lemma emits_delete p : emits P (λ _, False) (delete gateway p).
Proof.
  unfold delete. emits_step; [repeat emits_step|].
  emits_step; [by apply emits_run_incus|].
  repeat emits_step.
Qed.

Lemma emits_run p :
  emits P (λ _, False) (run gateway yaml_safe_load yaml_dump read_file py_repr p).
Proof.
  unfold run. emits_step; [apply emits_get_profile|].
  destruct (state p); emits_step;
    auto using emits_update, emits_delete, emits_exit.
  emits_step; [repeat emits_step|]. apply emits_create.
Qed.

End Kind.

End ProfileCommands.

(** ** Commands of the volume module *)

Lemma mapM_id_cons {X : Type} (a : X) (rest : list (option X)) (l : list X) :
  mapM id (Some a :: rest) = Some l → ∃ l', l = a :: l' ∧ mapM id rest = Some l'.
Proof.
  change (mapM id (Some a :: rest)) with (mapM id rest ≫= (λ k, Some (a :: k))).
  destruct (mapM id rest) as [l'|]; simpl; [|done].
  intros [= <-]. eauto.
Qed.

Section VolumeCommands.

Import IncusStorageVolume.

Context (gateway : list call → call → reply).
Context (yaml_safe_load : string → decoded).
Context (py_repr : pyval → string).

Implicit Types (p : params) (h : list call).

Lemma volume_run_incus_some p args l h :
  mapM id args = Some l →
  run_incus gateway p args h =
    (h ++ [Call (incus_cmd p l) None], Ret (gateway h (Call (incus_cmd p l) None))).
Proof.
  intros Hl. unfold run_incus, incus_cmd, spawn.
  destruct (project p) as [s|]; simpl.
  - destruct (negb (String.eqb s "")); simpl.
    + change (mapM id (Some "incus" :: Some "--project" :: Some s :: args))
        with (mapM id args ≫= (λ k, Some ("incus" :: "--project" :: s :: k))).
      by rewrite Hl.
    + change (mapM id (Some "incus" :: args))
        with (mapM id args ≫= (λ k, Some ("incus" :: k))).
      by rewrite Hl.
  - change (mapM id (Some "incus" :: args))
      with (mapM id args ≫= (λ k, Some ("incus" :: k))).
    by rewrite Hl.
Qed.

Lemma volume_run_incus_none p args h :
  mapM id args = None → run_incus gateway p args h = (h, Raise TypeError).
Proof.
  intros Hl. unfold run_incus, spawn.
  destruct (project p) as [s|]; simpl.
  - destruct (negb (String.eqb s "")); simpl.
    + change (mapM id (Some "incus" :: Some "--project" :: Some s :: args))
        with (mapM id args ≫= (λ k, Some ("incus" :: "--project" :: s :: k))).
      by rewrite Hl.
    + change (mapM id (Some "incus" :: args))
        with (mapM id args ≫= (λ k, Some ("incus" :: k))).
      by rewrite Hl.
  - change (mapM id (Some "incus" :: args))
      with (mapM id args ≫= (λ k, Some ("incus" :: k))).
    by rewrite Hl.
Qed.

Lemma volume_subcommand_incus_cmd p a args input :
  String.eqb a "--project" = false →
  subcommand (Call (incus_cmd p (a :: args)) input) = a :: args.
Proof.
  intros Ha. unfold subcommand, incus_cmd. simpl.
  destruct (str_truthy (project p)); simpl; [done|].
  rewrite Ha. by destruct args.
Qed.

Lemma emits_volume_run_incus (P : call → Prop) p args :
  (∀ l, mapM id args = Some l → P (Call (incus_cmd p l) None)) →
  emits P (λ _, True) (run_incus gateway p args).
Proof.
  intros HP h. destruct (mapM id args) as [l|] eqn:Hl.
  - rewrite (volume_run_incus_some p args l) by done. simpl.
    eexists; split_and!; [done|auto|done].
  - rewrite volume_run_incus_none by done. simpl.
    exists []. rewrite app_nil_r. split_and!; [done|constructor|done].
Qed.

Lemma harmless_query c : is_query c = true → harmless c.
Proof. intros H. split; [done|]. by apply query_not_mutating. Qed.

Lemma harmless_volume_show p rest l :
  mapM id (Some "storage" :: Some "volume" :: Some "show" :: rest) = Some l →
  harmless (Call (incus_cmd p l) None).
Proof.
  intros Hl. do 3 apply mapM_id_cons in Hl as (? & -> & Hl).
  apply harmless_query. unfold is_query.
  by rewrite volume_subcommand_incus_cmd.
Qed.

Lemma harmless_config_show p rest l :
  mapM id (Some "config" :: Some "show" :: rest) = Some l →
  harmless (Call (incus_cmd p l) None).
Proof.
  intros Hl. do 2 apply mapM_id_cons in Hl as (? & -> & Hl).
  apply harmless_query. unfold is_query.
  by rewrite volume_subcommand_incus_cmd.
Qed.

Lemma harmless_config_device_list p rest l :
  mapM id (Some "config" :: Some "device" :: Some "list" :: rest) = Some l →
  harmless (Call (incus_cmd p l) None).
Proof.
  intros Hl. do 3 apply mapM_id_cons in Hl as (? & -> & Hl).
  apply harmless_query. unfold is_query.
  by rewrite volume_subcommand_incus_cmd.
Qed.

Lemma emits_get_volume_info p :
  emits harmless (λ _, True) (get_volume_info gateway yaml_safe_load p).
Proof.
  unfold get_volume_info.
  emits_step; [apply emits_volume_run_incus, harmless_volume_show|].
  repeat emits_step.
Qed.

Lemma emits_snapshot_exists p :
  emits harmless (λ _, True) (snapshot_exists gateway p).
Proof.
  unfold snapshot_exists.
  emits_step; [apply emits_volume_run_incus, harmless_volume_show|].
  repeat emits_step.
Qed.

Lemma emits_check_if_attached p :
  emits harmless (λ _, True) (check_if_attached gateway yaml_safe_load p).
Proof.
  unfold check_if_attached.
  emits_step; [apply emits_volume_run_incus, harmless_config_device_list|].
  emits_step; [apply emits_volume_run_incus, harmless_config_show|].
  repeat emits_step.
Qed.

Section DryRun.

Context (p : params) (Hdry : check_mode p = true).

Lemma dry_attach_volume : emits harmless (λ _, True) (attach_volume gateway p).
Proof. unfold attach_volume. rewrite Hdry. by apply emits_ret. Qed.

Lemma dry_create : emits harmless (λ _, False) (create gateway py_repr p).
Proof.
  unfold create. rewrite Hdry.
  emits_step.
  - emits_step. emits_step; [apply emits_snapshot_exists|].
    emits_step; [repeat emits_step|]. repeat emits_step.
  - repeat emits_step.
Qed.

Lemma dry_update_loop current_config items : ∀ acc,
  emits harmless (λ _, True) (update_loop gateway py_repr p current_config items acc).
Proof.
  induction items as [|[k v] items IH]; intros acc; simpl.
  - by apply emits_ret.
  - emits_step; [|apply IH].
    unfold update_item. rewrite Hdry. cbn [negb when].
    repeat emits_step.
Qed.

Lemma dry_update current_info :
  emits harmless (λ _, False) (update gateway yaml_safe_load py_repr p current_info).
Proof.
  unfold update.
  emits_step.
  { emits_step; [|by apply emits_ret]. emits_step; [emits_step|].
    apply dry_update_loop. }
  emits_step.
  { emits_step; [|by apply emits_ret].
    emits_step; [apply emits_check_if_attached|].
    emits_step; [|by apply emits_ret].
    emits_step; [apply dry_attach_volume|]. by apply emits_ret. }
  repeat emits_step.
Qed.

Lemma dry_delete : emits harmless (λ _, False) (delete gateway p).
Proof.
  unfold delete. rewrite Hdry.
  emits_step.
  - emits_step. emits_step; [apply emits_snapshot_exists|].
    emits_step; [repeat emits_step|]. repeat emits_step.
  - repeat emits_step.
Qed.

Lemma dry_restore : emits harmless (λ _, False) (restore gateway p).
Proof.
  unfold restore. rewrite Hdry.
  emits_step; [repeat emits_step|].
  emits_step; [apply emits_snapshot_exists|].
  emits_step; [repeat emits_step|]. repeat emits_step.
Qed.

Lemma dry_export_volume : emits harmless (λ _, False) (export_volume gateway p).
Proof.
  unfold export_volume. rewrite Hdry.
  emits_step; [repeat emits_step|]. repeat emits_step.
Qed.

Lemma dry_import_volume : emits harmless (λ _, False) (import_volume gateway p).
Proof.
  unfold import_volume. rewrite Hdry.
  emits_step; [repeat emits_step|]. repeat emits_step.
Qed.

Lemma dry_copy_move : emits harmless (λ _, False) (copy_move gateway p).
Proof.
  unfold copy_move. rewrite Hdry.
  emits_step; [repeat emits_step|].
  emits_step; [repeat emits_step|]. repeat emits_step.
Qed.

Lemma dry_run : emits harmless (λ _, False) (run gateway yaml_safe_load py_repr p).
Proof.
  unfold run. destruct (state p) eqn:Hstate; simpl;
    try apply dry_import_volume;
    (emits_step; [apply emits_get_volume_info|]).
  - repeat emits_step; auto using dry_create, dry_update.
  - repeat emits_step; auto using dry_delete.
  - apply dry_restore.
  - apply dry_export_volume.
  - emits_step; [repeat emits_step|]. apply dry_copy_move.
Qed.

End DryRun.

End VolumeCommands.

(** ** Dry runs and the [rename_from] parameter *)

Section ProfileDryRun.

Import IncusProfile.

Context (gateway : list call → call → reply).
Context (yaml_safe_load : string → loaded).
Context (yaml_dump : doc → string).
Context (read_file : string → file_status).
Context (py_repr : pyval → string).
Context (p : params) (Hdry : check_mode p = true).

Lemma harmless_profile_show input :
  harmless (Call (incus_cmd p ["profile"; "show"; target p]) input).
Proof.
  apply harmless_query. unfold is_query. by rewrite subcommand_incus_cmd.
Qed.

Lemma dry_get_profile :
  emits harmless (λ _, True) (get_profile gateway yaml_safe_load p).
Proof.
  unfold get_profile.
  emits_step; [apply emits_run_incus, harmless_profile_show|].
  repeat emits_step.
Qed.

Lemma dry_profile_update new_create :
  emits harmless (λ _, False)
    (update gateway yaml_safe_load yaml_dump read_file py_repr p new_create).
Proof.
  unfold update. rewrite Hdry.
  emits_step; [apply dry_get_profile|].
  repeat emits_step.
Qed.

Lemma dry_profile_delete : emits harmless (λ _, False) (delete gateway p).
Proof. unfold delete. rewrite Hdry. repeat emits_step. Qed.

Lemma dry_profile_run :
  emits harmless (λ _, False)
    (run gateway yaml_safe_load yaml_dump read_file py_repr p).
Proof.
  unfold run. rewrite Hdry.
  emits_step; [apply dry_get_profile|].
  destruct (state p); emits_step;
    auto using dry_profile_update, dry_profile_delete, emits_exit.
  repeat emits_step.
Qed.

End ProfileDryRun.

Lemma emits_ended {A : Type} (P : call → Prop) (m : M A) h :
  emits P (λ _, False) m →
  ∃ new, (m h).1 = h ++ new ∧ Forall P new ∧ ended (m h).2.
Proof.
  intros Hm. destruct (Hm h) as (new & Hh & Hnew & Hret).
  exists new. split_and!; [done|done|].
  destruct (m h).2 as [a| | |]; simpl; [by apply (Hret a)|done..].
Qed.

(** C2, in the form that holds of the code. Dry-run purity.  Under check mode, in every mode of the
    profile module and of the volume module, every command the run issues is a
    read-only query and none is a mutating command; the run ends by
    [exit_json] (would-change or no-change), by [fail_json] or by an
    exception, never by falling through. *)
Theorem check_mode_issues_no_mutating_command :
  (∀ gateway yaml_safe_load yaml_dump read_file py_repr (p : IncusProfile.params) h,
     IncusProfile.check_mode p = true →
     ∃ new,
       (IncusProfile.run gateway yaml_safe_load yaml_dump read_file py_repr p h).1
         = h ++ new ∧
       Forall (λ c, is_query c = true ∧ is_mutating c = false) new ∧
       ended (IncusProfile.run gateway yaml_safe_load yaml_dump read_file py_repr p h).2) ∧
  (∀ gateway yaml_safe_load py_repr (p : IncusStorageVolume.params) h,
     IncusStorageVolume.check_mode p = true →
     ∃ new,
       (IncusStorageVolume.run gateway yaml_safe_load py_repr p h).1 = h ++ new ∧
       Forall (λ c, is_query c = true ∧ is_mutating c = false) new ∧
       ended (IncusStorageVolume.run gateway yaml_safe_load py_repr p h).2).
Proof.
  split.
  - intros gateway yaml_safe_load yaml_dump read_file py_repr p h Hdry.
    by apply (emits_ended harmless), dry_profile_run.
  - intros gateway yaml_safe_load py_repr p h Hdry.
    by apply (emits_ended harmless), dry_run.
Qed.

(** C10. The [rename_from] parameter has no effect.  Two runs of the profile
    module whose parameters differ only in [rename_from] issue the same
    commands and end the same way, and no command a run issues is a profile
    rename. *)
Theorem rename_from_has_no_effect
    gateway yaml_safe_load yaml_dump read_file py_repr
    (p : IncusProfile.params) (r1 r2 : option string) (h : list call) :
  IncusProfile.run gateway yaml_safe_load yaml_dump read_file py_repr
    (IncusProfile.with_rename_from r1 p) h
  = IncusProfile.run gateway yaml_safe_load yaml_dump read_file py_repr
      (IncusProfile.with_rename_from r2 p) h
  ∧ ∃ new,
      (IncusProfile.run gateway yaml_safe_load yaml_dump read_file py_repr
         (IncusProfile.with_rename_from r1 p) h).1 = h ++ new ∧
      Forall (λ c, is_rename c = false) new.
Proof.
  split; [reflexivity|].
  destruct (emits_run gateway yaml_safe_load yaml_dump read_file py_repr
              (λ c, is_rename c = false)) with
    (p := IncusProfile.with_rename_from r1 p) (h := h) as (new & Hh & Hnew & _);
    try (intros q input; unfold is_rename; by rewrite subcommand_incus_cmd).
  eauto.
Qed.

(** ** The volume dispatcher *)

Section VolumeDispatch.

Import IncusStorageVolume.

Context (gateway : list call → call → reply).
Context (yaml_safe_load : string → decoded).
Context (py_repr : pyval → string).

Implicit Types (p : params) (h : list call).

Lemma get_volume_info_eq p n h :
  name p = Some n →
  get_volume_info gateway yaml_safe_load p h =
    let c := Call (incus_cmd p ["storage"; "volume"; "show"; qualified_pool p; n]) None in
    (h ++ [c],
     if rc (gateway h c) =? 0 then
       match yaml_safe_load (out (gateway h c)) with
       | Decoded v => Ret v
       | DecodeError msg => Raise (YAMLError msg)
       end
     else Ret PNone).
Proof.
  intros Hn. unfold get_volume_info, M_bind.
  rewrite (volume_run_incus_some _ _ _ ["storage"; "volume"; "show"; qualified_pool p; n])
    by (by rewrite Hn).
  simpl. destruct (rc _ =? 0); [|done]. by destruct (yaml_safe_load _).
Qed.

(** When the state reader returns, it has issued the one query. *)
Lemma get_volume_info_returns p h h1 info :
  get_volume_info gateway yaml_safe_load p h = (h1, Ret info) →
  ∃ n, name p = Some n ∧
       h1 = h ++ [Call (incus_cmd p ["storage"; "volume"; "show"; qualified_pool p; n]) None].
Proof.
  destruct (name p) as [n|] eqn:Hn.
  - rewrite (get_volume_info_eq p n) by done. simpl. intros [= <- _]. eauto.
  - unfold get_volume_info, M_bind.
    rewrite volume_run_incus_none by (by rewrite Hn). done.
Qed.

Lemma snapshot_exists_eq p h :
  snapshot_exists gateway p h =
    let c := Call (incus_cmd p ["storage"; "volume"; "show"; qualified_pool p;
                                fmt_opt (name p) +:+ "/" +:+ fmt_opt (snapshot p)]) None in
    (h ++ [c], Ret (rc (gateway h c) =? 0)).
Proof.
  unfold snapshot_exists, M_bind.
  by rewrite (volume_run_incus_some _ _ _
                ["storage"; "volume"; "show"; qualified_pool p;
                 fmt_opt (name p) +:+ "/" +:+ fmt_opt (snapshot p)]).
Qed.

Lemma is_query_volume_show p rest input :
  is_query (Call (incus_cmd p ("storage" :: "volume" :: "show" :: rest)) input) = true.
Proof. unfold is_query. by rewrite volume_subcommand_incus_cmd. Qed.

(** C3, in the form that holds of the code. Mode [present] with a snapshot name, on a volume the state
    reader reports as absent: the run fails with the message that the volume
    does not exist; the only command issued is the read-only state query, so
    nothing is created. *)
Theorem present_snapshot_of_missing_volume_fails p h h1 info :
  state p = Present →
  str_truthy (snapshot p) = true →
  get_volume_info gateway yaml_safe_load p h = (h1, Ret info) →
  truthy info = false →
  run gateway yaml_safe_load py_repr p h =
    (h1, FailJson ("Volume '" +:+ fmt_opt (name p) +:+ "' does not exist") None) ∧
  ∃ c, h1 = h ++ [c] ∧ is_query c = true ∧ is_mutating c = false.
Proof.
  intros Hstate Hsnap Hinfo Hfalsy. split.
  - unfold run. rewrite Hstate. cbn [is_imported]. unfold M_bind at 1.
    rewrite Hinfo. by rewrite Hfalsy, Hsnap.
  - apply get_volume_info_returns in Hinfo as (n & _ & ->).
    eexists; split; [done|]. apply harmless_query, is_query_volume_show.
Qed.

(** C5, in the form that holds of the code. Mode [restored] without a snapshot name: once the state
    reader has returned, the run fails with the validation message; the only
    command issued is the read-only state query that precedes the dispatch. *)
Theorem restored_without_snapshot_fails_after_state_query p h h1 info :
  state p = Restored →
  str_truthy (snapshot p) = false →
  get_volume_info gateway yaml_safe_load p h = (h1, Ret info) →
  run gateway yaml_safe_load py_repr p h =
    (h1, FailJson "'snapshot' is required for state=restored" None) ∧
  ∃ c, h1 = h ++ [c] ∧ is_query c = true ∧ is_mutating c = false.
Proof.
  intros Hstate Hsnap Hinfo. split.
  - unfold run. rewrite Hstate. cbn [is_imported]. unfold M_bind at 1.
    rewrite Hinfo. unfold restore, M_bind. by rewrite Hsnap.
  - apply get_volume_info_returns in Hinfo as (n & _ & ->).
    eexists; split; [done|]. apply harmless_query, is_query_volume_show.
Qed.

(** C6. The state reader of the volume module lets a decoding failure escape:
    when the query exits with status 0 and its output does not decode, the
    reader raises instead of reporting the volume as absent. *)
Theorem volume_state_reader_raises_on_decode_failure p h n msg :
  name p = Some n →
  rc (gateway h (Call (incus_cmd p ["storage"; "volume"; "show"; qualified_pool p; n]) None))
    = 0 →
  yaml_safe_load
    (out (gateway h (Call (incus_cmd p ["storage"; "volume"; "show"; qualified_pool p; n])
                       None)))
    = DecodeError msg →
  get_volume_info gateway yaml_safe_load p h =
    (h ++ [Call (incus_cmd p ["storage"; "volume"; "show"; qualified_pool p; n]) None],
     Raise (YAMLError msg)).
Proof.
  intros Hn Hrc Hload. rewrite (get_volume_info_eq p n) by done. simpl.
  by rewrite Hrc, Hload.
Qed.

(** A failed query is read as an absent volume. *)
Lemma volume_state_reader_absent_on_failed_query p h n :
  name p = Some n →
  rc (gateway h (Call (incus_cmd p ["storage"; "volume"; "show"; qualified_pool p; n]) None))
    ≠ 0 →
  get_volume_info gateway yaml_safe_load p h =
    (h ++ [Call (incus_cmd p ["storage"; "volume"; "show"; qualified_pool p; n]) None],
     Ret PNone).
Proof.
  intros Hn Hrc. rewrite (get_volume_info_eq p n) by done. simpl.
  apply Z.eqb_neq in Hrc. by rewrite Hrc.
Qed.

End VolumeDispatch.

(** The state reader of the profile module reads both a failed query and an
    output that does not decode as an absent profile. *)
Lemma profile_state_reader_absent gateway (yaml_safe_load : string → loaded)
    (p : IncusProfile.params) h :
  let c := Call (IncusProfile.incus_cmd p ["profile"; "show"; IncusProfile.target p]) None in
  rc (gateway h c) ≠ 0 ∨ (∃ msg, yaml_safe_load (out (gateway h c)) = LoadError msg) →
  IncusProfile.get_profile gateway yaml_safe_load p h = (h ++ [c], Ret DNone).
Proof.
  intros c Hc. unfold IncusProfile.get_profile, M_bind. rewrite run_incus_eq.
  fold c. destruct Hc as [Hrc|[msg Hload]].
  - apply Z.eqb_neq in Hrc. by rewrite Hrc.
  - rewrite Hload. by destruct (rc _ =? 0).
Qed.

Section VolumeHandlers.

Import IncusStorageVolume.

Context (gateway : list call → call → reply).
Context (yaml_safe_load : string → decoded).
Context (py_repr : pyval → string).

Implicit Types (p : params) (h : list call).

Lemma is_snapshot_create_show p rest input :
  is_snapshot_create
    (Call (incus_cmd p ("storage" :: "volume" :: "show" :: rest)) input) = false.
Proof. unfold is_snapshot_create. by rewrite volume_subcommand_incus_cmd. Qed.

(** C8, in the form that holds of the code. Snapshot creation, that is mode [present] with a snapshot
    name on a volume the state reader reports as existing.  The run issues the
    two read-only queries (volume, snapshot), neither of which is a snapshot
    creation.  If the snapshot exists the run ends there with no change.
    Otherwise, under check mode it ends there reporting that the snapshot
    would be created; outside check mode it issues exactly one
    snapshot-creation command and reports a change when that command exits
    with status 0, a failure when it does not. *)
Theorem snapshot_create_is_idempotent p h h1 h2 info ex :
  state p = Present →
  str_truthy (snapshot p) = true →
  get_volume_info gateway yaml_safe_load p h = (h1, Ret info) →
  truthy info = true →
  snapshot_exists gateway p h1 = (h2, Ret ex) →
  let create_call :=
    Call (incus_cmd p ["storage"; "volume"; "snapshot"; "create"; qualified_pool p;
                       fmt_opt (name p); fmt_opt (snapshot p)]) None in
  let r := gateway h2 create_call in
  (∃ c1 c2, h2 = h ++ [c1; c2] ∧
            is_snapshot_create c1 = false ∧ is_snapshot_create c2 = false) ∧
  is_snapshot_create create_call = true ∧
  run gateway yaml_safe_load py_repr p h =
    if ex then (h2, ExitJson false "Snapshot already exists")
    else if check_mode p then (h2, ExitJson true "Snapshot would be created")
    else (h2 ++ [create_call],
          if rc r =? 0 then ExitJson true "Snapshot created"
          else FailJson ("Failed to create snapshot: " +:+ err r) (Some (out r, err r))).
Proof.
  intros Hstate Hsnap Hinfo Htruthy Hex create_call r. split_and!.
  - apply get_volume_info_returns in Hinfo as (n & _ & ->).
    rewrite snapshot_exists_eq in Hex. simpl in Hex. injection Hex as <- _.
    rewrite <- app_assoc. simpl.
    eexists _, _; split_and!; [done|apply is_snapshot_create_show..].
  - unfold is_snapshot_create, create_call. by rewrite volume_subcommand_incus_cmd.
  - unfold run. rewrite Hstate. cbn [is_imported]. unfold M_bind at 1.
    rewrite Hinfo, Htruthy, Hsnap. cbn [negb andb].
    unfold create. rewrite Hsnap. cbn [when]. unfold M_bind at 1 2.
    rewrite Hex. destruct ex; [done|]. cbn [when]. unfold M_ret.
    destruct (check_mode p); [done|]. cbn [when]. unfold M_bind, M_ret.
    apply get_volume_info_returns in Hinfo as (n & Hn & _).
    destruct (snapshot p) as [s|] eqn:Hs; [|done].
    rewrite (volume_run_incus_some _ _ _
               ["storage"; "volume"; "snapshot"; "create"; qualified_pool p; n; s])
      by (by rewrite Hn).
    subst r create_call. rewrite Hn. simpl.
    by destruct (rc _ =? 0).
Qed.





(** Without an attach target, [update] is its loop followed by the report. *)
Lemma update_without_attach p info c h :
  str_truthy (attach_to p) = false →
  default (PDict []) (dict_get "config" info) = PDict c →
  update gateway yaml_safe_load py_repr p (PDict info) h =
    match update_loop gateway py_repr p (PDict c) (default [] (config p)) (false, []) h with
    | (h1, Ret acc) =>
        (h1, if acc.1 then ExitJson true (String.concat ", " acc.2)
             else ExitJson false "Storage volume matches configuration")
    | (h1, ExitJson changed msg) => (h1, ExitJson changed msg)
    | (h1, FailJson msg io) => (h1, FailJson msg io)
    | (h1, Raise e) => (h1, Raise e)
    end.
Proof.
  intros Hattach Hc. unfold update. rewrite Hattach.
  destruct (items_truthy (config p)) eqn:Hitems.
  - unfold M_bind, lift, M_ret. simpl. rewrite Hc.
    destruct (update_loop _ _ _ _ _ _ _) as [h1 [[changed msgs]| | |]]; try done.
    by destruct changed.
  - assert (default [] (config p) = []) as ->
      by (destruct (config p) as [[|]|]; simpl in *; done).
    done.
Qed.


(** C9. The attach command.  The argument list is the six fixed arguments,
    then the device name or nothing, then the mount path or nothing.  The
    device name is left out exactly when it equals the volume name and no
    mount path follows; the mount path is there exactly when an attach path
    is given, the volume type is [filesystem] and the content type is not
    [iso].  Outside check mode, [attach_volume] issues the command with these
    arguments. *)
Theorem attach_command_arguments p h l :
  check_mode p = false →
  mapM id (attach_cmd_args p) = Some l →
  (attach_volume gateway p h).1 = h ++ [Call (incus_cmd p l) None] ∧
  ∃ device path,
    attach_cmd_args p =
      [Some "storage"; Some "volume"; Some "attach"; Some (qualified_pool p);
       name p; attach_to p] ++ device ++ path ∧
    (device = [] ∨ device = [attach_device p]) ∧
    (path = [] ∨ path = [attach_path p]) ∧
    (device = [] ↔ attach_device p = name p ∧ path = []) ∧
    (path ≠ [] ↔ str_truthy (attach_path p) = true ∧ type p = Filesystem ∧
                 content_type p ≠ Some ContentIso).
Proof.
  intros Hwet Hl. split.
  - unfold attach_volume. rewrite Hwet. unfold M_bind.
    rewrite (volume_run_incus_some _ _ _ l) by done.
    destruct (rc _ =? 0); simpl; [done|].
    unfold join_args. by rewrite Hl.
  - exists (if negb (use_default_device_name p) || has_path p then [attach_device p] else []),
           (if has_path p then [attach_path p] else []).
    assert (Heq : use_default_device_name p = true ↔ attach_device p = name p).
    { unfold use_default_device_name, opt_eqb.
      destruct (attach_device p) as [a|], (name p) as [b|]; try (split; congruence).
      rewrite String.eqb_eq. split; congruence. }
    assert (Hpath : has_path p = true ↔
                    str_truthy (attach_path p) = true ∧ type p = Filesystem ∧
                    content_type p ≠ Some ContentIso).
    { unfold has_path. rewrite !andb_true_iff, negb_true_iff.
      destruct (type p); simpl; destruct (content_type p) as [[]|]; simpl;
        intuition congruence. }
    split_and!.
    + done.
    + destruct (_ || _); auto.
    + destruct (has_path p); auto.
    + destruct (use_default_device_name p), (has_path p); simpl;
        split; try done; intuition congruence.
    + destruct (has_path p); simpl; split; try done; intuition congruence.
Qed.

End VolumeHandlers.

(** ** The theorems on concrete runs *)

Section ConcreteRuns.

Import IncusStorageVolume.

(** A dry run that ends in a failure, not in a would-change or no-change
    outcome: mode [restored] without a snapshot name. *)
Lemma dry_run_can_end_in_failure :
  check_mode (volume_params Restored None true) = true ∧
  run gateway_down toy_safe_load plain_repr (volume_params Restored None true) []
    = ([show_data], FailJson "'snapshot' is required for state=restored" None) ∧
  ¬ ∃ changed msg,
      (run gateway_down toy_safe_load plain_repr (volume_params Restored None true) []).2
        = ExitJson changed msg.
Proof. split_and!; [reflexivity..|]. by intros (changed & msg & [=]). Qed.

Lemma check_mode_issues_no_mutating_command_witness :
  (IncusProfile.check_mode dry_profile_params = true ∧
   ∃ new,
     (IncusProfile.run gateway_down (load_unshared toy_safe_load) toy_dump no_file plain_repr
        dry_profile_params []).1 = [] ++ new ∧
     Forall (λ c, is_query c = true ∧ is_mutating c = false) new ∧
     ended (IncusProfile.run gateway_down (load_unshared toy_safe_load) toy_dump no_file plain_repr
              dry_profile_params []).2) ∧
  (check_mode (volume_params Present (Some "s1") true) = true ∧
   ∃ new,
     (run gateway_one_volume toy_safe_load plain_repr
        (volume_params Present (Some "s1") true) []).1 = [] ++ new ∧
     Forall (λ c, is_query c = true ∧ is_mutating c = false) new ∧
     ended (run gateway_one_volume toy_safe_load plain_repr
              (volume_params Present (Some "s1") true) []).2).
Proof.
  split; (split; [reflexivity|]).
  - apply (proj1 check_mode_issues_no_mutating_command). reflexivity.
  - apply (proj2 check_mode_issues_no_mutating_command). reflexivity.
Defined.

(** Mode [present] with a snapshot name on a missing volume: the run fails
    and creates nothing. *)
Lemma present_snapshot_of_missing_volume_is_not_a_create :
  run gateway_down toy_safe_load plain_repr (volume_params Present (Some "s1") false) []
    = ([show_data], FailJson "Volume 'data' does not exist" None) ∧
  Forall (λ c, is_mutating c = false)
    (run gateway_down toy_safe_load plain_repr
       (volume_params Present (Some "s1") false) []).1.
Proof. split; [reflexivity|]. repeat constructor. Qed.

Lemma present_snapshot_of_missing_volume_fails_witness :
  run gateway_down toy_safe_load plain_repr (volume_params Present (Some "s1") false) []
    = ([show_data], FailJson "Volume 'data' does not exist" None) ∧
  ∃ c, [show_data] = [] ++ [c] ∧ is_query c = true ∧ is_mutating c = false.
Proof.
  apply (present_snapshot_of_missing_volume_fails gateway_down toy_safe_load plain_repr
           (volume_params Present (Some "s1") false) [] [show_data] PNone);
    reflexivity.
Defined.



(** Mode [restored] without a snapshot name: a command has been issued by the
    time the run fails. *)
Lemma restored_without_snapshot_queries_first :
  run gateway_down toy_safe_load plain_repr (volume_params Restored None false) []
    = ([show_data], FailJson "'snapshot' is required for state=restored" None) ∧
  (run gateway_down toy_safe_load plain_repr (volume_params Restored None false) []).1
    ≠ [].
Proof. split; [reflexivity|discriminate]. Qed.

Lemma restored_without_snapshot_fails_after_state_query_witness :
  run gateway_down toy_safe_load plain_repr (volume_params Restored None false) []
    = ([show_data], FailJson "'snapshot' is required for state=restored" None) ∧
  ∃ c, [show_data] = [] ++ [c] ∧ is_query c = true ∧ is_mutating c = false.
Proof.
  apply (restored_without_snapshot_fails_after_state_query gateway_down toy_safe_load
           plain_repr (volume_params Restored None false) [] [show_data] PNone);
    reflexivity.
Defined.

Lemma volume_state_reader_raises_on_decode_failure_witness :
  get_volume_info (gateway_prints "{") toy_safe_load (volume_params Present None false) []
    = ([] ++ [show_data], Raise (YAMLError "could not parse")).
Proof.
  apply (volume_state_reader_raises_on_decode_failure (gateway_prints "{") toy_safe_load
           (volume_params Present None false) [] "data" "could not parse");
    reflexivity.
Defined.

(** Snapshot creation under check mode: the snapshot does not exist, and the
    run issues no snapshot-creation command. *)
Lemma dry_snapshot_create_issues_no_command :
  snapshot_exists gateway_one_volume (volume_params Present (Some "s1") true) [show_data]
    = ([show_data; show_data_s1], Ret false) ∧
  run gateway_one_volume toy_safe_load plain_repr (volume_params Present (Some "s1") true) []
    = ([show_data; show_data_s1], ExitJson true "Snapshot would be created") ∧
  length (filter (λ c, is_snapshot_create c = true)
            (run gateway_one_volume toy_safe_load plain_repr
               (volume_params Present (Some "s1") true) []).1) ≠ 1%nat.
Proof. split_and!; [reflexivity..|]. vm_compute. discriminate. Qed.

Lemma snapshot_create_is_idempotent_witness :
  (∃ c1 c2, [show_data; show_data_s1] = [] ++ [c1; c2] ∧
            is_snapshot_create c1 = false ∧ is_snapshot_create c2 = false) ∧
  is_snapshot_create
    (Call ["incus"; "--project"; "default"; "storage"; "volume"; "snapshot"; "create";
           "default"; "data"; "s1"] None) = true ∧
  run gateway_one_volume toy_safe_load plain_repr (volume_params Present (Some "s1") false) []
    = ([show_data; show_data_s1;
        Call ["incus"; "--project"; "default"; "storage"; "volume"; "snapshot"; "create";
              "default"; "data"; "s1"] None],
       FailJson "Failed to create snapshot: Error: not found"
         (Some ("", "Error: not found"))).
Proof.
  apply (snapshot_create_is_idempotent gateway_one_volume toy_safe_load plain_repr
           (volume_params Present (Some "s1") false) [] [show_data]
           [show_data; show_data_s1]
           (PDict [("config", PDict []); ("description", PStr "old")]) false);
    reflexivity.
Defined.

Lemma attach_command_arguments_witness :
  (attach_volume gateway_down attach_params []).1
    = [] ++ [Call ["incus"; "--project"; "default"; "storage"; "volume"; "attach";
                   "default"; "data"; "web"; "data"; "/mnt/data"] None] ∧
  ∃ device path,
    attach_cmd_args attach_params =
      [Some "storage"; Some "volume"; Some "attach"; Some "default"; Some "data";
       Some "web"] ++ device ++ path ∧
    (device = [] ∨ device = [Some "data"]) ∧
    (path = [] ∨ path = [Some "/mnt/data"]) ∧
    (device = [] ↔ attach_device attach_params = name attach_params ∧ path = []) ∧
    (path ≠ [] ↔ str_truthy (attach_path attach_params) = true ∧
                 type attach_params = Filesystem ∧
                 content_type attach_params ≠ Some ContentIso).
Proof.
  apply (attach_command_arguments gateway_down attach_params []
           ["storage"; "volume"; "attach"; "default"; "data"; "web"; "data"; "/mnt/data"]);
    reflexivity.
Defined.

End ConcreteRuns.

(** ** More on the desired-state builder *)

Section DictMore.

Context {A : Type}.

Implicit Types (k : string) (v : A) (d : list (string * A)).

Lemma dict_set_same k v d : dict_get k d = Some v → dict_set k v d = d.
Proof.
  induction d as [|[k' v'] d IH]; simpl; [done|].
  destruct (String.eqb k k') eqn:E.
  - apply String.eqb_eq in E. by intros [= ->]; subst.
  - intros H. by rewrite IH.
Qed.

Lemma dict_get_item k v d : NoDup d.*1 → (k, v) ∈ d → dict_get k d = Some v.
Proof.
  induction d as [|[k' v'] d IH]; simpl; intros Hnd Hin.
  - by apply elem_of_nil in Hin.
  - apply NoDup_cons in Hnd as [Hfresh Hnd].
    apply elem_of_cons in Hin as [[= <- <-]|Hin]; [by rewrite String.eqb_refl|].
    destruct (String.eqb_spec k k') as [->|_]; [|by apply IH].
    exfalso. apply Hfresh. apply list_elem_of_fmap. by exists (k', v).
Qed.

Lemma dict_set_nonempty k v d : dict_set k v d ≠ [].
Proof. destruct d as [|[k' v'] d]; simpl; [done|]. by destruct (String.eqb k k'). Qed.

End DictMore.

Section DesiredStateMore.

Import IncusProfile.

Context (yaml_safe_load : string → loaded).
Context (read_file : string → file_status).
Context (py_repr : pyval → string).

Implicit Types (p : params) (d c : list (string * doc)) (m : option nat).

Lemma dict_nonempty_get d : d ≠ [] ↔ ∃ k v, dict_get k d = Some v.
Proof.
  split.
  - destruct d as [|[k v] d]; [done|]. intros _. exists k, v. simpl.
    by rewrite String.eqb_refl.
  - intros (k & v & H) ->. done.
Qed.


(** The config loop changes nothing on a configuration that is bound under
    [config] only and already holds what every item asks for. *)
Lemma config_loop_fixed m d c items :
  dict_get "config" d = Some (DDict None c) →
  (∀ k v, (k, v) ∈ items →
     dict_get k c = if is_none v then None else Some (DStr (py_str py_repr v))) →
  for_items (merge_config_item py_repr) items (DDict m d) = Ret (DDict m d).
Proof.
  intros Hc. induction items as [|[k v] items IH]; intros Hall; [done|].
  cbn [for_items].
  assert (merge_config_item py_repr (DDict m d) (k, v) = Ret (DDict m d)) as ->.
  { unfold merge_config_item, modify_field, doc_getitem. rewrite Hc.
    cbn [outcome_bind]. rewrite contains_dict. cbn [outcome_bind].
    pose proof (Hall k v (list_elem_of_here _ _)) as Hk.
    destruct (is_none v).
    - unfold dict_has. by rewrite Hk.
    - simpl. by rewrite (dict_set_same k _ c Hk), (dict_set_same "config" _ d Hc). }
  cbn [outcome_bind]. apply IH. intros k' v' Hin. apply Hall.
  by apply list_elem_of_further.
Qed.

Lemma devices_loop_fixed m d ds items :
  dict_get "devices" d = Some (DDict None ds) →
  (∀ k v, (k, v) ∈ items → dict_get k ds = Some (doc_of v)) →
  for_items merge_device_item items (DDict m d) = Ret (DDict m d).
Proof.
  intros Hds. induction items as [|[k v] items IH]; intros Hall; [done|].
  cbn [for_items].
  assert (merge_device_item (DDict m d) (k, v) = Ret (DDict m d)) as ->.
  { unfold merge_device_item, modify_field, doc_getitem. rewrite Hds.
    cbn [outcome_bind].
    pose proof (Hall k v (list_elem_of_here _ _)) as Hk. simpl.
    by rewrite (dict_set_same k _ ds Hk), (dict_set_same "devices" _ d Hds). }
  cbn [outcome_bind]. apply IH. intros k' v' Hin. apply Hall.
  by apply list_elem_of_further.
Qed.

Lemma ensure_dict_fixed key m d mc c :
  dict_get key d = Some (DDict mc c) → ensure_dict key (DDict m d) = Ret (DDict m d).
Proof.
  intros H. unfold ensure_dict. rewrite contains_dict. unfold dict_has, doc_getitem.
  by rewrite H.
Qed.

(** Without a declaration file the base is never an empty dictionary. *)
Lemma base_state_nonempty p current m base :
  str_truthy (source p) = false →
  base_state yaml_safe_load read_file p current = Ret (DDict m base) →
  base ≠ [].
Proof.
  intros Hsrc. unfold base_state, load_source. rewrite Hsrc. simpl.
  destruct (truthy (value_of current)) eqn:Ht; simpl.
  - intros [= ->]. simpl in Ht. by destruct base.
  - by intros [= _ <-].
Qed.

(** With a declaration file the base does not depend on the current profile. *)
Lemma base_state_source p current current' :
  str_truthy (source p) = true →
  base_state yaml_safe_load read_file p current
  = base_state yaml_safe_load read_file p current'.
Proof. intros Hsrc. unfold base_state. by rewrite Hsrc. Qed.

(** X2. The builder is idempotent.  On a base of the expected shape, with
    parameter dictionaries that have one entry per key, building the desired
    state again from the desired state gives the same document, entry for
    entry.  This holds when a declaration file is given, whatever the file
    shares, and, without one, when the dictionaries the merges assign to are
    bound under their own field only. *)
Theorem desired_state_builder_is_idempotent p current m base :
  base_state yaml_safe_load read_file p current = Ret (DDict m base) →
  config p = None ∨ is_Some (field_dict "config" base) →
  devices p = None ∨ is_Some (field_dict "devices" base) →
  str_truthy (source p) = true ∧ proper (DDict m base) = true ∨
    written_mark (config p) "config" base = None ∧
    written_mark (devices p) "devices" base = None →
  (∀ items, config p = Some items → NoDup items.*1) →
  (∀ items, devices p = Some items → NoDup items.*1) →
  ∃ desired,
    get_desired_state yaml_safe_load read_file py_repr p current
      = Ret (DDict m desired) ∧
    get_desired_state yaml_safe_load read_file py_repr p (DDict m desired)
      = Ret (DDict m desired).
Proof.
  intros Hbase Hcfg Hdev [[Hsrc Hp]|[Hmc Hmv]] Hndc Hndd.
  { destruct (get_desired_state_fields yaml_safe_load read_file py_repr p current m base
                Hbase) as (desired & _ & _ & Hrun & _);
      [by apply proper_written_mark..|done|done|].
    exists desired. split; [done|]. unfold get_desired_state in *.
    by rewrite (base_state_source p (DDict m desired) current). }
  destruct (get_desired_state_fields yaml_safe_load read_file py_repr p current m base
              Hbase)
    as (desired & Tc & Tv & Hrun & HTc & HTv & Hdesc & Hc & Hd & Hrest);
    [by rewrite Hmc|by rewrite Hmv|done|done|].
  rewrite Hmc in HTc. rewrite Hmv in HTv.
  assert (HTc' : ∀ x, Tc x = x) by (intros x; by apply within_none).
  assert (HTv' : ∀ x, Tv x = x) by (intros x; by apply within_none).
  assert (Hcv : ∀ o : option doc, (Tv ∘ Tc) <$> o = o).
  { intros [x|]; [|done]. simpl. by rewrite HTc', HTv'. }
  rewrite Hcv in Hdesc.
  assert (Hrest' : ∀ k, k ≠ "description" → k ≠ "config" → k ≠ "devices" →
                        dict_get k desired = dict_get k base).
  { intros k H1 H2 H3. by rewrite Hrest, Hcv. }
  exists desired. split; [done|].
  destruct (str_truthy (source p)) eqn:Hsrc.
  { unfold get_desired_state in *.
    by rewrite (base_state_source p (DDict m desired) current). }
  assert (Hne : desired ≠ []).
  { pose proof (base_state_nonempty p current m base Hsrc Hbase) as Hb.
    apply dict_nonempty_get in Hb as (k & v & Hk). apply dict_nonempty_get.
    destruct (String.eqb_spec k "description") as [->|H1].
    { exists "description". destruct (description p); rewrite Hdesc; eauto. }
    destruct (String.eqb_spec k "config") as [->|H2].
    { exists "config".
      destruct (config p); [destruct Hc as (? & _ & ->)|rewrite Hc, Hk]; eauto. }
    destruct (String.eqb_spec k "devices") as [->|H3].
    { exists "devices".
      destruct (devices p); [destruct Hd as (? & _ & ->)|rewrite Hd, Hk]; eauto. }
    exists k, v. by rewrite Hrest'. }
  unfold get_desired_state.
  assert (base_state yaml_safe_load read_file p (DDict m desired)
          = Ret (DDict m desired)) as ->.
  { unfold base_state, load_source. rewrite Hsrc. simpl. by destruct desired. }
  cbn [outcome_bind].
  assert (merge_description p (DDict m desired) = Ret (DDict m desired)) as ->.
  { unfold merge_description. destruct (description p) as [s|]; [|done].
    simpl. by rewrite (dict_set_same _ _ _ Hdesc). }
  cbn [outcome_bind].
  assert (merge_config py_repr p (DDict m desired) = Ret (DDict m desired)) as ->.
  { unfold merge_config. destruct (config p) as [items|] eqn:Hitems; [|done].
    destruct Hc as (c0 & _ & Hget). rewrite HTv' in Hget.
    unfold written_mark in Hmc. rewrite Hmc in Hget.
    rewrite (ensure_dict_fixed _ _ _ _ _ Hget). cbn [outcome_bind].
    apply (config_loop_fixed _ _ _ _ Hget). intros k v Hin.
    rewrite patch_config_lookup by eauto.
    rewrite (dict_get_item k v items) by eauto. by destruct v. }
  cbn [outcome_bind].
  unfold merge_devices. destruct (devices p) as [items|] eqn:Hitems; [|done].
  destruct Hd as (ds0 & _ & Hget).
  unfold written_mark in Hmv. rewrite Hmv in Hget.
  rewrite (ensure_dict_fixed _ _ _ _ _ Hget). cbn [outcome_bind].
  apply (devices_loop_fixed _ _ _ _ Hget). intros k v Hin.
  rewrite patch_devices_lookup by eauto.
  by rewrite (dict_get_item k v items) by eauto.
Qed.

End DesiredStateMore.

(** ** Equality of well-formed values *)

Lemma py_eq_refl : ∀ v, well_formed v → py_eq v v = true.
Proof.
  fix IH 1. intros [| b | z | s | l | d] Hwf; simpl.
  - done.
  - apply Z.eqb_refl.
  - apply Z.eqb_refl.
  - apply String.eqb_refl.
  - simpl in Hwf. revert l Hwf. fix IHl 1. intros [|x l] Hwf; [done|].
    simpl in Hwf. destruct Hwf as [Hx Hl]. rewrite (IH x Hx). simpl. by apply IHl.
  - simpl in Hwf. destruct Hwf as [Hnd Hall]. rewrite Nat.eqb_refl. simpl.
    assert (Hin : ∀ k v, (k, v) ∈ d → dict_get k d = Some v)
      by (intros k v; by apply dict_get_item).
    clear Hnd. revert Hin Hall. generalize d at 1 3 5 as xs.
    fix IHd 1. intros [|[k x] xs] Hin Hall; [done|].
    simpl in Hall. destruct Hall as [Hx Hall].
    rewrite (Hin k x (list_elem_of_here _ _)), (IH x Hx). simpl.
    apply IHd; [|done]. intros k' v' Hin'. apply Hin. by apply list_elem_of_further.
Qed.

Lemma well_formed_get k d dflt :
  well_formed (PDict d) → well_formed dflt → well_formed (default dflt (dict_get k d)).
Proof.
  intros [_ Hall] Hdflt. induction d as [|[k' v] d IH]; simpl; [done|].
  simpl in Hall. destruct Hall as [Hv Hall].
  destruct (String.eqb k k'); [done|]. by apply IH.
Qed.

Lemma M_bind_ret_eq {A B : Type} (m : M A) (f : A → M B) h h1 a :
  m h = (h1, Ret a) → M_bind m f h = f a h1.
Proof. intros H. unfold M_bind. by rewrite H. Qed.

(** ** The profile module, run by run *)

Section ProfileRuns.

Import IncusProfile.

Context (gateway : list call → call → reply).
Context (yaml_safe_load : string → loaded).
Context (yaml_dump : doc → string).
Context (read_file : string → file_status).
Context (py_repr : pyval → string).

Implicit Types (p : params) (h : list call).

(** X3. A converged profile is left alone.  When the profile read back is a
    well-formed, non-empty dictionary and the desired state the builder makes
    of it has the same value, [update] reports that the profile matches and
    issues no command after the state query. *)
Theorem profile_update_on_converged_state p h h1 cur desired c :
  get_profile gateway yaml_safe_load p h = (h1, Ret cur) →
  value_of cur = PDict c →
  c ≠ [] →
  well_formed (PDict c) →
  get_desired_state yaml_safe_load read_file py_repr p cur = Ret desired →
  value_of desired = PDict c →
  update gateway yaml_safe_load yaml_dump read_file py_repr p false h
    = (h1, ExitJson false "Profile matches configuration").
Proof.
  intros Hget Hcur Hne Hwf Hfix Hdes. unfold update.
  rewrite (M_bind_ret_eq _ _ _ _ _ Hget). rewrite Hcur.
  assert (truthy (PDict c) = true) as -> by (by destruct c).
  cbn [negb when]. unfold M_bind, M_ret, lift. rewrite Hfix, Hdes. simpl.
  by rewrite !py_eq_refl by (by apply well_formed_get).
Qed.

(** X4. Creation submits the desired state whenever it can be built.
    Outside check mode, when [profile create] succeeds and the fresh profile
    reads back as a non-empty dictionary, [create] builds the desired state.
    When the builder returns a dictionary, [create] submits [profile edit]
    with the serialised desired state on standard input, whether or not
    anything differs, and reports "Profile updated" when the edit succeeds,
    the edit's failure otherwise.  When the builder fails (a declaration file
    that is missing or cannot be read, an exception), the run ends that way
    after the creation and the query, and no edit is issued; when it returns
    something that is no dictionary, reading its description raises
    [AttributeError]. *)
Theorem profile_create_submits_the_built_state p h h2 cur c :
  check_mode p = false →
  rc (gateway h (Call (incus_cmd p ["profile"; "create"; target p]) None)) = 0 →
  get_profile gateway yaml_safe_load p
    (h ++ [Call (incus_cmd p ["profile"; "create"; target p]) None])
    = (h2, Ret cur) →
  value_of cur = PDict c →
  c ≠ [] →
  create gateway yaml_safe_load yaml_dump read_file py_repr p h =
    match get_desired_state yaml_safe_load read_file py_repr p cur with
    | Ret desired =>
        match value_of desired with
        | PDict _ =>
            let edit_call :=
              Call (incus_cmd p ["profile"; "edit"; target p])
                   (Some (yaml_dump desired)) in
            let r := gateway h2 edit_call in
            (h2 ++ [edit_call],
             if rc r =? 0 then ExitJson true "Profile updated"
             else FailJson ("Failed to update profile: " +:+ err r)
                    (Some (out r, err r)))
        | _ => (h2, Raise AttributeError)
        end
    | ExitJson changed msg => (h2, ExitJson changed msg)
    | FailJson msg io => (h2, FailJson msg io)
    | Raise e => (h2, Raise e)
    end.
Proof.
  intros Hwet Hrc Hget Hcur Hne. unfold create.
  rewrite (M_bind_ret_eq _ _ _ _ _ (run_incus_eq _ _ _ _)).
  rewrite Hrc. cbn [Z.eqb negb when]. unfold M_bind at 1, M_ret at 1.
  unfold update. rewrite (M_bind_ret_eq _ _ _ _ _ Hget). rewrite Hcur.
  assert (truthy (PDict c) = true) as -> by (by destruct c).
  cbn [negb when]. unfold M_bind at 1, M_ret at 1.
  unfold M_bind at 1, lift at 1.
  destruct (get_desired_state yaml_safe_load read_file py_repr p cur)
    as [desired| | |]; try done.
  unfold M_bind, M_ret, lift. simpl.
  destruct (value_of desired) as [| | | | |d]; try done. simpl.
  rewrite andb_false_r, Hwet. cbn [when]. unfold M_ret.
  rewrite run_incus_input_eq.
  by destruct (rc _ =? 0).
Qed.

(** X5. A declaration file that cannot be used stops the update.  With a
    source file given and an existing profile, [update] fails right after the
    state query: with the not-found message when the file is missing, with
    the read-failure message when it cannot be read or decoded. *)
Theorem profile_update_fails_on_unusable_source p h h1 cur path new_create :
  source p = Some path →
  path ≠ "" →
  get_profile gateway yaml_safe_load p h = (h1, Ret cur) →
  truthy (value_of cur) = true →
  (read_file path = Missing →
     update gateway yaml_safe_load yaml_dump read_file py_repr p new_create h
       = (h1, FailJson ("Source file '" +:+ path +:+ "' not found") None)) ∧
  (∀ e, read_file path = Unreadable e ∨
        (∃ text, read_file path = Content text ∧ yaml_safe_load text = LoadError e) →
     update gateway yaml_safe_load yaml_dump read_file py_repr p new_create h
       = (h1, FailJson ("Failed to read source file '" +:+ path +:+ "': " +:+ e) None)).
Proof.
  intros Hsrc Hpath Hget Htruthy.
  assert (Hupd : ∀ msg,
            load_source yaml_safe_load read_file p = FailJson msg None →
            update gateway yaml_safe_load yaml_dump read_file py_repr p new_create h
              = (h1, FailJson msg None)).
  { intros msg Hload. unfold update. rewrite (M_bind_ret_eq _ _ _ _ _ Hget).
    rewrite Htruthy. cbn [negb when]. unfold M_bind at 1, M_ret at 1.
    unfold M_bind at 1, lift at 1, get_desired_state, base_state.
    by rewrite Hload. }
  assert (Htr : str_truthy (source p) = true).
  { rewrite Hsrc. simpl. apply String.eqb_neq in Hpath. by rewrite Hpath. }
  split.
  - intros Hfile. apply Hupd. unfold load_source. rewrite Htr, Hsrc. simpl.
    by rewrite Hfile.
  - intros e Hfile. apply Hupd. unfold load_source. rewrite Htr, Hsrc. simpl.
    destruct Hfile as [->|(text & -> & Hdec)]; [done|]. by rewrite Hdec.
Qed.

Lemma get_profile_with_check_mode dry p :
  get_profile gateway yaml_safe_load (with_check_mode dry p)
  = get_profile gateway yaml_safe_load p.
Proof. reflexivity. Qed.

Lemma update_dry_no_change p new_create h msg :
  (update gateway yaml_safe_load yaml_dump read_file py_repr
     (with_check_mode true p) new_create h).2 = ExitJson false msg →
  update gateway yaml_safe_load yaml_dump read_file py_repr
    (with_check_mode false p) new_create h
  = update gateway yaml_safe_load yaml_dump read_file py_repr
      (with_check_mode true p) new_create h.
Proof.
  unfold update, M_bind, M_ret, lift. rewrite !get_profile_with_check_mode.
  change (get_desired_state yaml_safe_load read_file py_repr (with_check_mode false p))
    with (get_desired_state yaml_safe_load read_file py_repr p).
  change (get_desired_state yaml_safe_load read_file py_repr (with_check_mode true p))
    with (get_desired_state yaml_safe_load read_file py_repr p).
  destruct (get_profile _ _ _ _) as [h1 [cur| | |]]; try done.
  destruct (truthy (value_of cur)); cbn [negb when]; [|done].
  destruct (get_desired_state _ _ _ _ _) as [desired| | |]; try done.
  destruct (py_get (value_of cur) "description" PNone) as [x1| | |]; try done.
  destruct (py_get (value_of desired) "description" PNone) as [x2| | |]; try done.
  destruct (py_get (value_of cur) "config" PNone) as [x3| | |]; try done.
  destruct (py_get (value_of desired) "config" PNone) as [x4| | |]; try done.
  destruct (py_get (value_of cur) "devices" PNone) as [x5| | |]; try done.
  destruct (py_get (value_of desired) "devices" PNone) as [x6| | |]; try done.
  destruct (negb _ && negb new_create); simpl; [done|]. intros [=].
Qed.

(** X6. A dry run that reports no change is the real run.  When the profile
    module, under check mode, ends by reporting no change, the same
    invocation outside check mode issues the same commands (read-only queries
    all) and ends the same way. *)
Theorem profile_clean_dry_run_is_the_real_run p h msg :
  (run gateway yaml_safe_load yaml_dump read_file py_repr (with_check_mode true p) h).2
    = ExitJson false msg →
  run gateway yaml_safe_load yaml_dump read_file py_repr (with_check_mode false p) h
  = run gateway yaml_safe_load yaml_dump read_file py_repr (with_check_mode true p) h.
Proof.
  unfold run, M_bind. rewrite !get_profile_with_check_mode.
  destruct (get_profile _ _ _ _) as [h1 [cur| | |]]; try done.
  cbn [state with_check_mode check_mode].
  destruct (state p), (truthy (value_of cur)); cbn [negb when]; try done.
  apply update_dry_no_change.
Qed.

End ProfileRuns.

(** ** The volume module, mode by mode *)

Section VolumeRuns.

Import IncusStorageVolume.

Context (gateway : list call → call → reply).
Context (yaml_safe_load : string → decoded).
Context (py_repr : pyval → string).

Implicit Types (p : params) (h : list call).

(** The dispatcher once the state reader has returned, for a mode other than
    [imported]. *)
Lemma run_after_state_query p h h1 info :
  is_imported (state p) = false →
  get_volume_info gateway yaml_safe_load p h = (h1, Ret info) →
  run gateway yaml_safe_load py_repr p h =
    match state p with
    | Present =>
        if negb (truthy info) && negb (str_truthy (snapshot p)) then
          create gateway py_repr p h1
        else if truthy info && str_truthy (snapshot p) then create gateway py_repr p h1
        else if truthy info && negb (str_truthy (snapshot p)) then
          update gateway yaml_safe_load py_repr p info h1
        else (h1, FailJson ("Volume '" +:+ fmt_opt (name p) +:+ "' does not exist") None)
    | Absent =>
        if truthy info then delete gateway p h1
        else (h1, ExitJson false "Volume/Snapshot not found")
    | Restored => restore gateway p h1
    | Exported => export_volume gateway p h1
    | Copied =>
        if truthy info then copy_move gateway p h1
        else (h1, FailJson ("Source volume '" +:+ fmt_opt (name p) +:+ "' not found") None)
    | Imported => (h1, Ret ())
    end.
Proof.
  intros Himp Hinfo. unfold run. rewrite Himp.
  rewrite (M_bind_ret_eq _ _ _ _ _ Hinfo).
  destruct (state p); try done.
  - by destruct (truthy info), (str_truthy (snapshot p)).
  - by destruct (truthy info).
  - by destruct (truthy info).
Qed.

(** X7. Mode [copied] checks before it copies.  Once the state reader has
    returned, the run fails without issuing any further command when the
    source volume is reported absent, when no target pool is given, or when
    no target volume is given, in that order of precedence. *)
Theorem copied_fails_before_any_copy p h h1 info :
  state p = Copied →
  get_volume_info gateway yaml_safe_load p h = (h1, Ret info) →
  (truthy info = false →
     run gateway yaml_safe_load py_repr p h =
       (h1, FailJson ("Source volume '" +:+ fmt_opt (name p) +:+ "' not found") None)) ∧
  (truthy info = true → str_truthy (target_pool p) = false →
     run gateway yaml_safe_load py_repr p h =
       (h1, FailJson "'target_pool' is required for state=copied (can be same as source)"
              None)) ∧
  (truthy info = true → str_truthy (target_pool p) = true →
   str_truthy (target_volume p) = false →
     run gateway yaml_safe_load py_repr p h =
       (h1, FailJson "'target_volume' is required for state=copied" None)).
Proof.
  intros Hstate Hinfo.
  rewrite (run_after_state_query p h h1 info) by (by rewrite ?Hstate).
  rewrite Hstate. split_and!.
  - by intros ->.
  - intros -> Htp. unfold copy_move, M_bind. by rewrite Htp.
  - intros -> Htp Htv. unfold copy_move, M_bind. by rewrite Htp, Htv.
Qed.

(** X8. An export does not look at the state it has read.  Outside check
    mode, with an export path given, the run issues the export command
    whatever the state reader returned, also when it reported the volume
    absent, and reports a change whenever that command succeeds: exporting
    twice reports a change twice. *)
Theorem export_ignores_current_state p h h1 info n path :
  state p = Exported →
  get_volume_info gateway yaml_safe_load p h = (h1, Ret info) →
  name p = Some n →
  export_to p = Some path →
  path ≠ "" →
  check_mode p = false →
  let export_call :=
    Call (incus_cmd p ["storage"; "volume"; "export"; qualified_pool p; n; path]) None in
  let r := gateway h1 export_call in
  run gateway yaml_safe_load py_repr p h =
    (h1 ++ [export_call],
     if rc r =? 0 then ExitJson true "Volume exported"
     else FailJson ("Failed to export volume: " +:+ err r) (Some (out r, err r))).
Proof.
  intros Hstate Hinfo Hn Hpath Hne Hwet export_call r.
  rewrite (run_after_state_query p h h1 info) by (by rewrite ?Hstate).
  rewrite Hstate. unfold export_volume. rewrite Hpath, Hwet. simpl.
  apply String.eqb_neq in Hne. rewrite Hne. cbn [negb when].
  unfold M_bind, M_ret.
  rewrite (volume_run_incus_some _ _ _
             ["storage"; "volume"; "export"; qualified_pool p; n; path])
    by (by rewrite Hn).
  fold export_call. fold r. by destruct (rc r =? 0).
Qed.

(** X9. A restore needs the snapshot to exist.  With a snapshot name given,
    when the snapshot query fails the run fails with "Snapshot not found",
    under check mode or not, and issues no restore command. *)
Theorem restore_of_missing_snapshot_fails p h h1 h2 info :
  state p = Restored →
  str_truthy (snapshot p) = true →
  get_volume_info gateway yaml_safe_load p h = (h1, Ret info) →
  snapshot_exists gateway p h1 = (h2, Ret false) →
  run gateway yaml_safe_load py_repr p h = (h2, FailJson "Snapshot not found" None) ∧
  ∃ c1 c2, h2 = h ++ [c1; c2] ∧ is_query c1 = true ∧ is_query c2 = true.
Proof.
  intros Hstate Hsnap Hinfo Hex. split.
  - rewrite (run_after_state_query p h h1 info) by (by rewrite ?Hstate).
    rewrite Hstate. unfold restore. rewrite Hsnap. cbn [negb when].
    unfold M_bind at 1, M_ret at 1. by rewrite (M_bind_ret_eq _ _ _ _ _ Hex).
  - apply get_volume_info_returns in Hinfo as (n & _ & ->).
    rewrite snapshot_exists_eq in Hex. simpl in Hex. injection Hex as <- _.
    rewrite <- app_assoc. eexists _, _. split_and!; [done|apply is_query_volume_show..].
Qed.

(** X10. Mode [absent] is idempotent.  When the state reader reports the
    volume absent the run reports no change, with or without a snapshot name;
    when the volume exists, a snapshot name is given and the snapshot query
    fails, the run reports no change as well.  In both cases no delete
    command is issued, under check mode or not. *)
Theorem absent_of_missing_target_is_no_change p h h1 info :
  state p = Absent →
  get_volume_info gateway yaml_safe_load p h = (h1, Ret info) →
  (truthy info = false →
     run gateway yaml_safe_load py_repr p h
       = (h1, ExitJson false "Volume/Snapshot not found")) ∧
  (∀ h2, truthy info = true → str_truthy (snapshot p) = true →
         snapshot_exists gateway p h1 = (h2, Ret false) →
     run gateway yaml_safe_load py_repr p h = (h2, ExitJson false "Snapshot not found") ∧
     ∃ c, h2 = h1 ++ [c] ∧ is_query c = true).
Proof.
  intros Hstate Hinfo.
  rewrite (run_after_state_query p h h1 info) by (by rewrite ?Hstate).
  rewrite Hstate. split.
  - by intros ->.
  - intros h2 -> Hsnap Hex. split.
    + unfold delete. rewrite Hsnap. cbn [when]. unfold M_bind at 1 2.
      by rewrite Hex.
    + rewrite snapshot_exists_eq in Hex. simpl in Hex. injection Hex as <- _.
      eexists. split; [done|]. apply is_query_volume_show.
Qed.

(** X11. A volume name is needed by every mode but [imported].  The argument
    specification lets the name be omitted; in any mode other than
    [imported] the run then ends in an uncaught [TypeError] raised when the
    state query is spawned, before any command has been issued. *)
Theorem run_without_name_raises p h :
  name p = None →
  is_imported (state p) = false →
  run gateway yaml_safe_load py_repr p h = (h, Raise TypeError).
Proof.
  intros Hn Himp. unfold run. rewrite Himp. unfold M_bind at 1, get_volume_info.
  unfold M_bind. by rewrite volume_run_incus_none by (by rewrite Hn).
Qed.

End VolumeRuns.

Section VolumeUpdates.

Import IncusStorageVolume.

Context (gateway : list call → call → reply).
Context (yaml_safe_load : string → decoded).
Context (py_repr : pyval → string).

Implicit Types (p : params) (h : list call).

(** The loop of [update] under check mode: nothing is issued. *)
Lemma update_loop_dry p c items : ∀ acc h,
  check_mode p = true →
  update_loop gateway py_repr p (PDict c) items acc h =
    (h,
     Ret (match filter (λ kv, differs py_repr c kv = true) items with
          | [] => acc.1
          | _ => true
          end,
          acc.2 ++ ((λ kv, "Updated config '" +:+ kv.1 +:+ "'")
                      <$> filter (λ kv, differs py_repr c kv = true) items))).
Proof.
  intros acc h Hdry. revert acc h.
  induction items as [|[k v] items IH]; intros acc h.
  - destruct acc; simpl; unfold M_ret; by rewrite !app_nil_r.
  - cbn [update_loop]. unfold M_bind at 1.
    rewrite filter_cons. destruct (decide (differs py_repr c (k, v) = true)) as [Hd|Hd].
    + unfold update_item, M_bind at 1, lift. simpl.
      unfold differs in Hd. simpl in Hd. rewrite Hd, Hdry. cbn [negb when].
      unfold M_bind at 1, M_ret at 1 2. rewrite IH. simpl.
      rewrite <- app_assoc. simpl.
      by destruct (filter _ items).
    + unfold update_item, M_bind at 1, lift. simpl.
      unfold differs in Hd. simpl in Hd. apply not_true_is_false in Hd.
      rewrite Hd. unfold M_ret. by rewrite IH.
Qed.

(** The loop of [update] outside check mode, as long as each [set] command it
    issues succeeds. *)
Lemma update_loop_all_set p n c items : ∀ acc h,
  name p = Some n →
  check_mode p = false →
  let set_call kv :=
    Call (incus_cmd p ["storage"; "volume"; "set"; qualified_pool p; n;
                       kv.1 +:+ "=" +:+ py_str py_repr kv.2]) None in
  let calls := set_call <$> filter (λ kv, differs py_repr c kv = true) items in
  (∀ i cl, calls !! i = Some cl → rc (gateway (h ++ take i calls) cl) = 0) →
  update_loop gateway py_repr p (PDict c) items acc h =
    (h ++ calls,
     Ret (match filter (λ kv, differs py_repr c kv = true) items with
          | [] => acc.1
          | _ => true
          end,
          acc.2 ++ ((λ kv, "Updated config '" +:+ kv.1 +:+ "'")
                      <$> filter (λ kv, differs py_repr c kv = true) items))).
Proof.
  intros acc h Hn Hwet set_call. revert acc h.
  induction items as [|[k v] items IH]; intros acc h calls Hok.
  - destruct acc; simpl; unfold M_ret; by rewrite !app_nil_r.
  - cbn [update_loop]. unfold M_bind at 1. subst calls. revert Hok.
    rewrite filter_cons. destruct (decide (differs py_repr c (k, v) = true)) as [Hd|Hd].
    + intros Hok. unfold update_item, M_bind at 1, lift. simpl.
      unfold differs in Hd. simpl in Hd. rewrite Hd, Hwet. cbn [negb when].
      unfold M_bind at 1 2.
      rewrite (volume_run_incus_some _ _ _
                 ["storage"; "volume"; "set"; qualified_pool p; n;
                  k +:+ "=" +:+ py_str py_repr v]) by (by rewrite Hn).
      pose proof (Hok 0%nat (set_call (k, v)) eq_refl) as H0.
      simpl in H0. rewrite app_nil_r in H0. unfold set_call in H0. simpl in H0.
      rewrite H0. cbn [Z.eqb negb when]. unfold M_ret.
      rewrite IH.
      * simpl. rewrite <- !app_assoc. simpl. by destruct (filter _ items).
      * intros i cl Hi. rewrite <- app_assoc. apply (Hok (S i) cl Hi).
    + intros Hok. unfold update_item, M_bind at 1, lift. simpl.
      unfold differs in Hd. simpl in Hd. apply not_true_is_false in Hd.
      rewrite Hd. unfold M_ret. by rewrite IH.
Qed.

(** The loop of [update] outside check mode, when a [set] command fails: the
    loop stops there. *)
Lemma update_loop_first_failure p n c items : ∀ acc h i kv,
  name p = Some n →
  check_mode p = false →
  let set_call kv :=
    Call (incus_cmd p ["storage"; "volume"; "set"; qualified_pool p; n;
                       kv.1 +:+ "=" +:+ py_str py_repr kv.2]) None in
  let calls := set_call <$> filter (λ kv, differs py_repr c kv = true) items in
  filter (λ kv, differs py_repr c kv = true) items !! i = Some kv →
  (∀ j cl, (j < i)%nat → calls !! j = Some cl →
           rc (gateway (h ++ take j calls) cl) = 0) →
  rc (gateway (h ++ take i calls) (set_call kv)) ≠ 0 →
  update_loop gateway py_repr p (PDict c) items acc h =
    (h ++ take (S i) calls,
     FailJson ("Failed to set volume config '" +:+ kv.1 +:+ "': "
                 +:+ err (gateway (h ++ take i calls) (set_call kv))) None).
Proof.
  intros acc h i kv Hn Hwet set_call. revert acc h i.
  induction items as [|[k v] items IH]; intros acc h i calls Hi Hok Hfail; [done|].
  cbn [update_loop]. unfold M_bind at 1. subst calls. revert Hi Hok Hfail.
  rewrite filter_cons. destruct (decide (differs py_repr c (k, v) = true)) as [Hd|Hd].
  - intros Hi Hok Hfail. unfold update_item, M_bind at 1, lift. simpl.
    unfold differs in Hd. simpl in Hd. rewrite Hd, Hwet. cbn [negb when].
    unfold M_bind at 1 2.
    rewrite (volume_run_incus_some _ _ _
               ["storage"; "volume"; "set"; qualified_pool p; n;
                k +:+ "=" +:+ py_str py_repr v]) by (by rewrite Hn).
    destruct i as [|i].
    + injection Hi as <-. simpl in Hfail. rewrite app_nil_r in Hfail.
      unfold set_call in Hfail. simpl in Hfail.
      apply Z.eqb_neq in Hfail. rewrite Hfail. cbn [negb when]. simpl.
      by rewrite app_nil_r.
    + pose proof (Hok 0%nat (set_call (k, v)) ltac:(lia) eq_refl) as H0.
      simpl in H0. rewrite app_nil_r in H0. unfold set_call in H0. simpl in H0.
      rewrite H0. cbn [Z.eqb negb when]. unfold M_ret.
      simpl in Hi, Hfail.
      assert (Hm : ∀ (x : call) l, h ++ x :: l = (h ++ [x]) ++ l)
        by (intros; by rewrite <- app_assoc).
      rewrite Hm in Hfail.
      rewrite (IH _ _ i Hi); [by rewrite <- !app_assoc| |done].
      intros j cl Hj Hcl. rewrite <- app_assoc. apply (Hok (S j) cl); [lia|done].
  - intros Hi Hok Hfail. unfold update_item, M_bind at 1, lift. simpl.
    unfold differs in Hd. simpl in Hd. apply not_true_is_false in Hd.
    rewrite Hd. unfold M_ret. by apply IH.
Qed.

(** X12. The update sets the keys that differ, in order, until a command
    fails.  With no attach target, on a current state whose configuration is
    a dictionary [c], [update] goes through the supplied [config] in order
    and considers the keys whose stringified value differs from the current
    one.  Under check mode it issues nothing.  Outside check mode it issues
    one [storage volume set] for each of them, in that order and nothing
    else, as long as the commands succeed; when one fails the run ends there
    with that command's failure, and the keys after it get no command.  When
    no command fails the message lists exactly those keys, and the outcome is
    no change when there is none. *)
Theorem volume_update_sets_the_differing_keys p info c n h :
  str_truthy (attach_to p) = false →
  default (PDict []) (dict_get "config" info) = PDict c →
  name p = Some n →
  let changed := filter (λ kv, differs py_repr c kv = true) (default [] (config p)) in
  let set_call kv :=
    Call (incus_cmd p ["storage"; "volume"; "set"; qualified_pool p; n;
                       kv.1 +:+ "=" +:+ py_str py_repr kv.2]) None in
  let calls := set_call <$> changed in
  let report :=
    match changed with
    | [] => ExitJson false "Storage volume matches configuration"
    | _ => ExitJson true
             (String.concat ", " ((λ kv, "Updated config '" +:+ kv.1 +:+ "'") <$> changed))
    end in
  (check_mode p = true →
     update gateway yaml_safe_load py_repr p (PDict info) h = (h, report)) ∧
  (check_mode p = false →
     (∀ i cl, calls !! i = Some cl → rc (gateway (h ++ take i calls) cl) = 0) →
     update gateway yaml_safe_load py_repr p (PDict info) h = (h ++ calls, report)) ∧
  (check_mode p = false →
     ∀ i kv, changed !! i = Some kv →
       (∀ j cl, (j < i)%nat → calls !! j = Some cl →
                rc (gateway (h ++ take j calls) cl) = 0) →
       rc (gateway (h ++ take i calls) (set_call kv)) ≠ 0 →
       update gateway yaml_safe_load py_repr p (PDict info) h =
         (h ++ take (S i) calls,
          FailJson ("Failed to set volume config '" +:+ kv.1 +:+ "': "
                      +:+ err (gateway (h ++ take i calls) (set_call kv))) None)).
Proof.
  intros Hattach Hc Hn changed set_call calls report.
  rewrite (update_without_attach _ _ _ p info c h Hattach Hc).
  split_and!.
  - intros Hdry. rewrite (update_loop_dry p c _ _ _ Hdry). fold changed. simpl.
    subst report. by destruct changed.
  - intros Hwet Hok. rewrite (update_loop_all_set p n c _ _ _ Hn Hwet Hok).
    fold changed. simpl. subst report. by destruct changed.
  - intros Hwet i kv Hi Hok Hfail.
    by rewrite (update_loop_first_failure p n c _ _ _ i kv Hn Hwet Hi Hok Hfail).
Qed.

End VolumeUpdates.

Section VolumeImportCreateAttach.

Import IncusStorageVolume.

Context (gateway : list call → call → reply).
Context (yaml_safe_load : string → decoded).
Context (py_repr : pyval → string).

Implicit Types (p : params) (h : list call).

Lemma not_query_import p rest l :
  mapM id (Some "storage" :: Some "volume" :: Some "import" :: rest) = Some l →
  is_query (Call (incus_cmd p l) None) = false.
Proof.
  intros Hl. do 3 apply mapM_id_cons in Hl as (? & -> & Hl).
  unfold is_query. by rewrite volume_subcommand_incus_cmd.
Qed.

Lemma not_query_attach p rest l :
  mapM id (Some "storage" :: Some "volume" :: Some "attach" :: rest) = Some l →
  is_query (Call (incus_cmd p l) None) = false.
Proof.
  intros Hl. do 3 apply mapM_id_cons in Hl as (? & -> & Hl).
  unfold is_query. by rewrite volume_subcommand_incus_cmd.
Qed.

Lemma attach_volume_issues_no_query p :
  emits (λ c, is_query c = false) (λ _, True) (attach_volume gateway p).
Proof.
  unfold attach_volume. emits_step; [by apply emits_ret|].
  emits_step; [apply emits_volume_run_incus, not_query_attach|].
  repeat emits_step.
Qed.

(** X13. An import does not read the current state.  In mode [imported] no
    command the run issues is a read-only query: the state reader is never
    called.  Without an import path the run fails with the validation
    message and issues no command at all. *)
Theorem import_never_reads_current_state p h :
  state p = Imported →
  (∃ new, (run gateway yaml_safe_load py_repr p h).1 = h ++ new ∧
          Forall (λ c, is_query c = false) new) ∧
  (str_truthy (import_from p) = false →
     run gateway yaml_safe_load py_repr p h
       = (h, FailJson "'import_from' is required for state=imported" None)).
Proof.
  intros Hstate. unfold run. rewrite Hstate. cbn [is_imported]. split.
  - assert (Hem : emits (λ c, is_query c = false) (λ _, True)
                    (import_volume gateway p)).
    { unfold import_volume. emits_step; [repeat emits_step|].
      emits_step; [repeat emits_step|].
      emits_step; [apply emits_volume_run_incus, not_query_import|].
      emits_step; [repeat emits_step|].
      emits_step; [|repeat emits_step].
      emits_step. apply attach_volume_issues_no_query. }
    destruct (Hem h) as (new & Hnew & Hall & _). eauto.
  - intros Hfrom. unfold import_volume, M_bind. by rewrite Hfrom.
Qed.

(** X14. An import without a name cannot be followed by an attach.  The name
    is optional for an import; when it is omitted and an attach target is
    given, then outside check mode, once the import command has succeeded,
    the run ends in an uncaught [TypeError]: the volume has been imported
    and nothing is reported. *)
Theorem import_without_name_then_attach_raises p h path :
  state p = Imported →
  name p = None →
  import_from p = Some path →
  path ≠ "" →
  str_truthy (attach_to p) = true →
  check_mode p = false →
  let import_call :=
    Call (incus_cmd p (["storage"; "volume"; "import"; qualified_pool p; path]
                         ++ match content_type p with
                            | Some c => ["--type=" +:+ content_name c]
                            | None => []
                            end)) None in
  rc (gateway h import_call) = 0 →
  run gateway yaml_safe_load py_repr p h = (h ++ [import_call], Raise TypeError).
Proof.
  intros Hstate Hn Hfrom Hne Hattach Hwet import_call Hrc.
  unfold run. rewrite Hstate. cbn [is_imported].
  unfold import_volume. rewrite Hfrom, Hn, Hwet, Hattach. simpl.
  apply String.eqb_neq in Hne. rewrite Hne. cbn [negb when].
  unfold M_bind at 1 2 3, M_ret at 1 2.
  rewrite (volume_run_incus_some _ _ _
             (["storage"; "volume"; "import"; qualified_pool p; path]
                ++ match content_type p with
                   | Some c => ["--type=" +:+ content_name c]
                   | None => []
                   end)) by (by destruct (content_type p)).
  fold import_call. rewrite Hrc. cbn [Z.eqb negb when].
  unfold M_bind at 1 2, M_ret at 1. unfold attach_volume. rewrite Hwet.
  unfold M_bind at 1.
  rewrite volume_run_incus_none; [done|].
  unfold attach_cmd_args. rewrite Hn. simpl.
  by destruct (attach_to p).
Qed.

(** The arguments of the creation command, when the volume has a name. *)
Lemma create_cmd_args_named p n :
  name p = Some n →
  mapM id (create_cmd_args py_repr p) =
    Some (["storage"; "volume"; "create"; qualified_pool p; n]
            ++ (if str_truthy (description p)
                then ["--description"; fmt_opt (description p)] else [])
            ++ (match content_type p with
                | Some c => ["--type=" +:+ content_name c]
                | None => if is_filesystem (type p) then [] else ["--type=block"]
                end)
            ++ (if str_truthy (target p) then ["--target=" +:+ fmt_opt (target p)] else [])
            ++ ((λ kv, kv.1 +:+ "=" +:+ py_str py_repr kv.2) <$> default [] (config p))).
Proof.
  intros Hn. rewrite <- mapM_id_Some. f_equal.
  unfold create_cmd_args. rewrite Hn.
  rewrite !fmap_app, <- list_fmap_compose. simpl.
  do 5 f_equal.
  f_equal; [by destruct (description p) as [d|]; simpl; [destruct (negb _)|]|].
  f_equal; [by destruct (content_type p), (type p)|].
  f_equal; [by destruct (str_truthy (target p))|].
  by destruct (config p) as [[|]|].
Qed.

(** X15. Creating a volume passes every configuration item.  In mode
    [present], when the state reader reports the volume absent, no snapshot
    name is given and no attach target is given, then outside check mode the
    run issues one creation command after the state query: the fixed
    arguments, then the description, type and target flags that apply (the
    content type taking precedence over the volume type), then one
    [key=value] argument per item of [config], in order; it reports a change
    when that command succeeds. *)
Theorem volume_create_passes_config_items p h h1 info n :
  state p = Present →
  get_volume_info gateway yaml_safe_load p h = (h1, Ret info) →
  truthy info = false →
  str_truthy (snapshot p) = false →
  str_truthy (attach_to p) = false →
  check_mode p = false →
  name p = Some n →
  let create_call :=
    Call (incus_cmd p
            (["storage"; "volume"; "create"; qualified_pool p; n]
               ++ (if str_truthy (description p)
                   then ["--description"; fmt_opt (description p)] else [])
               ++ (match content_type p with
                   | Some c => ["--type=" +:+ content_name c]
                   | None => if is_filesystem (type p) then [] else ["--type=block"]
                   end)
               ++ (if str_truthy (target p)
                   then ["--target=" +:+ fmt_opt (target p)] else [])
               ++ ((λ kv, kv.1 +:+ "=" +:+ py_str py_repr kv.2)
                     <$> default [] (config p)))) None in
  let r := gateway h1 create_call in
  run gateway yaml_safe_load py_repr p h =
    (h1 ++ [create_call],
     if rc r =? 0 then ExitJson true "Storage volume created"
     else FailJson ("Failed to create storage volume: " +:+ err r) (Some (out r, err r))).
Proof.
  intros Hstate Hinfo Hfalsy Hsnap Hattach Hwet Hn create_call r.
  rewrite (run_after_state_query _ _ _ p h h1 info) by (by rewrite ?Hstate).
  rewrite Hstate, Hfalsy, Hsnap. cbn [negb andb].
  unfold create. rewrite Hsnap, Hwet, Hattach. cbn [when].
  unfold M_bind, M_ret.
  rewrite (volume_run_incus_some _ _ _ _ _ (create_cmd_args_named p n Hn)).
  fold create_call. fold r. by destruct (rc r =? 0).
Qed.

End VolumeImportCreateAttach.

Section VolumeAttachment.

Import IncusStorageVolume.

Context (gateway : list call → call → reply).
Context (yaml_safe_load : string → decoded).
Context (py_repr : pyval → string).

Implicit Types (p : params) (h : list call).

(** X16. Attached means: a device of that name exists.  With an attach
    target and a device name, [check_if_attached] issues two read-only
    queries on the instance, the device list and the configuration, and
    ignores the reply to the first.  When the second fails the volume counts
    as not attached; when it succeeds and decodes to a dictionary whose
    [devices] field is a dictionary (or is absent), the volume counts as
    attached exactly when that dictionary has a key equal to the device name,
    whatever the device under that key is. *)
Theorem attached_means_a_device_of_that_name p h a dev :
  attach_to p = Some a →
  attach_device p = Some dev →
  let instance := qualify (remote p) a in
  let list_call :=
    Call (incus_cmd p ["config"; "device"; "list"; instance; "--format=json"]) None in
  let show_call := Call (incus_cmd p ["config"; "show"; instance]) None in
  let r := gateway (h ++ [list_call]) show_call in
  (rc r ≠ 0 →
     check_if_attached gateway yaml_safe_load p h
       = (h ++ [list_call; show_call], Ret false)) ∧
  (∀ data devs,
     rc r = 0 →
     yaml_safe_load (out r) = Decoded (PDict data) →
     default (PDict []) (dict_get "devices" data) = PDict devs →
     check_if_attached gateway yaml_safe_load p h
       = (h ++ [list_call; show_call], Ret (dict_has dev devs))).
Proof.
  intros Ha Hdev instance list_call show_call r.
  assert (Hrun : check_if_attached gateway yaml_safe_load p h =
            (h ++ [list_call; show_call],
             if rc r =? 0 then
               match yaml_safe_load (out r) with
               | Decoded data =>
                   match py_get data "devices" (PDict []) with
                   | Ret devs => py_contains_opt (attach_device p) devs
                   | ExitJson c0 s => ExitJson c0 s
                   | FailJson s io => FailJson s io
                   | Raise e => Raise e
                   end
               | DecodeError msg => Raise (YAMLError msg)
               end
             else Ret false)).
  { unfold check_if_attached. rewrite Ha. cbn [fmt_opt].
    assert ((if str_truthy (remote p) && negb (String.eqb (fmt_opt (remote p)) "local")
             then Some (fmt_opt (remote p) +:+ ":" +:+ a) else Some a)
            = Some instance) as ->.
    { unfold instance, qualify. by destruct (_ && _). }
    unfold M_bind at 1.
    rewrite (volume_run_incus_some _ _ _
               ["config"; "device"; "list"; instance; "--format=json"]) by done.
    unfold M_bind at 1.
    rewrite (volume_run_incus_some _ _ _ ["config"; "show"; instance]) by done.
    fold list_call. fold show_call. fold r. rewrite <- app_assoc. simpl.
    destruct (rc r =? 0); [|done].
    destruct (yaml_safe_load (out r)) as [data|msg]; [|done].
    unfold M_bind, lift. by destruct (py_get data "devices" (PDict [])). }
  rewrite Hrun. split.
  - intros Hrc. apply Z.eqb_neq in Hrc. by rewrite Hrc.
  - intros data devs Hrc Hload Hdevs. rewrite Hrc, Hload. simpl.
    rewrite Hdevs, Hdev. done.
Qed.

(** X17. An update attaches only a missing device.  With no [config]
    supplied and an attach target given, once [check_if_attached] has
    answered: if the device is there the update reports no change and issues
    nothing more; if it is not, the update reports the attachment, and
    outside check mode it first issues the attach command, whose failure
    becomes the outcome. *)
Theorem update_attaches_only_a_missing_device p info h h2 attached l :
  items_truthy (config p) = false →
  str_truthy (attach_to p) = true →
  check_if_attached gateway yaml_safe_load p h = (h2, Ret attached) →
  mapM id (attach_cmd_args p) = Some l →
  let attach_call := Call (incus_cmd p l) None in
  let r := gateway h2 attach_call in
  let msg := "Attached to instance '" +:+ fmt_opt (attach_to p) +:+ "'" in
  update gateway yaml_safe_load py_repr p info h =
    if attached then (h2, ExitJson false "Storage volume matches configuration")
    else if check_mode p then (h2, ExitJson true msg)
    else (h2 ++ [attach_call],
          if rc r =? 0 then ExitJson true msg
          else FailJson ("Failed to attach volume: " +:+ err r +:+ " CMD: "
                           +:+ String.concat " " l) (Some (out r, err r))).
Proof.
  intros Hcfg Hattach Hcheck Hl attach_call r msg.
  unfold update. rewrite Hcfg, Hattach.
  unfold M_bind at 1, M_ret at 1. unfold M_bind at 1.
  rewrite (M_bind_ret_eq _ _ _ _ _ Hcheck).
  destruct attached; cbn [negb]; [done|].
  unfold attach_volume. destruct (check_mode p); [done|].
  unfold M_bind, M_ret.
  rewrite (volume_run_incus_some _ _ _ l) by done.
  fold attach_call. fold r.
  destruct (rc r =? 0); simpl; [done|].
  unfold join_args. by rewrite Hl.
Qed.

End VolumeAttachment.

(** ** Dry runs of the volume module against real runs *)

Section NeverExits.

Context {A B : Type}.

Lemma never_exits_lift (o : outcome A) :
  (∀ changed msg, o ≠ ExitJson changed msg) → never_exits (lift o).
Proof. intros Ho h changed msg. apply Ho. Qed.

Lemma never_exits_ret (a : A) : never_exits (M_ret a).
Proof. by intros h changed msg. Qed.

Lemma never_exits_fail msg io : never_exits (@fail_json A msg io).
Proof. by intros h changed msg'. Qed.

Lemma never_exits_bind (m : M A) (f : A → M B) :
  never_exits m → (∀ a, never_exits (f a)) → never_exits (M_bind m f).
Proof.
  intros Hm Hf h changed msg. unfold M_bind.
  specialize (Hm h). destruct (m h) as [h1 [a| | |]]; simpl in *; try done.
  - apply Hf.
  - intros [= -> ->]. by eapply Hm.
Qed.

Lemma never_exits_spawn gateway argv input :
  never_exits (spawn gateway argv input : M reply).
Proof. intros h changed msg. unfold spawn. by destruct (mapM id argv). Qed.

End NeverExits.

Lemma never_exits_when (c : bool) (body : M unit) :
  never_exits body → never_exits (when c body).
Proof. destruct c; [done|]. intros _. apply never_exits_ret. Qed.

Section VolumeDryAgainstReal.

Import IncusStorageVolume.

Context (gateway : list call → call → reply).
Context (yaml_safe_load : string → decoded).
Context (py_repr : pyval → string).

Implicit Types (p : params) (h : list call).

Lemma never_exits_run_incus p args : never_exits (run_incus gateway p args).
Proof. apply never_exits_spawn. Qed.

Lemma never_exits_update_loop p cc items : ∀ acc,
  never_exits (update_loop gateway py_repr p cc items acc).
Proof.
  induction items as [|[k v] items IH]; intros acc; simpl.
  - apply never_exits_ret.
  - apply never_exits_bind; [|done]. unfold update_item.
    apply never_exits_bind; [apply never_exits_lift; by destruct cc|].
    intros curr_val. destruct (negb _); [|apply never_exits_ret].
    apply never_exits_bind; [|intros; apply never_exits_ret].
    apply never_exits_when, never_exits_bind; [apply never_exits_run_incus|].
    intros r. apply never_exits_when, never_exits_fail.
Qed.

Lemma never_exits_check_if_attached p :
  never_exits (check_if_attached gateway yaml_safe_load p).
Proof.
  unfold check_if_attached.
  apply never_exits_bind; [apply never_exits_run_incus|]. intros _.
  apply never_exits_bind; [apply never_exits_run_incus|]. intros r.
  destruct (rc r =? 0); [|apply never_exits_ret].
  destruct (yaml_safe_load (out r)) as [data|msg]; [|by apply never_exits_lift].
  apply never_exits_bind; [apply never_exits_lift; by destruct data|].
  intros devs. apply never_exits_lift.
  unfold py_contains_opt, py_contains. by destruct (attach_device p), devs.
Qed.

Lemma update_item_dry_clean p cc acc kv h h1 acc1 :
  update_item gateway py_repr (with_check_mode true p) cc acc kv h = (h1, Ret acc1) →
  acc1.1 = false →
  update_item gateway py_repr (with_check_mode false p) cc acc kv h = (h1, Ret acc1).
Proof.
  destruct kv as [k v]. unfold update_item, M_bind, lift.
  destruct (py_get cc k (PStr "")) as [curr_val| | |]; try done.
  destruct (negb _); [|done].
  simpl. intros [= <- <-]. done.
Qed.

Lemma update_item_changed_stays p cc acc kv h h1 acc1 :
  update_item gateway py_repr p cc acc kv h = (h1, Ret acc1) →
  acc.1 = true → acc1.1 = true.
Proof.
  destruct kv as [k v]. unfold update_item, M_bind, lift.
  destruct (py_get cc k (PStr "")) as [curr_val| | |]; try done.
  destruct (negb _); [|by intros [= <- <-]].
  destruct (when _ _ h) as [h' [[]| | |]]; try done.
  by intros [= <- <-].
Qed.

Lemma update_loop_changed_stays p cc items : ∀ acc h h1 acc1,
  update_loop gateway py_repr p cc items acc h = (h1, Ret acc1) →
  acc.1 = true → acc1.1 = true.
Proof.
  induction items as [|kv items IH]; intros acc h h1 acc1; cbn [update_loop].
  - by intros [= <- <-].
  - unfold M_bind.
    destruct (update_item gateway py_repr p cc acc kv h) as [h' [acc'| | |]] eqn:Hitem;
      try done.
    intros Hloop Hacc. eapply IH; [done|].
    by eapply update_item_changed_stays.
Qed.

Lemma update_loop_dry_clean p cc items : ∀ acc h h1 acc1,
  update_loop gateway py_repr (with_check_mode true p) cc items acc h = (h1, Ret acc1) →
  acc1.1 = false →
  update_loop gateway py_repr (with_check_mode false p) cc items acc h = (h1, Ret acc1).
Proof.
  induction items as [|kv items IH]; intros acc h h1 acc1; cbn [update_loop]; [done|].
  unfold M_bind.
  destruct (update_item gateway py_repr (with_check_mode true p) cc acc kv h)
    as [h' [acc'| | |]] eqn:Hitem; try done.
  intros Hloop Hclean.
  assert (Hacc' : acc'.1 = false).
  { destruct (acc'.1) eqn:E; [|done].
    rewrite (update_loop_changed_stays _ _ _ _ _ _ _ Hloop E) in Hclean. done. }
  rewrite (update_item_dry_clean _ _ _ _ _ _ _ Hitem Hacc'). by apply IH.
Qed.

Lemma volume_update_dry_no_change p info h msg :
  (update gateway yaml_safe_load py_repr (with_check_mode true p) info h).2
    = ExitJson false msg →
  update gateway yaml_safe_load py_repr (with_check_mode false p) info h
  = update gateway yaml_safe_load py_repr (with_check_mode true p) info h.
Proof.
  pose (loop := λ q : params,
          if items_truthy (config q)
          then M_bind (lift (py_get info "config" (PDict [])))
                 (λ current_config,
                    update_loop gateway py_repr q current_config
                      (default [] (config q)) (false, []))
          else M_ret (false, [])).
  pose (att := λ (q : params) (acc : bool * list string),
          if str_truthy (attach_to q)
          then M_bind (check_if_attached gateway yaml_safe_load q)
                 (λ is_attached,
                    if negb is_attached
                    then M_bind (attach_volume gateway q)
                           (λ _, M_ret (true, acc.2 ++
                              ["Attached to instance '" +:+ fmt_opt (attach_to q)
                               +:+ "'"]))
                    else M_ret acc)
          else M_ret acc).
  pose (fin := λ acc : bool * list string,
          if acc.1 then @exit_json unit true (String.concat ", " acc.2)
          else exit_json false "Storage volume matches configuration").
  assert (Hupd : ∀ q, update gateway yaml_safe_load py_repr q info
                      = M_bind (loop q) (λ acc, M_bind (att q acc) fin))
    by reflexivity.
  rewrite !Hupd.
  assert (Hnever : never_exits (loop (with_check_mode true p))).
  { unfold loop. destruct (items_truthy _); [|apply never_exits_ret].
    apply never_exits_bind; [apply never_exits_lift; by destruct info|].
    intros cc. apply never_exits_update_loop. }
  assert (Hloop : ∀ h1 acc, loop (with_check_mode true p) h = (h1, Ret acc) →
            acc.1 = false → loop (with_check_mode false p) h = (h1, Ret acc)).
  { unfold loop. cbn [config with_check_mode].
    destruct (items_truthy (config p)); [|done].
    unfold M_bind, lift. destruct (py_get info "config" (PDict [])); try done.
    intros h1 acc. apply update_loop_dry_clean. }
  specialize (Hnever h).
  destruct (loop (with_check_mode true p) h) as [h1 [acc|c s|s io|e]] eqn:Hdry.
  2: { exfalso. by eapply Hnever. }
  2: { unfold M_bind at 1. by rewrite Hdry. }
  2: { unfold M_bind at 1. by rewrite Hdry. }
  rewrite (M_bind_ret_eq _ _ _ _ _ Hdry). intros Hclean.
  assert (Hatt : ∃ h2, att (with_check_mode true p) acc h1 = (h2, Ret acc) ∧
                       att (with_check_mode false p) acc h1 = (h2, Ret acc) ∧
                       acc.1 = false).
  { revert Hclean. unfold att. cbn [attach_to with_check_mode].
    change (check_if_attached gateway yaml_safe_load (with_check_mode false p))
      with (check_if_attached gateway yaml_safe_load p).
    change (check_if_attached gateway yaml_safe_load (with_check_mode true p))
      with (check_if_attached gateway yaml_safe_load p).
    destruct (str_truthy (attach_to p)).
    - pose proof (never_exits_check_if_attached p h1) as Hnc.
      unfold M_bind.
      destruct (check_if_attached gateway yaml_safe_load p h1)
        as [h2 [attached|c s|s io|e]]; simpl in Hnc |- *; try done.
      + destruct attached; cbn [negb].
        * unfold M_ret, fin. destruct (acc.1); simpl; [done|]. eauto.
        * unfold attach_volume. simpl. unfold M_ret, fin. simpl. done.
      + intros [= -> ->]. by edestruct Hnc.
    - unfold M_bind, M_ret, fin. destruct (acc.1); simpl; [done|]. eauto. }
  destruct Hatt as (h2 & Hd & Hw & E).
  rewrite (M_bind_ret_eq _ _ _ _ _ (Hloop h1 acc eq_refl E)).
  by rewrite (M_bind_ret_eq _ _ _ _ _ Hd), (M_bind_ret_eq _ _ _ _ _ Hw).
Qed.

Lemma snapshot_exists_with_check_mode dry p :
  snapshot_exists gateway (with_check_mode dry p) = snapshot_exists gateway p.
Proof. reflexivity. Qed.

Lemma get_volume_info_with_check_mode dry p :
  get_volume_info gateway yaml_safe_load (with_check_mode dry p)
  = get_volume_info gateway yaml_safe_load p.
Proof. reflexivity. Qed.

Lemma create_dry_no_change p h msg :
  (create gateway py_repr (with_check_mode true p) h).2 = ExitJson false msg →
  create gateway py_repr (with_check_mode false p) h
  = create gateway py_repr (with_check_mode true p) h.
Proof.
  unfold create, M_bind. rewrite !snapshot_exists_with_check_mode.
  cbn [snapshot check_mode with_check_mode].
  destruct (str_truthy (snapshot p)); cbn [when]; [|by intros [=]].
  rewrite snapshot_exists_eq. cbn zeta.
  destruct (rc _ =? 0); cbn [when]; [done|].
  unfold exit_json, lift. simpl. by intros [=].
Qed.

Lemma delete_dry_no_change p h msg :
  (delete gateway (with_check_mode true p) h).2 = ExitJson false msg →
  delete gateway (with_check_mode false p) h = delete gateway (with_check_mode true p) h.
Proof.
  unfold delete, M_bind. rewrite !snapshot_exists_with_check_mode.
  cbn [snapshot check_mode with_check_mode].
  destruct (str_truthy (snapshot p)); cbn [when]; [|by intros [=]].
  rewrite snapshot_exists_eq. cbn zeta.
  destruct (rc _ =? 0); cbn [negb when]; [|done].
  unfold exit_json, lift. simpl. by intros [=].
Qed.

Lemma restore_dry_changes p h msg :
  (restore gateway (with_check_mode true p) h).2 ≠ ExitJson false msg.
Proof.
  unfold restore, M_bind. rewrite !snapshot_exists_with_check_mode.
  cbn [snapshot check_mode with_check_mode].
  destruct (str_truthy (snapshot p)); cbn [negb when]; [|done].
  unfold M_ret. rewrite snapshot_exists_eq. cbn zeta.
  by destruct (rc _ =? 0).
Qed.

Lemma export_dry_changes p h msg :
  (export_volume gateway (with_check_mode true p) h).2 ≠ ExitJson false msg.
Proof.
  unfold export_volume, M_bind. cbn [export_to check_mode with_check_mode].
  by destruct (str_truthy (export_to p)).
Qed.

Lemma import_dry_changes p h msg :
  (import_volume gateway (with_check_mode true p) h).2 ≠ ExitJson false msg.
Proof.
  unfold import_volume, M_bind. cbn [import_from check_mode with_check_mode].
  by destruct (str_truthy (import_from p)).
Qed.

Lemma copy_move_dry_changes p h msg :
  (copy_move gateway (with_check_mode true p) h).2 ≠ ExitJson false msg.
Proof.
  unfold copy_move, M_bind.
  cbn [target_pool target_volume check_mode with_check_mode].
  by destruct (str_truthy (target_pool p)), (str_truthy (target_volume p)).
Qed.

(** X18. A dry run that reports no change is the real run.  When the volume
    module, under check mode, ends by reporting no change, the same
    invocation outside check mode issues the same commands (read-only queries
    all) and ends the same way, in every mode. *)
Theorem volume_clean_dry_run_is_the_real_run p h msg :
  (run gateway yaml_safe_load py_repr (with_check_mode true p) h).2 = ExitJson false msg →
  run gateway yaml_safe_load py_repr (with_check_mode false p) h
  = run gateway yaml_safe_load py_repr (with_check_mode true p) h.
Proof.
  unfold run. rewrite !get_volume_info_with_check_mode.
  cbn [state snapshot name with_check_mode].
  destruct (is_imported (state p)) eqn:Himp.
  { intros H. by apply import_dry_changes in H. }
  unfold M_bind.
  destruct (get_volume_info gateway yaml_safe_load p h) as [h1 [info| | |]]; try done.
  destruct (state p); try done.
  - destruct (truthy info), (str_truthy (snapshot p)); cbn [negb andb];
      first [apply create_dry_no_change | apply volume_update_dry_no_change | done].
  - destruct (truthy info); [apply delete_dry_no_change|done].
  - intros H. by apply restore_dry_changes in H.
  - intros H. by apply export_dry_changes in H.
  - destruct (truthy info); cbn [negb when]; [|done].
    intros H. by apply copy_move_dry_changes in H.
Qed.

End VolumeDryAgainstReal.

Section VolumeCopy.

Import IncusStorageVolume.

Context (gateway : list call → call → reply).
Context (yaml_safe_load : string → decoded).
Context (py_repr : pyval → string).

Implicit Types (p : params) (h : list call).

(** X19. One copy or one move.  In mode [copied], when the state reader
    reports the source and both target parameters are given, the run issues
    nothing under check mode and exactly one command otherwise: [move] when
    the move flag is set, [copy] when it is not, from [pool/name] to
    [target_pool/target_volume], both with the remote prefix when one
    applies, followed by the [--target] flag when a cluster member is given.
    On success it reports "Volume moved" for a move and "Volume copyd" for a
    copy. *)
Theorem copied_issues_one_copy_or_move p h h1 info n tp tv :
  state p = Copied →
  get_volume_info gateway yaml_safe_load p h = (h1, Ret info) →
  truthy info = true →
  name p = Some n →
  target_pool p = Some tp → tp ≠ "" →
  target_volume p = Some tv → tv ≠ "" →
  let op := if move_op p then "move" else "copy" in
  let copy_call :=
    Call (incus_cmd p
            (["storage"; "volume"; op;
              qualify (remote p) (pool p +:+ "/" +:+ n);
              qualify (remote p) (tp +:+ "/" +:+ tv)]
               ++ (if str_truthy (target p)
                   then ["--target=" +:+ fmt_opt (target p)] else []))) None in
  let r := gateway h1 copy_call in
  run gateway yaml_safe_load py_repr p h =
    if check_mode p then (h1, ExitJson true ("Volume would be " +:+ op +:+ "d"))
    else (h1 ++ [copy_call],
          if rc r =? 0 then ExitJson true ("Volume " +:+ op +:+ "d")
          else FailJson ("Failed to " +:+ op +:+ " volume: " +:+ err r)
                 (Some (out r, err r))).
Proof.
  intros Hstate Hinfo Htruthy Hn Htp Htpne Htv Htvne op copy_call r.
  rewrite (run_after_state_query _ _ _ p h h1 info) by (by rewrite ?Hstate).
  rewrite Hstate, Htruthy. unfold copy_move. rewrite Htp, Htv, Hn. simpl.
  apply String.eqb_neq in Htpne, Htvne. rewrite Htpne, Htvne. cbn [negb when].
  fold op. destruct (check_mode p); cbn [when]; [done|].
  unfold M_bind, M_ret.
  rewrite (volume_run_incus_some _ _ _
             (["storage"; "volume"; op;
               qualify (remote p) (pool p +:+ "/" +:+ n);
               qualify (remote p) (tp +:+ "/" +:+ tv)]
                ++ (if str_truthy (target p)
                    then ["--target=" +:+ fmt_opt (target p)] else [])))
    by (by destruct (str_truthy (target p))).
  fold copy_call. fold r. by destruct (rc r =? 0).
Qed.

End VolumeCopy.

(** ** Runs about a snapshot, deletion, and creation with an attachment *)

Lemma emits_mono {A : Type} (P P' : call → Prop) (R : A → Prop) (m : M A) :
  (∀ c, P c → P' c) → emits P R m → emits P' R m.
Proof.
  intros HP Hm h. destruct (Hm h) as (new & Hh & Hnew & Hret).
  exists new. split_and!; [done| |done]. by apply (Forall_impl _ _ _ Hnew).
Qed.

Section VolumeSnapshots.

Import IncusStorageVolume.

Context (gateway : list call → call → reply).
Context (yaml_safe_load : string → decoded).
Context (py_repr : pyval → string).

Implicit Types (p : params) (h : list call).

Lemma snapshot_only_verb p rest l :
  mapM id (Some "storage" :: Some "volume" :: Some "snapshot" :: rest) = Some l →
  snapshot_only (Call (incus_cmd p l) None).
Proof.
  intros Hl. do 3 apply mapM_id_cons in Hl as (? & -> & Hl).
  right. unfold is_snapshot_command. by rewrite volume_subcommand_incus_cmd.
Qed.

Lemma snapshot_only_harmless c : harmless c → snapshot_only c.
Proof. intros [H _]. by left. Qed.

(** X20. With a snapshot name, the volume itself is left alone.  In the
    modes [present], [absent] and [restored], when a snapshot name is given,
    every command the run issues is a read-only query or a
    [storage volume snapshot] command: the volume is never created, deleted,
    reconfigured or attached, whatever the external tool answers. *)
Theorem snapshot_runs_touch_only_snapshots p h :
  state p = Present ∨ state p = Absent ∨ state p = Restored →
  str_truthy (snapshot p) = true →
  ∃ new, (run gateway yaml_safe_load py_repr p h).1 = h ++ new ∧
         Forall (λ c, is_query c = true ∨ is_snapshot_command c = true) new.
Proof.
  intros Hstate Hsnap.
  cut (emits snapshot_only (λ _ : unit, True) (run gateway yaml_safe_load py_repr p)).
  { intros H. destruct (H h) as (new & Hh & Hnew & _). by exists new. }
  assert (Hinfo : emits snapshot_only (λ _, True)
                    (get_volume_info gateway yaml_safe_load p))
    by (eapply emits_mono; [apply snapshot_only_harmless|apply emits_get_volume_info]).
  assert (Hex : emits snapshot_only (λ _, True) (snapshot_exists gateway p))
    by (eapply emits_mono; [apply snapshot_only_harmless|apply emits_snapshot_exists]).
  assert (Hcreate : emits snapshot_only (λ _, True) (create gateway py_repr p)).
  { unfold create. rewrite Hsnap. cbn [when].
    apply emits_bind with (R := λ _, False); [|by intros ? []].
    emits_step; [apply Hex|].
    emits_step; [repeat emits_step|].
    emits_step; [repeat emits_step|].
    emits_step; [apply emits_volume_run_incus, snapshot_only_verb|].
    repeat emits_step. }
  assert (Hdelete : emits snapshot_only (λ _, True) (delete gateway p)).
  { unfold delete. rewrite Hsnap. cbn [when].
    apply emits_bind with (R := λ _, False); [|by intros ? []].
    emits_step; [apply Hex|].
    emits_step; [repeat emits_step|].
    emits_step; [repeat emits_step|].
    emits_step; [apply emits_volume_run_incus, snapshot_only_verb|].
    repeat emits_step. }
  assert (Hrestore : emits snapshot_only (λ _, True) (restore gateway p)).
  { unfold restore. rewrite Hsnap. cbn [negb when].
    emits_step; [repeat emits_step|].
    emits_step; [apply Hex|].
    emits_step; [repeat emits_step|].
    emits_step; [repeat emits_step|].
    emits_step; [apply emits_volume_run_incus, snapshot_only_verb|].
    repeat emits_step. }
  unfold run.
  destruct Hstate as [-> | [-> | ->]]; simpl;
    (emits_step; [apply Hinfo|]).
  - rewrite Hsnap. repeat emits_step; try done.
    by rewrite andb_false_r in *.
  - repeat emits_step; done.
  - done.
Qed.

(** X21. A new volume is attached without a check, and a failed attachment
    fails the run.  In mode [present], when the state reader reports the
    volume absent, no snapshot name is given and an attach target is given,
    then outside check mode the run issues the creation command and, only
    when it succeeds, the attach command right after it, with no query of
    the instance's devices in between.  A failed creation issues no attach
    command; a failed attachment ends the run in failure although the volume
    has been created. *)
Theorem new_volume_is_attached_without_a_check p h h1 info lc la :
  state p = Present →
  get_volume_info gateway yaml_safe_load p h = (h1, Ret info) →
  truthy info = false →
  str_truthy (snapshot p) = false →
  str_truthy (attach_to p) = true →
  check_mode p = false →
  mapM id (create_cmd_args py_repr p) = Some lc →
  mapM id (attach_cmd_args p) = Some la →
  let create_call := Call (incus_cmd p lc) None in
  let attach_call := Call (incus_cmd p la) None in
  let r := gateway h1 create_call in
  let r2 := gateway (h1 ++ [create_call]) attach_call in
  run gateway yaml_safe_load py_repr p h =
    if rc r =? 0 then
      ((h1 ++ [create_call]) ++ [attach_call],
       if rc r2 =? 0 then ExitJson true "Storage volume created"
       else FailJson ("Failed to attach volume: " +:+ err r2 +:+ " CMD: "
                        +:+ String.concat " " la) (Some (out r2, err r2)))
    else (h1 ++ [create_call],
          FailJson ("Failed to create storage volume: " +:+ err r) (Some (out r, err r))).
Proof.
  intros Hstate Hinfo Hfalsy Hsnap Hattach Hwet Hlc Hla create_call attach_call r r2.
  rewrite (run_after_state_query _ _ _ p h h1 info) by (by rewrite ?Hstate).
  rewrite Hstate, Hfalsy, Hsnap. cbn [negb andb].
  unfold create. rewrite Hsnap, Hwet, Hattach. cbn [when].
  unfold attach_volume. rewrite Hwet.
  unfold M_bind, M_ret.
  rewrite (volume_run_incus_some _ _ _ _ _ Hlc).
  fold create_call. fold r. destruct (rc r =? 0); simpl; [|done].
  rewrite (volume_run_incus_some _ _ _ _ _ Hla).
  fold attach_call. fold r2. destruct (rc r2 =? 0); simpl; [done|].
  unfold join_args. by rewrite Hla.
Qed.

(** X22. Mode [absent] deletes exactly what was named.  When the state
    reader reports the volume and the run is not a dry run: without a
    snapshot name the one command issued after the state query is
    [storage volume delete pool name]; with the name of a snapshot that
    exists, the one command issued after the two queries is
    [storage volume snapshot delete pool name snapshot].  In both cases the
    outcome is a change when the command succeeds and its failure
    otherwise. *)
Theorem absent_deletes_exactly_the_target p h h1 info n :
  state p = Absent →
  get_volume_info gateway yaml_safe_load p h = (h1, Ret info) →
  truthy info = true →
  name p = Some n →
  check_mode p = false →
  (str_truthy (snapshot p) = false →
   let delete_call :=
     Call (incus_cmd p ["storage"; "volume"; "delete"; qualified_pool p; n]) None in
   let r := gateway h1 delete_call in
   run gateway yaml_safe_load py_repr p h =
     (h1 ++ [delete_call],
      if rc r =? 0 then ExitJson true "Storage volume deleted"
      else FailJson ("Failed to delete storage volume: " +:+ err r)
             (Some (out r, err r)))) ∧
  (∀ s h2, snapshot p = Some s → s ≠ "" →
     snapshot_exists gateway p h1 = (h2, Ret true) →
     let delete_call :=
       Call (incus_cmd p ["storage"; "volume"; "snapshot"; "delete"; qualified_pool p;
                          n; s]) None in
     let r := gateway h2 delete_call in
     run gateway yaml_safe_load py_repr p h =
       (h2 ++ [delete_call],
        if rc r =? 0 then ExitJson true "Snapshot deleted"
        else FailJson ("Failed to delete snapshot: " +:+ err r) (Some (out r, err r)))).
Proof.
  intros Hstate Hinfo Htruthy Hn Hwet.
  rewrite (run_after_state_query _ _ _ p h h1 info) by (by rewrite ?Hstate).
  rewrite Hstate, Htruthy. split.
  - intros Hsnap delete_call r. unfold delete. rewrite Hsnap, Hwet, Hn. cbn [when].
    unfold M_bind, M_ret.
    rewrite (volume_run_incus_some _ _ _
               ["storage"; "volume"; "delete"; qualified_pool p; n]) by done.
    fold delete_call. fold r. by destruct (rc r =? 0).
  - intros s h2 Hs Hne Hex delete_call r. unfold delete.
    assert (str_truthy (snapshot p) = true) as ->.
    { rewrite Hs. simpl. by destruct s. }
    rewrite Hwet, Hn, Hs. cbn [when].
    unfold M_bind at 1. unfold M_bind at 1.
    rewrite Hex. cbn [negb when].
    unfold M_bind, M_ret.
    rewrite (volume_run_incus_some _ _ _
               ["storage"; "volume"; "snapshot"; "delete"; qualified_pool p; n; s])
      by done.
    fold delete_call. fold r. by destruct (rc r =? 0).
Qed.

End VolumeSnapshots.

Section ProfileAbsentAndCompare.

Import IncusProfile.

Context (gateway : list call → call → reply).
Context (yaml_safe_load : string → loaded).
Context (yaml_dump : doc → string).
Context (read_file : string → file_status).
Context (py_repr : pyval → string).

Implicit Types (p : params) (h : list call).

(** X23. Removing a profile, from the answer of [profile show].  In mode
    [absent] the run issues [profile show] first.  The profile counts as
    found when that query succeeds and its output decodes to a non-empty
    document; a failed query, undecodable output and an empty document all
    count as not found and end the run with "Profile not found" and no
    change.  A found profile is deleted by one [profile delete] command,
    which a dry run only announces. *)
Theorem profile_absent_deletes_only_a_readable_profile p h :
  state p = Absent →
  let show_call := Call (incus_cmd p ["profile"; "show"; target p]) None in
  let r0 := gateway h show_call in
  let h1 := h ++ [show_call] in
  let found :=
    (rc r0 =? 0) &&
    match yaml_safe_load (out r0) with
    | Loaded v => truthy (value_of v)
    | LoadError _ => false
    end in
  let delete_call := Call (incus_cmd p ["profile"; "delete"; target p]) None in
  let r := gateway h1 delete_call in
  run gateway yaml_safe_load yaml_dump read_file py_repr p h =
    if found then
      if check_mode p then (h1, ExitJson true "Profile would be deleted")
      else (h1 ++ [delete_call],
            if rc r =? 0 then ExitJson true "Profile deleted"
            else FailJson ("Failed to delete profile: " +:+ err r) (Some (out r, err r)))
    else (h1, ExitJson false "Profile not found").
Proof.
  intros Hstate show_call r0 h1 found delete_call r.
  unfold run. rewrite Hstate.
  unfold M_bind at 1, get_profile. unfold M_bind at 1.
  rewrite run_incus_eq. fold show_call. fold r0. fold h1.
  subst found. destruct (rc r0 =? 0); simpl; [|done].
  destruct (yaml_safe_load (out r0)) as [v|e]; cbn [M_ret value_of truthy]; [|done].
  destruct (truthy (value_of v)); [|done].
  unfold delete. destruct (check_mode p); cbn [when]; [done|].
  unfold M_bind, M_ret. rewrite run_incus_eq. fold delete_call. fold r.
  by destruct (rc r =? 0).
Qed.

(** X24. An update compares three fields and nothing else.  When the
    profile read back is a non-empty dictionary and the builder returns a
    dictionary, [update] reports "Profile matches configuration", with no
    command after the state query, exactly when the description, the config
    and the devices of the two documents are equal (an absent field counting
    as [None]).  A desired state that differs from the current profile in
    any other field is therefore not applied. *)
Theorem profile_update_compares_three_fields p h h1 cur desired c d :
  get_profile gateway yaml_safe_load p h = (h1, Ret cur) →
  value_of cur = PDict c →
  c ≠ [] →
  get_desired_state yaml_safe_load read_file py_repr p cur = Ret desired →
  value_of desired = PDict d →
  let same k :=
    py_eq (default PNone (dict_get k c)) (default PNone (dict_get k d)) in
  update gateway yaml_safe_load yaml_dump read_file py_repr p false h
    = (h1, ExitJson false "Profile matches configuration")
  ↔ same "description" && same "config" && same "devices" = true.
Proof.
  intros Hget Hcur Hne Hdes Hd same. unfold update.
  rewrite (M_bind_ret_eq _ _ _ _ _ Hget). rewrite Hcur.
  assert (truthy (PDict c) = true) as -> by (by destruct c).
  cbn [negb when]. unfold M_bind at 1, M_ret at 1.
  unfold M_bind at 1, lift at 1. rewrite Hdes, Hd.
  unfold M_bind at 1, lift at 1. simpl py_get.
  unfold M_bind at 1, lift at 1.
  unfold M_bind at 1, lift at 1.
  unfold M_bind at 1, lift at 1.
  unfold M_bind at 1, lift at 1.
  unfold M_bind at 1, lift at 1.
  fold (same "description"). fold (same "config"). fold (same "devices").
  rewrite <- !negb_andb, andb_true_r, negb_involutive.
  destruct (same "description" && same "config" && same "devices"); cbn [when].
  - done.
  - split; [|done]. unfold M_bind at 1, M_ret at 1.
    destruct (check_mode p); cbn [when]; [done|].
    unfold M_bind at 1, M_ret at 1. unfold M_bind at 1.
    rewrite run_incus_input_eq.
    destruct (rc _ =? 0); simpl; intros [= Hh];
      apply (f_equal length) in Hh; rewrite length_app in Hh; simpl in Hh; lia.
Qed.

End ProfileAbsentAndCompare.

(** ** The further theorems on concrete runs *)

Section MoreConcreteRuns.


(** On the declaration file in which [devices] is an alias of the [config]
    mapping, the config parameter alone changes the [devices] field too: the
    field is not carried over, the dictionary assigned to being bound in it. *)
Example aliased_devices_follow_the_config :
  IncusProfile.get_desired_state alias_load (file_with alias_text) plain_repr
    alias_config_params DNone
  = Ret (DDict None
           [("config", DDict (Some 1%nat) [("a", DStr "1"); ("c", DStr "3")]);
            ("devices", DDict (Some 1%nat) [("a", DStr "1"); ("c", DStr "3")])]).
Proof. reflexivity. Qed.

Lemma desired_state_builder_is_idempotent_witness :
  ∃ desired,
    IncusProfile.get_desired_state (load_unshared toy_safe_load) no_file plain_repr
      merge_params merge_current = Ret (DDict None desired) ∧
    IncusProfile.get_desired_state (load_unshared toy_safe_load) no_file plain_repr
      merge_params (DDict None desired) = Ret (DDict None desired).
Proof.
  apply (desired_state_builder_is_idempotent (load_unshared toy_safe_load) no_file
           plain_repr merge_params merge_current None
           [("config", DDict None [("a", DStr "1"); ("b", DStr "2")]);
            ("description", DStr ""); ("devices", DDict None [])]).
  - reflexivity.
  - right. eexists. reflexivity.
  - left. reflexivity.
  - right. split; reflexivity.
  - intros items [= <-]. apply (bool_decide_unpack _). vm_compute. exact I.
  - intros items [=].
Defined.

(** Where [devices] and [config] are one dictionary the builder is not
    idempotent entry for entry: building again removes [b] and adds it back
    after [n]. *)
Example aliased_rebuild_reorders_the_entries :
  let shared1 := [("b", DDict None [("type", DStr "nic")]);
                  ("n", DDict None [("type", DStr "disk")])] in
  let shared2 := [("n", DDict None [("type", DStr "disk")]);
                  ("b", DDict None [("type", DStr "nic")])] in
  IncusProfile.get_desired_state (load_unshared toy_safe_load) no_file plain_repr
    reorder_params aliased_current
  = Ret (DDict None [("config", DDict (Some 1%nat) shared1);
                     ("devices", DDict (Some 1%nat) shared1)]) ∧
  IncusProfile.get_desired_state (load_unshared toy_safe_load) no_file plain_repr
    reorder_params
    (DDict None [("config", DDict (Some 1%nat) shared1);
                 ("devices", DDict (Some 1%nat) shared1)])
  = Ret (DDict None [("config", DDict (Some 1%nat) shared2);
                     ("devices", DDict (Some 1%nat) shared2)]).
Proof. split; reflexivity. Qed.

Lemma profile_update_on_converged_state_witness :
  IncusProfile.update (gateway_prints "{config: {}, description: old}")
    (load_unshared toy_safe_load) toy_dump no_file plain_repr
    described_profile_params false []
  = ([Call ["incus"; "--project"; "default"; "profile"; "show"; "web"] None],
     ExitJson false "Profile matches configuration").
Proof.
  apply (profile_update_on_converged_state
           (gateway_prints "{config: {}, description: old}")
           (load_unshared toy_safe_load) toy_dump
           no_file plain_repr described_profile_params []
           [Call ["incus"; "--project"; "default"; "profile"; "show"; "web"] None]
           old_profile old_profile old_document).
  - reflexivity.
  - reflexivity.
  - discriminate.
  - simpl. repeat split; try exact I; apply (bool_decide_unpack _); vm_compute; exact I.
  - reflexivity.
  - reflexivity.
Defined.

Lemma profile_create_submits_the_built_state_witness :
  IncusProfile.create (gateway_prints "{config: {}, description: old}")
    (load_unshared toy_safe_load) toy_dump no_file plain_repr
    described_profile_params []
  = ([Call ["incus"; "--project"; "default"; "profile"; "create"; "web"] None;
      Call ["incus"; "--project"; "default"; "profile"; "show"; "web"] None;
      Call ["incus"; "--project"; "default"; "profile"; "edit"; "web"] (Some "<yaml>")],
     ExitJson true "Profile updated").
Proof.
  apply (profile_create_submits_the_built_state
           (gateway_prints "{config: {}, description: old}")
           (load_unshared toy_safe_load) toy_dump
           no_file plain_repr described_profile_params []
           [Call ["incus"; "--project"; "default"; "profile"; "create"; "web"] None;
            Call ["incus"; "--project"; "default"; "profile"; "show"; "web"] None]
           old_profile old_document).
  - reflexivity.
  - reflexivity.
  - reflexivity.
  - reflexivity.
  - discriminate.
Defined.

(** The same creation with a declaration file that is missing: the profile
    is created and read back, the builder fails, and no edit is issued. *)
Example profile_create_without_its_source_file :
  IncusProfile.create (gateway_prints "{config: {}, description: old}")
    (load_unshared toy_safe_load) toy_dump no_file plain_repr
    sourced_profile_params []
  = ([Call ["incus"; "--project"; "default"; "profile"; "create"; "web"] None;
      Call ["incus"; "--project"; "default"; "profile"; "show"; "web"] None],
     FailJson "Source file '/etc/incus/web.yaml' not found" None).
Proof. reflexivity. Qed.

Lemma profile_update_fails_on_unusable_source_witness :
  IncusProfile.update (gateway_prints "{config: {}, description: old}")
    (load_unshared toy_safe_load) toy_dump no_file plain_repr
    sourced_profile_params false []
  = ([Call ["incus"; "--project"; "default"; "profile"; "show"; "web"] None],
     FailJson "Source file '/etc/incus/web.yaml' not found" None).
Proof.
  apply (proj1 (profile_update_fails_on_unusable_source
                  (gateway_prints "{config: {}, description: old}")
                  (load_unshared toy_safe_load) toy_dump
                  no_file plain_repr sourced_profile_params []
                  [Call ["incus"; "--project"; "default"; "profile"; "show"; "web"] None]
                  old_profile "/etc/incus/web.yaml" false
                  eq_refl ltac:(discriminate) eq_refl eq_refl)).
  reflexivity.
Defined.

Lemma profile_clean_dry_run_is_the_real_run_witness :
  IncusProfile.run (gateway_prints "{config: {}, description: old}")
    (load_unshared toy_safe_load) toy_dump no_file plain_repr
    (IncusProfile.with_check_mode false described_profile_params) []
  = IncusProfile.run (gateway_prints "{config: {}, description: old}")
      (load_unshared toy_safe_load) toy_dump no_file plain_repr
      (IncusProfile.with_check_mode true described_profile_params) [].
Proof.
  apply (profile_clean_dry_run_is_the_real_run
           (gateway_prints "{config: {}, description: old}")
           (load_unshared toy_safe_load) toy_dump
           no_file plain_repr described_profile_params []
           "Profile matches configuration").
  reflexivity.
Defined.

Import IncusStorageVolume.

Lemma copied_fails_before_any_copy_witness :
  run gateway_down toy_safe_load plain_repr (transfer_params Copied (Some "data") None) []
  = ([show_data], FailJson "Source volume 'data' not found" None).
Proof.
  apply (proj1 (copied_fails_before_any_copy gateway_down toy_safe_load plain_repr
                  (transfer_params Copied (Some "data") None) [] [show_data] PNone
                  eq_refl eq_refl)).
  reflexivity.
Defined.

Lemma export_ignores_current_state_witness :
  run gateway_down toy_safe_load plain_repr (transfer_params Exported (Some "data") None) []
  = ([show_data] ++
     [Call ["incus"; "--project"; "default"; "storage"; "volume"; "export"; "default";
            "data"; "/tmp/data.tar"] None],
     FailJson "Failed to export volume: Error: not found" (Some ("", "Error: not found"))).
Proof.
  apply (export_ignores_current_state gateway_down toy_safe_load plain_repr
           (transfer_params Exported (Some "data") None) [] [show_data] PNone
           "data" "/tmp/data.tar");
    first [reflexivity | discriminate].
Defined.

Lemma restore_of_missing_snapshot_fails_witness :
  run gateway_one_volume toy_safe_load plain_repr (volume_params Restored (Some "s1") false)
    [] = ([show_data; show_data_s1], FailJson "Snapshot not found" None) ∧
  ∃ c1 c2, [show_data; show_data_s1] = [] ++ [c1; c2] ∧
           is_query c1 = true ∧ is_query c2 = true.
Proof.
  apply (restore_of_missing_snapshot_fails gateway_one_volume toy_safe_load plain_repr
           (volume_params Restored (Some "s1") false) [] [show_data]
           [show_data; show_data_s1] (PDict old_document));
    reflexivity.
Defined.

Lemma absent_of_missing_target_is_no_change_witness :
  run gateway_one_volume toy_safe_load plain_repr (volume_params Absent (Some "s1") false) []
    = ([show_data; show_data_s1], ExitJson false "Snapshot not found") ∧
  ∃ c, [show_data; show_data_s1] = [show_data] ++ [c] ∧ is_query c = true.
Proof.
  apply (proj2 (absent_of_missing_target_is_no_change gateway_one_volume toy_safe_load
                  plain_repr (volume_params Absent (Some "s1") false) [] [show_data]
                  (PDict old_document) eq_refl eq_refl));
    reflexivity.
Defined.

Lemma run_without_name_raises_witness :
  run gateway_down toy_safe_load plain_repr (transfer_params Copied None None) []
  = ([], Raise TypeError).
Proof.
  apply (run_without_name_raises gateway_down toy_safe_load plain_repr
           (transfer_params Copied None None) []);
    reflexivity.
Defined.

(** Two keys differ and the first [set] fails: one command is issued. *)
Lemma volume_update_sets_the_differing_keys_witness :
  update gateway_down toy_safe_load plain_repr sized_params
    (PDict [("config", PDict [("size", PStr "5GiB")])]) []
  = ([Call ["incus"; "--project"; "default"; "storage"; "volume"; "set"; "default"; "data";
            "size=10GiB"] None],
     FailJson "Failed to set volume config 'size': Error: not found" None).
Proof.
  apply (proj2 (proj2 (volume_update_sets_the_differing_keys gateway_down toy_safe_load
                         plain_repr sized_params
                         [("config", PDict [("size", PStr "5GiB")])]
                         [("size", PStr "5GiB")] "data" [] eq_refl eq_refl eq_refl))
           eq_refl 0%nat ("size", PStr "10GiB")).
  - reflexivity.
  - intros j cl Hj. lia.
  - discriminate.
Defined.

(** The same update when every command succeeds: both keys are set. *)
Example volume_update_sets_both_keys :
  update (gateway_prints "") toy_safe_load plain_repr sized_params
    (PDict [("config", PDict [("size", PStr "5GiB")])]) []
  = ([Call ["incus"; "--project"; "default"; "storage"; "volume"; "set"; "default"; "data";
            "size=10GiB"] None;
      Call ["incus"; "--project"; "default"; "storage"; "volume"; "set"; "default"; "data";
            "snapshots.expiry=7"] None],
     ExitJson true "Updated config 'size', Updated config 'snapshots.expiry'").
Proof. reflexivity. Qed.

Lemma import_never_reads_current_state_witness :
  (∃ new,
     (run (gateway_prints "") toy_safe_load plain_repr
        (transfer_params Imported (Some "data") None) []).1 = [] ++ new ∧
     Forall (λ c, is_query c = false) new) ∧
  (str_truthy (import_from (transfer_params Imported (Some "data") None)) = false →
     run (gateway_prints "") toy_safe_load plain_repr
       (transfer_params Imported (Some "data") None) []
     = ([], FailJson "'import_from' is required for state=imported" None)).
Proof.
  apply (import_never_reads_current_state (gateway_prints "") toy_safe_load plain_repr
           (transfer_params Imported (Some "data") None) []).
  reflexivity.
Defined.

Lemma import_without_name_then_attach_raises_witness :
  run (gateway_prints "") toy_safe_load plain_repr
    (transfer_params Imported None (Some "web")) []
  = ([] ++
     [Call ["incus"; "--project"; "default"; "storage"; "volume"; "import"; "default";
            "/tmp/data.tar"] None],
     Raise TypeError).
Proof.
  apply (import_without_name_then_attach_raises (gateway_prints "") toy_safe_load
           plain_repr (transfer_params Imported None (Some "web")) [] "/tmp/data.tar");
    first [reflexivity | discriminate].
Defined.

Lemma volume_create_passes_config_items_witness :
  run gateway_down toy_safe_load plain_repr sized_params []
  = ([show_data] ++
     [Call ["incus"; "--project"; "default"; "storage"; "volume"; "create"; "default";
            "data"; "size=10GiB"; "snapshots.expiry=7"] None],
     FailJson "Failed to create storage volume: Error: not found"
       (Some ("", "Error: not found"))).
Proof.
  apply (volume_create_passes_config_items gateway_down toy_safe_load plain_repr
           sized_params [] [show_data] PNone "data");
    reflexivity.
Defined.

Lemma attached_means_a_device_of_that_name_witness :
  check_if_attached (gateway_prints instance_text) instance_safe_load attach_params []
  = ([] ++
     [Call ["incus"; "--project"; "default"; "config"; "device"; "list"; "web";
            "--format=json"] None;
      Call ["incus"; "--project"; "default"; "config"; "show"; "web"] None],
     Ret (dict_has "data" [("data", PDict [("type", PStr "disk")])])).
Proof.
  apply (proj2 (attached_means_a_device_of_that_name (gateway_prints instance_text)
                  instance_safe_load attach_params [] "web" "data" eq_refl eq_refl)
           [("devices", PDict [("data", PDict [("type", PStr "disk")])])]
           [("data", PDict [("type", PStr "disk")])]);
    reflexivity.
Defined.

Lemma update_attaches_only_a_missing_device_witness :
  update (gateway_prints instance_text) instance_safe_load plain_repr attach_params
    (PDict old_document) []
  = ([Call ["incus"; "--project"; "default"; "config"; "device"; "list"; "web";
            "--format=json"] None;
      Call ["incus"; "--project"; "default"; "config"; "show"; "web"] None],
     ExitJson false "Storage volume matches configuration").
Proof.
  apply (update_attaches_only_a_missing_device (gateway_prints instance_text)
           instance_safe_load plain_repr attach_params (PDict old_document) []
           [Call ["incus"; "--project"; "default"; "config"; "device"; "list"; "web";
                  "--format=json"] None;
            Call ["incus"; "--project"; "default"; "config"; "show"; "web"] None]
           true
           ["storage"; "volume"; "attach"; "default"; "data"; "web"; "data"; "/mnt/data"]);
    reflexivity.
Defined.

Lemma volume_clean_dry_run_is_the_real_run_witness :
  run gateway_one_volume toy_safe_load plain_repr
    (with_check_mode false (volume_params Absent (Some "s1") false)) []
  = run gateway_one_volume toy_safe_load plain_repr
      (with_check_mode true (volume_params Absent (Some "s1") false)) [].
Proof.
  apply (volume_clean_dry_run_is_the_real_run gateway_one_volume toy_safe_load plain_repr
           (volume_params Absent (Some "s1") false) [] "Snapshot not found").
  reflexivity.
Defined.

Lemma copied_issues_one_copy_or_move_witness :
  run gateway_one_volume toy_safe_load plain_repr
    (transfer_params Copied (Some "data") None) []
  = ([show_data] ++
     [Call ["incus"; "--project"; "default"; "storage"; "volume"; "copy"; "default/data";
            "fast/data2"] None],
     FailJson "Failed to copy volume: Error: not found" (Some ("", "Error: not found"))).
Proof.
  apply (copied_issues_one_copy_or_move gateway_one_volume toy_safe_load plain_repr
           (transfer_params Copied (Some "data") None) [] [show_data]
           (PDict old_document) "data" "fast" "data2");
    first [reflexivity | discriminate].
Defined.

Lemma snapshot_runs_touch_only_snapshots_witness :
  ∃ new,
    (run gateway_one_volume toy_safe_load plain_repr
       (volume_params Absent (Some "s1") false) []).1 = [] ++ new ∧
    Forall (λ c, is_query c = true ∨ is_snapshot_command c = true) new.
Proof.
  apply (snapshot_runs_touch_only_snapshots gateway_one_volume toy_safe_load plain_repr
           (volume_params Absent (Some "s1") false) []).
  - right. left. reflexivity.
  - reflexivity.
Defined.

Lemma new_volume_is_attached_without_a_check_witness :
  run (gateway_prints "") toy_safe_load plain_repr attach_params []
  = (([show_data] ++
      [Call ["incus"; "--project"; "default"; "storage"; "volume"; "create"; "default";
             "data"] None]) ++
     [Call ["incus"; "--project"; "default"; "storage"; "volume"; "attach"; "default";
            "data"; "web"; "data"; "/mnt/data"] None],
     ExitJson true "Storage volume created").
Proof.
  apply (new_volume_is_attached_without_a_check (gateway_prints "") toy_safe_load
           plain_repr attach_params [] [show_data] PNone
           ["storage"; "volume"; "create"; "default"; "data"]
           ["storage"; "volume"; "attach"; "default"; "data"; "web"; "data"; "/mnt/data"]);
    reflexivity.
Defined.

Lemma absent_deletes_exactly_the_target_witness :
  run gateway_one_volume toy_safe_load plain_repr (volume_params Absent None false) []
  = ([show_data] ++
     [Call ["incus"; "--project"; "default"; "storage"; "volume"; "delete"; "default";
            "data"] None],
     FailJson "Failed to delete storage volume: Error: not found"
       (Some ("", "Error: not found"))).
Proof.
  apply (proj1 (absent_deletes_exactly_the_target gateway_one_volume toy_safe_load
                  plain_repr (volume_params Absent None false) [] [show_data]
                  (PDict old_document) "data" eq_refl eq_refl eq_refl eq_refl eq_refl)).
  reflexivity.
Defined.

Lemma profile_absent_deletes_only_a_readable_profile_witness :
  IncusProfile.run gateway_down (load_unshared toy_safe_load) toy_dump no_file plain_repr
    absent_profile_params []
  = ([] ++ [Call ["incus"; "--project"; "default"; "profile"; "show"; "web"] None],
     ExitJson false "Profile not found").
Proof.
  apply (profile_absent_deletes_only_a_readable_profile gateway_down
           (load_unshared toy_safe_load) toy_dump no_file plain_repr
           absent_profile_params []).
  reflexivity.
Defined.

Lemma profile_update_compares_three_fields_witness :
  IncusProfile.update (gateway_prints "{config: {}, description: old}")
    (load_unshared named_safe_load) toy_dump (file_with named_text) plain_repr
    sourced_profile_params false []
  = ([Call ["incus"; "--project"; "default"; "profile"; "show"; "web"] None],
     ExitJson false "Profile matches configuration").
Proof.
  apply (proj2 (profile_update_compares_three_fields
                  (gateway_prints "{config: {}, description: old}")
                  (load_unshared named_safe_load)
                  toy_dump (file_with named_text) plain_repr sourced_profile_params []
                  [Call ["incus"; "--project"; "default"; "profile"; "show"; "web"] None]
                  old_profile
                  (doc_of (PDict (old_document ++ [("name", PStr "other")])))
                  old_document (old_document ++ [("name", PStr "other")])
                  eq_refl eq_refl ltac:(discriminate) eq_refl eq_refl)).
  reflexivity.
Defined.

End MoreConcreteRuns.
